(** * create-tiny-store: the observable cell and the store built on it

    A shallow embedding of [createObservable] and [createStore].

    The JavaScript closures of one observable share the variables
    [state], [debounceId] and [subscribers]; here they are the fields of a
    [cell] living in a heap of cells, and every operation passes the whole
    [world] (heap, host scheduler, console, event trace) along.

    User code handed to the library (value initialisers, setter functions,
    subscribers, the actions factory, the actions themselves) is a [prog]:
    a tree of calls back into the library ending in a return or a throw.
    The interpreter is bounded by fuel: [None] stands for a computation
    that has not finished within the bound. *)

From Stdlib Require Import ZArith NArith Bool String List Lia.
From Stdlib Require Import DecimalString DecimalNat DecimalN DecimalFacts.
From stdpp Require Import base option list.
Import ListNotations.
Local Open Scope string_scope.
Local Open Scope list_scope.
Local Set Warnings "-register-all".

(** ** Values *)

(** The five closures that [createObservable] returns. *)
Inductive method := MGet | MSet | MClear | MSubscribe | MUnsubscribe.

Definition method_eqb (a b : method) : bool :=
  match a, b with
  | MGet, MGet | MSet, MSet | MClear, MClear
  | MSubscribe, MSubscribe | MUnsubscribe, MUnsubscribe => true
  | _, _ => false
  end.

(** JavaScript values.  Numbers are the integers and [NaN]; the model has
    no fractions, infinities or signed zeros.  An object carries its
    reference and a snapshot of its own enumerable properties, in the order
    in which the object lists them; a user function is named by an index into
    the environment of function bodies; [VMethod m c] is the closure [m] of
    the observable at address [c]; [VUnsub k c s] is the [k]-th closure
    [() => unsubscribe(s)] created by [subscribe] of cell [c]. *)
Inductive value :=
| VUndef
| VBool (b : bool)
| VNum (n : Z)
| VNaN
| VStr (s : string)
| VObj (ref : nat) (fields : list (string * value))
| VFun (f : nat)
| VMethod (m : method) (c : nat)
| VUnsub (k : nat) (c : nat) (s : value).

(** [a === b]: primitives by value, objects and functions by reference;
    [NaN] is not [===] to anything, itself included. *)
Definition strict_eq (a b : value) : bool :=
  match a, b with
  | VUndef, VUndef => true
  | VBool x, VBool y => Bool.eqb x y
  | VNum x, VNum y => Z.eqb x y
  | VStr x, VStr y => String.eqb x y
  | VObj r _, VObj r' _ => Nat.eqb r r'
  | VFun f, VFun g => Nat.eqb f g
  | VMethod m c, VMethod m' c' => method_eqb m m' && Nat.eqb c c'
  | VUnsub k _ _, VUnsub k' _ _ => Nat.eqb k k'
  | _, _ => false
  end.

(** SameValueZero, the equality of [Set] membership: [===], except that
    [NaN] is the same value as [NaN]. *)
Definition same_value_zero (a b : value) : bool :=
  match a, b with
  | VNaN, VNaN => true
  | _, _ => strict_eq a b
  end.

(** [typeof v === 'function'] *)
Definition is_function (v : value) : bool :=
  match v with
  | VFun _ | VMethod _ _ | VUnsub _ _ _ => true
  | _ => false
  end.

(** The truthiness test of [if (immediate)]. *)
Definition truthy (v : value) : bool :=
  match v with
  | VUndef => false
  | VBool b => b
  | VNum n => negb (Z.eqb n 0)
  | VNaN => false
  | VStr s => negb (String.eqb s "")
  | _ => true
  end.

(** The i-th actual argument; a missing argument reads as [undefined]. *)
Definition arg (i : nat) (args : list value) : value := nth i args VUndef.

(** ** Objects as property lists *)

Definition props := list (string * value).

(** The property name of the array index [i]. *)
Definition key_of_index (i : nat) : string :=
  NilZero.string_of_uint (Nat.to_uint i).

(** The array index that a property name stands for, if any: a canonical
    decimal numeral below [2^32 - 1]. *)
Definition index_of_key (k : string) : option N :=
  match NilZero.uint_of_string k with
  | Some d =>
      let i := N.of_uint d in
      if String.eqb (NilZero.string_of_uint (N.to_uint i)) k && N.ltb i 4294967295
      then Some i else None
  | None => None
  end.

(** The own properties of a string: its characters under their indices. *)
Fixpoint string_fields (i : nat) (s : string) : props :=
  match s with
  | EmptyString => []
  | String ch s' =>
      (key_of_index i, VStr (String ch EmptyString)) :: string_fields (S i) s'
  end.

(** The own enumerable string-keyed properties that a spread element
    copies: those of an object, the characters of a string, none for any
    other primitive and for a function. *)
Definition own_fields (v : value) : props :=
  match v with
  | VObj _ fs => fs
  | VStr s => string_fields 0 s
  | _ => []
  end.

Definition lookup_field (k : string) (o : props) : option value :=
  match find (fun kv => String.eqb (fst kv) k) o with
  | Some kv => Some (snd kv)
  | None => None
  end.

Definition has_key (k : string) (o : props) : bool :=
  existsb (fun kv => String.eqb (fst kv) k) o.

Fixpoint replace_field (o : props) (k : string) (v : value) : props :=
  match o with
  | [] => []
  | (k', v') :: o' =>
      if String.eqb k' k then (k', v) :: o' else (k', v') :: replace_field o' k v
  end.

(** A new property under the array index [i]: array indices are listed
    first, in ascending order. *)
Fixpoint insert_index (i : N) (k : string) (v : value) (o : props) : props :=
  match o with
  | [] => [(k, v)]
  | (k', v') :: o' =>
      match index_of_key k' with
      | Some j =>
          if N.ltb j i then (k', v') :: insert_index i k v o' else (k, v) :: o
      | None => (k, v) :: o
      end
  end.

(** [o[k] = v] on a property list: an existing key keeps its place; a new
    one goes among the array indices, or else behind all other names. *)
Definition assign (o : props) (k : string) (v : value) : props :=
  if has_key k o then replace_field o k v
  else match index_of_key k with
       | Some i => insert_index i k v o
       | None => o ++ [(k, v)]
       end.

(** Copying the own properties of [b] into [o], as a spread element does. *)
Definition assign_all (o b : props) : props :=
  fold_left (fun o kv => assign o (fst kv) (snd kv)) b o.

(** [{...a, ...b}] *)
Definition spread (a b : props) : props :=
  assign_all (assign_all [] a) b.

(** ** Outcomes and user programs *)

Inductive outcome :=
| Return (v : value)
| Throw (e : value).

(** What a user function does when it is called: it finishes, or it calls
    some callable value and continues with what that call did (so it may
    catch what the call throws). *)
Inductive prog :=
| Done (o : outcome)
| Call (callee : value) (args : list value) (k : outcome -> prog).

(** ** The state *)

(** The variables closed over by one observable.  [subscribers] is the
    entry list of the JavaScript [Set]: insertion ordered, a deleted entry
    leaves an empty slot behind, which an iteration in progress skips. *)
Record cell := Cell {
  current : value;
  future : value;
  queued : bool;
  debounceId : nat;
  subscribers : list (option value)
}.

(** One [console.error('Failed to read value:', {getter, state, error})]. *)
Record log_entry := LogEntry {
  log_getter : value;
  log_state : value;
  log_error : value
}.

(** A library event worth remembering: [Notified c s n o] is one invocation
    [s(n, o)] made by [emit] of cell [c]; [Subscribed c s] is one
    [subscribers.add(s)] of cell [c]. *)
Inductive event :=
| Notified (c : nat) (s newValue oldValue : value)
| Subscribed (c : nat) (s : value).

Record world := World {
  cells : list cell;
  timers : list (nat * nat);   (* pending host callbacks: handle, cell to trigger *)
  next_handle : nat;
  next_ref : nat;
  console : list log_entry;
  trace : list event
}.

Definition result := option (outcome * world).

(** The host before anything has run.  Handles start at 1: 0 is the initial
    [debounceId], which names no scheduled callback. *)
Definition host0 : world := World [] [] 1 0 [] [].

Definition with_current (v : value) (st : cell) : cell :=
  Cell v (future st) (queued st) (debounceId st) (subscribers st).
Definition with_future (v : value) (st : cell) : cell :=
  Cell (current st) v (queued st) (debounceId st) (subscribers st).
Definition with_queued (b : bool) (st : cell) : cell :=
  Cell (current st) (future st) b (debounceId st) (subscribers st).
Definition with_debounceId (h : nat) (st : cell) : cell :=
  Cell (current st) (future st) (queued st) h (subscribers st).
Definition with_subscribers (l : list (option value)) (st : cell) : cell :=
  Cell (current st) (future st) (queued st) (debounceId st) l.

Definition with_cells (cs : list cell) (w : world) : world :=
  World cs (timers w) (next_handle w) (next_ref w) (console w) (trace w).
Definition with_timers (ts : list (nat * nat)) (w : world) : world :=
  World (cells w) ts (next_handle w) (next_ref w) (console w) (trace w).

(** In-place update of the cell at address [c]. *)
Definition upd (c : nat) (f : cell -> cell) (w : world) : world :=
  with_cells (alter f c (cells w)) w.

Definition dead_cell : cell := Cell VUndef VUndef false 0 [].

(** The cell a closure refers to. *)
Definition cell_of (c : nat) (w : world) : cell :=
  default dead_cell (cells w !! c).

Definition console_error (e : log_entry) (w : world) : world :=
  World (cells w) (timers w) (next_handle w) (next_ref w) (console w ++ [e]) (trace w).

Definition record (n : event) (w : world) : world :=
  World (cells w) (timers w) (next_handle w) (next_ref w) (console w) (trace w ++ [n]).

(** A fresh reference for an object or closure the library creates. *)
Definition fresh_ref (w : world) : nat * world :=
  (next_ref w,
   World (cells w) (timers w) (next_handle w) (S (next_ref w)) (console w) (trace w)).

(** ** The host scheduler *)

(** [enqueue(trigger)] for the trigger of cell [c]: [requestAnimationFrame]
    or [setTimeout], whichever the host has. *)
Definition enqueue (c : nat) (w : world) : nat * world :=
  (next_handle w,
   World (cells w) (timers w ++ [(next_handle w, c)]) (S (next_handle w))
         (next_ref w) (console w) (trace w)).

(** [dequeue(h)]: [cancelAnimationFrame] or [clearTimeout]. *)
Definition dequeue (h : nat) (w : world) : world :=
  with_timers (filter (fun t => fst t ≠ h) (timers w)) w.

(** The handles of the callbacks pending for cell [c]. *)
Definition pending (c : nat) (w : world) : list nat :=
  map fst (filter (fun t => snd t = c) (timers w)).

Definition type_error : value := VStr "TypeError: not a function".
Definition dangling : value := VStr "ReferenceError: no such observable".

(** ** The subscriber set *)

(** Membership in a [Set] is SameValueZero. *)
Definition is_entry (s : value) (e : option value) : bool :=
  match e with
  | Some s' => same_value_zero s' s
  | None => false
  end.

(** [Set.prototype.add] *)
Definition set_add (s : value) (l : list (option value)) : list (option value) :=
  if existsb (is_entry s) l then l else l ++ [Some s].

(** [Set.prototype.delete] *)
Definition set_delete (s : value) (l : list (option value)) : list (option value) :=
  map (fun e => if is_entry s e then None else e) l.

(** [Set.prototype.clear] *)
Definition set_clear (l : list (option value)) : list (option value) :=
  map (fun _ => None) l.

(** The entries that are present, in insertion order. *)
Definition live (l : list (option value)) : list value := omap id l.

(** ** The library *)

Section Library.

(** The bodies of the user functions. *)
Variable body : nat -> list value -> prog.

Section Calls.

(** How a callable value is called, and the bound on loop iterations. *)
Variable callf : value -> list value -> world -> result.
Variable bound : nat.

Definition readValue (getter state : value) (w : world)
  : option (value * world) :=
  if is_function getter then
    match callf getter [state] w with
    | None => None
    | Some (Return v, w') => Some (v, w')
    | Some (Throw error, w') =>
        Some (state, console_error (LogEntry getter state error) w')
    end
  else Some (getter, w).

(** [for (const subscriber of subscribers) subscriber(newValue, oldValue)]
    from entry [i] on.  The entry list is read afresh at every step. *)
Fixpoint emit_from (n : nat) (c i : nat) (newValue oldValue : value)
  (w : world) : result :=
  match n with
  | O => None
  | S n' =>
      match subscribers (cell_of c w) !! i with
      | None => Some (Return VUndef, w)
      | Some None => emit_from n' c (S i) newValue oldValue w
      | Some (Some subscriber) =>
          match callf subscriber [newValue; oldValue]
                  (record (Notified c subscriber newValue oldValue) w) with
          | None => None
          | Some (Throw e, w') => Some (Throw e, w')
          | Some (Return _, w') => emit_from n' c (S i) newValue oldValue w'
          end
      end
  end.

Definition emit (c : nat) (newValue oldValue : value) (w : world) : result :=
  emit_from bound c 0 newValue oldValue w.

Definition trigger (c : nat) (w : world) : result :=
  if negb (queued (cell_of c w)) then Some (Return VUndef, w) else
  let w1 := upd c (with_queued false) w in
  if strict_eq (current (cell_of c w1)) (future (cell_of c w1))
  then Some (Return VUndef, w1) else
  let oldValue := current (cell_of c w1) in
  let newValue := future (cell_of c w1) in
  let w2 := upd c (with_current newValue) w1 in
  emit c newValue oldValue w2.

Definition get (c : nat) (w : world) : result :=
  Some (Return (current (cell_of c w)), w).

Definition set (c : nat) (newValue immediate : value) (w : world) : result :=
  match readValue newValue (current (cell_of c w)) w with
  | None => None
  | Some (v, w1) =>
      let w2 := upd c (with_future v) w1 in
      if truthy immediate then
        let w3 := dequeue (debounceId (cell_of c w2)) w2 in
        let w4 := upd c (with_queued true) w3 in
        trigger c w4
      else if negb (queued (cell_of c w2)) then
        let w3 := upd c (with_queued true) w2 in
        let (h, w4) := enqueue c w3 in
        Some (Return VUndef, upd c (with_debounceId h) w4)
      else Some (Return VUndef, w2)
  end.

Definition clear (c : nat) (w : world) : result :=
  Some (Return VUndef,
        upd c (fun st => with_subscribers (set_clear (subscribers st)) st) w).

Definition unsubscribe (c : nat) (subscriber : value) (w : world) : result :=
  Some (Return VUndef,
        upd c (fun st => with_subscribers (set_delete subscriber (subscribers st)) st) w).

Definition subscribe (c : nat) (subscriber : value) (w : world) : result :=
  let w1 := upd c (fun st => with_subscribers (set_add subscriber (subscribers st)) st)
                (record (Subscribed c subscriber) w) in
  let (k, w2) := fresh_ref w1 in
  Some (Return (VUnsub k c subscriber), w2).

Definition call_method (m : method) (c : nat) (args : list value) (w : world)
  : result :=
  match m with
  | MGet => get c w
  | MSet => set c (arg 0 args) (arg 1 args) w
  | MClear => clear c w
  | MSubscribe => subscribe c (arg 0 args) w
  | MUnsubscribe => unsubscribe c (arg 0 args) w
  end.

Fixpoint run (p : prog) (w : world) : result :=
  match p with
  | Done o => Some (o, w)
  | Call f args k =>
      match callf f args w with
      | None => None
      | Some (o, w') => run (k o) w'
      end
  end.

(** Calling a value.  A closure of an observable always refers to an
    allocated cell; the model answers a dangling address with a throw. *)
Definition invoke (f : value) (args : list value) (w : world) : result :=
  match f with
  | VFun id => run (body id args) w
  | VMethod m c =>
      if decide (c < length (cells w)) then call_method m c args w
      else Some (Throw dangling, w)
  | VUnsub _ c s =>
      if decide (c < length (cells w)) then unsubscribe c s w
      else Some (Throw dangling, w)
  | _ => Some (Throw type_error, w)
  end.

End Calls.

(** Calls nested at most [fuel] deep, loops of at most [fuel] rounds. *)
Fixpoint call (fuel : nat) (f : value) (args : list value) (w : world) : result :=
  match fuel with
  | O => None
  | S n => invoke (call n) n f args w
  end.

(** The host runs the callback scheduled under handle [h]. *)
Definition fire (fuel : nat) (h : nat) (w : world) : result :=
  match find (fun t => Nat.eqb (fst t) h) (timers w) with
  | None => Some (Return VUndef, w)
  | Some t => trigger (call fuel) fuel (snd t) (dequeue h w)
  end.

Definition observable_fields (c : nat) : props :=
  [("get", VMethod MGet c); ("set", VMethod MSet c); ("clear", VMethod MClear c);
   ("subscribe", VMethod MSubscribe c); ("unsubscribe", VMethod MUnsubscribe c)].

Definition createObservable (fuel : nat) (initialValue : value) (w : world)
  : result :=
  match readValue (call fuel) initialValue VUndef w with
  | None => None
  | Some (v, w1) =>
      let c := length (cells w1) in
      let w2 := with_cells (cells w1 ++ [Cell v v false 0 []]) w1 in
      let (r, w3) := fresh_ref w2 in
      Some (Return (VObj r (observable_fields c)), w3)
  end.

Definition createStore (fuel : nat) (store actions : value) (w : world) : result :=
  match createObservable fuel store w with
  | None => None
  | Some (Throw e, w1) => Some (Throw e, w1)
  | Some (Return state, w1) =>
      match call fuel actions [state] w1 with
      | None => None
      | Some (Throw e, w2) => Some (Throw e, w2)
      | Some (Return a, w2) =>
          let (r, w3) := fresh_ref w2 in
          Some (Return (VObj r (spread (own_fields state) (own_fields a))), w3)
      end
  end.

End Library.


(** ** The caller and the host *)

(** The caller's [set(a1); set(a2); ...; set(ak)], none of them immediate. *)
Fixpoint set_each (body : nat -> list value -> prog) (fuel : nat) (c : nat)
  (writes : list value) (w : world) : result :=
  match writes with
  | [] => Some (Return VUndef, w)
  | a :: rest =>
      match call body fuel (VMethod MSet c) [a] w with
      | Some (Return _, w1) => set_each body fuel c rest w1
      | r => r
      end
  end.

(** What the caller and the host do, one task after the other: a call of
    some callable value, or the host running a scheduled callback.  An
    exception that leaves a task ends that task only. *)
Inductive task :=
| Invoke (f : value) (args : list value)
| Tick (h : nat).

Definition perform (body : nat -> list value -> prog) (fuel : nat) (t : task)
  (w : world) : result :=
  match t with
  | Invoke f args => call body fuel f args w
  | Tick h => fire body fuel h w
  end.

Fixpoint perform_all (body : nat -> list value -> prog) (fuel : nat)
  (ts : list task) (w : world) : option world :=
  match ts with
  | [] => Some w
  | t :: ts' =>
      match perform body fuel t w with
      | Some (_, w') => perform_all body fuel ts' w'
      | None => None
      end
  end.

(** ** The vocabulary of the statements *)

(** The invariant of a cell: outside an open batch nothing is pending,
    [current] and [future] are the same value ([===], or both [NaN]). *)
Definition cell_ok (st : cell) : Prop :=
  queued st = false -> same_value_zero (current st) (future st) = true.

Definition cells_ok (l : list cell) : Prop :=
  forall d st, l !! d = Some st -> cell_ok st.

Definition inv (w : world) : Prop := cells_ok (cells w).

(** Every cell but the one at [c], which an operation is working on. *)
Definition ok_except (c : nat) (l : list cell) : Prop :=
  forall d st, d ≠ c -> l !! d = Some st -> cell_ok st.

(** The scheduler's bookkeeping for one cell: handles are never reused, and
    cell [c] has a callback pending exactly while its batch is open, the one
    whose handle [debounceId] holds. *)
Definition sched_ok (c : nat) (w : world) : Prop :=
  NoDup (map fst (timers w)) /\
  (forall t, In t (timers w) -> fst t < next_handle w) /\
  pending c w = if queued (cell_of c w) then [debounceId (cell_of c w)] else [].

(** The scheduler's bookkeeping for the whole heap.  Handles are positive,
    below [next_handle] and never reused; a pending callback belongs to an
    allocated cell that is queued and holds its handle in [debounceId]; a
    queued cell has its callback pending; and two cells hold the same
    [debounceId] only as long as neither has ever scheduled anything. *)
Definition wf (w : world) : Prop :=
  NoDup (map fst (timers w)) /\
  0 < next_handle w /\
  (forall h d, In (h, d) (timers w) ->
     0 < h /\ h < next_handle w /\ d < length (cells w) /\
     queued (cell_of d w) = true /\ debounceId (cell_of d w) = h) /\
  (forall d, d < length (cells w) ->
     (queued (cell_of d w) = true -> In (debounceId (cell_of d w), d) (timers w)) /\
     debounceId (cell_of d w) < next_handle w) /\
  (forall c d, c < length (cells w) -> d < length (cells w) -> c ≠ d ->
     debounceId (cell_of c w) = debounceId (cell_of d w) ->
     debounceId (cell_of c w) = 0).

(** The entry list is that of a [Set]: no two entries hold the same value. *)
Definition set_like (l : list (option value)) : Prop :=
  forall i j s t,
    l !! i = Some (Some s) -> l !! j = Some (Some t) ->
    same_value_zero s t = true -> i = j.

Definition sets_ok (w : world) : Prop :=
  forall c, set_like (subscribers (cell_of c w)).

(** The bookkeeping is in order and the heap has [N] cells. *)
Definition settled (N : nat) (w : world) : Prop :=
  wf w /\ length (cells w) = N.

(** The worlds the library can be in: what the host starts with, and what
    [createObservable], [createStore], a call of any callable value and a
    scheduled callback leave behind, however they end. *)
Inductive reachable (body : nat -> list value -> prog) : world -> Prop :=
| reachable_host0 : reachable body host0
| reachable_createObservable fuel initialValue w o w' :
    reachable body w ->
    createObservable body fuel initialValue w = Some (o, w') ->
    reachable body w'
| reachable_createStore fuel store actions w o w' :
    reachable body w ->
    createStore body fuel store actions w = Some (o, w') ->
    reachable body w'
| reachable_call fuel f args w o w' :
    reachable body w ->
    call body fuel f args w = Some (o, w') ->
    reachable body w'
| reachable_fire fuel h w o w' :
    reachable body w ->
    fire body fuel h w = Some (o, w') ->
    reachable body w'.

(** The notifications of one complete pass over the subscribers [ss]. *)
Definition pass (c : nat) (newValue oldValue : value) (ss : list value)
  : list event :=
  map (fun s => Notified c s newValue oldValue) ss.

Definition add_trace (ns : list event) (w : world) : world :=
  fold_left (fun w n => record n w) ns w.

Definition logged (lg : option log_entry) (w : world) : world :=
  match lg with
  | Some e => console_error e w
  | None => w
  end.

(** The world after the commit procedure has run on an open batch of [c],
    when the subscribers do not call back. *)
Definition committed (c : nat) (w : world) : world :=
  let st := cell_of c w in
  let w1 := upd c (with_queued false) w in
  if strict_eq (current st) (future st) then w1
  else add_trace (pass c (future st) (current st) (live (subscribers st)))
                 (upd c (with_current (future st)) w1).

(** The world after a non-immediate write of [v]. *)
Definition written (c : nat) (v : value) (w : world) : world :=
  let w2 := upd c (with_future v) w in
  if queued (cell_of c w) then w2
  else upd c (with_debounceId (next_handle w))
           (snd (enqueue c (upd c (with_queued true) w2))).

(** The world just before the commit procedure of an immediate write of [v]. *)
Definition forced (c : nat) (v : value) (w : world) : world :=
  upd c (with_queued true)
      (dequeue (debounceId (cell_of c w)) (upd c (with_future v) w)).

(** The world after the commit procedure has run on an open batch of [c]
    and the pass over the subscribers went as far as [ss]. *)
Definition interrupted (c : nat) (ss : list value) (w : world) : world :=
  let st := cell_of c w in
  add_trace (pass c (future st) (current st) ss)
            (upd c (with_current (future st)) (upd c (with_queued false) w)).

Section Behaviour.

(** User functions that do not call back into the library. *)
Variable body : nat -> list value -> prog.

(** [f(args)] ends with outcome [o] and leaves the world as it found it. *)
Definition finishes (f : value) (args : list value) (o : outcome) : Prop :=
  forall n w, call body (S n) f args w = Some (o, w).

(** What [readValue(a, cur)] yields for an argument that is a plain value
    or a function that finishes: the value, and what it logs. *)
Inductive resolves (a cur : value) : value -> option log_entry -> Prop :=
| resolves_value :
    is_function a = false -> resolves a cur a None
| resolves_return v :
    is_function a = true -> finishes a [cur] (Return v) ->
    resolves a cur v None
| resolves_throw e :
    is_function a = true -> finishes a [cur] (Throw e) ->
    resolves a cur cur (Some (LogEntry a cur e)).

(** Every subscriber of [c] returns when called with these two values. *)
Definition quiet (c : nat) (newValue oldValue : value) (w : world) : Prop :=
  forall s, In s (live (subscribers (cell_of c w))) ->
            exists r, finishes s [newValue; oldValue] (Return r).

End Behaviour.

Section Reentrant.

(** User functions that call back into the subscriber set. *)
Variable body : nat -> list value -> prog.

(** [s(args)] does [unsubscribe(t)] on the observable at [c] and returns. *)
Definition unsubscribes (c : nat) (s t : value) (args : list value) : Prop :=
  forall n w, c < length (cells w) ->
    call body (S (S n)) s args w =
    Some (Return VUndef,
          upd c (fun st => with_subscribers (set_delete t (subscribers st)) st) w).

(** [s(args)] does [subscribe(u)] on the observable at [c], drops the
    closure it gets, and returns. *)
Definition subscribes (c : nat) (s u : value) (args : list value) : Prop :=
  forall n w, c < length (cells w) ->
    call body (S (S n)) s args w =
    Some (Return VUndef,
          snd (fresh_ref
                 (upd c (fun st => with_subscribers (set_add u (subscribers st)) st)
                      (record (Subscribed c u) w)))).

(** [s(args)] does [set(y)], not immediate, on the observable at [c] and
    returns. *)
Definition writes (c : nat) (s y : value) (args : list value) : Prop :=
  forall n w, c < length (cells w) ->
    call body (S (S n)) s args w = Some (Return VUndef, written c y w).

End Reentrant.

(** [fn] is not an entry of the set. *)
Definition absent (fn : value) (l : list (option value)) : Prop :=
  existsb (is_entry fn) l = false.

(** The event is [emit] of cell [c] invoking [fn]. *)
Definition notifies (fn : value) (c : nat) (e : event) : bool :=
  match e with
  | Notified c' s _ _ => Nat.eqb c' c && same_value_zero s fn
  | Subscribed _ _ => false
  end.

(** The event is [fn] being added to the subscribers of cell [c]. *)
Definition resubscribes (fn : value) (c : nat) (e : event) : bool :=
  match e with
  | Subscribed c' s => Nat.eqb c' c && same_value_zero s fn
  | Notified _ _ _ _ => false
  end.

(** Since the trace was [base]: as long as [fn] has not been subscribed to
    [c] again, it is not in the set and [c] has not notified it. *)
Definition stays_removed (fn : value) (c : nat) (base : list event) (w : world)
  : Prop :=
  exists new,
    trace w = base ++ new /\
    (existsb (resubscribes fn c) new = false ->
     absent fn (subscribers (cell_of c w)) /\
     existsb (notifies fn c) new = false).

(** The functions in the sets were subscribed, and every notification in
    the trace comes after a subscription of the notified function. *)
Definition subscribed_first (w : world) : Prop :=
  (forall c s, In (Some s) (subscribers (cell_of c w)) ->
               In (Subscribed c s) (trace w)) /\
  (forall t1 t2 c s nv ov, trace w = t1 ++ Notified c s nv ov :: t2 ->
                           In (Subscribed c s) t1).

(** The property names of an object are distinct. *)
Definition distinct_keys (o : props) : Prop := NoDup (map fst o).

(** ** A small environment of user functions, for the examples *)

Module Demo.

(** The reducer [s => ({...s, count: s.count + 1})] on an object whose
    [count] is an integer (on anything else the model has it throw): the
    result is a new object, so it gets a reference of its own. *)
Definition bump (s : value) : outcome :=
  match s with
  | VObj r fs =>
      match lookup_field "count" fs with
      | Some (VNum n) => Return (VObj (S r) (assign fs "count" (VNum (n + 1))))
      | _ => Throw type_error
      end
  | _ => Throw type_error
  end.

(** Function 0 returns at once; 1 throws; 2 is [prev => prev + 1] on
    numbers (on anything else the model has it throw); 3 is
    the reducer above; 4 is the actions factory
    [obs => ({inc: () => obs.set(reducer)})]; 5 is a factory whose
    result has a member called [get]; [10 + c] is the action [inc] closed
    over the observable at [c]. *)
Definition body (f : nat) (args : list value) : prog :=
  match f with
  | 0 => Done (Return VUndef)
  | 1 => Done (Throw (VStr "boom"))
  | 2 => match arg 0 args with
         | VNum n => Done (Return (VNum (n + 1)))
         | VNaN => Done (Return VNaN)
         | _ => Done (Throw type_error)
         end
  | 3 => Done (bump (arg 0 args))
  | 4 => match lookup_field "set" (own_fields (arg 0 args)) with
         | Some (VMethod MSet c) =>
             Done (Return (VObj 100 [("inc", VFun (10 + c))]))
         | _ => Done (Throw type_error)
         end
  | 5 => Done (Return (VObj 101 [("get", VFun 0)]))
  | S (S (S (S (S (S (S (S (S (S c))))))))) =>
      Call (VMethod MSet c) [VFun 3] (fun o => Done o)
  | _ => Done (Return VUndef)
  end.

(** One observable holding 5, with the subscribers [subs]. *)
Definition one_cell (subs : list (option value)) : world :=
  World [Cell (VNum 5) (VNum 5) false 0 subs] [] 1 0 [] [].

(** An observable holding 5 with a write of 6 pending under handle 1, and
    the subscribers [subs]. *)
Definition open_batch (subs : list (option value)) : world :=
  World [Cell (VNum 5) (VNum 6) true 1 subs] [(1, 0)] 2 0 [] [].

End Demo.

(** ** A session, for the examples about the worlds the library reaches *)

Module Session.

(** [const o = createObservable(0)] on a fresh host, and then
    [o.subscribe(f0); o.subscribe(f0); o.set(1, true); o.set(2)]. *)
Definition script : list task :=
  [Invoke (VMethod MSubscribe 0) [VFun 0];
   Invoke (VMethod MSubscribe 0) [VFun 0];
   Invoke (VMethod MSet 0) [VNum 1; VBool true];
   Invoke (VMethod MSet 0) [VNum 2]].

Definition created : world :=
  World [Cell (VNum 0) (VNum 0) false 0 []] [] 1 1 [] [].

Definition final : world :=
  World [Cell (VNum 1) (VNum 2) true 1 [Some (VFun 0)]] [(1, 0)] 2 3 []
        [Subscribed 0 (VFun 0); Subscribed 0 (VFun 0);
         Notified 0 (VFun 0) (VNum 1) (VNum 0)].

End Session.

(** ** User functions that change the subscriber set, for the examples *)

Module Hooks.

(** For the observable at address 0.  Function 1 is
    [() => { unsubscribe(f2) }], function 3 is [() => { subscribe(f4) }],
    function 5 is [() => { unsubscribe(f5) }], which removes itself,
    function 7 is [() => { set(8) }]; every other function returns at
    once. *)
Definition body (f : nat) (args : list value) : prog :=
  match f with
  | 1 => Call (VMethod MUnsubscribe 0) [VFun 2] (fun _ => Done (Return VUndef))
  | 3 => Call (VMethod MSubscribe 0) [VFun 4] (fun _ => Done (Return VUndef))
  | 5 => Call (VMethod MUnsubscribe 0) [VFun 5] (fun _ => Done (Return VUndef))
  | 7 => Call (VMethod MSet 0) [VNum 8] (fun _ => Done (Return VUndef))
  | _ => Done (Return VUndef)
  end.

End Hooks.

(** ** Basic facts about values and the heap *)

Lemma method_eqb_refl (m : method) : method_eqb m m = true.
Proof. destruct m; reflexivity. Qed.

(** [===] is reflexive on every value but [NaN]. *)
Lemma strict_eq_refl (v : value) : v <> VNaN -> strict_eq v v = true.
Proof.
  intros Hv. destruct v; simpl; try (destruct (Hv eq_refl));
    auto using Bool.eqb_reflx, Z.eqb_refl, String.eqb_refl, Nat.eqb_refl.
  rewrite method_eqb_refl, Nat.eqb_refl; reflexivity.
Qed.

Lemma same_value_zero_refl (v : value) : same_value_zero v v = true.
Proof.
  destruct v; simpl;
    auto using Bool.eqb_reflx, Z.eqb_refl, String.eqb_refl, Nat.eqb_refl.
  rewrite method_eqb_refl, Nat.eqb_refl; reflexivity.
Qed.

Lemma strict_eq_same_value_zero (a b : value) :
  strict_eq a b = true -> same_value_zero a b = true.
Proof. destruct a, b; simpl; auto. Qed.

Lemma same_value_zero_strict_eq (a b : value) :
  same_value_zero a b = false -> strict_eq a b = false.
Proof.
  intros H. destruct (strict_eq a b) eqn:E; [|reflexivity].
  rewrite (strict_eq_same_value_zero a b E) in H. discriminate.
Qed.

Lemma cells_upd (c : nat) (f : cell -> cell) (w : world) :
  cells (upd c f w) = alter f c (cells w).
Proof. reflexivity. Qed.

Lemma lookup_upd_eq (c : nat) (f : cell -> cell) (w : world) :
  cells (upd c f w) !! c = f <$> cells w !! c.
Proof. apply list_lookup_alter_eq. Qed.

Lemma lookup_upd_ne (c d : nat) (f : cell -> cell) (w : world) :
  c ≠ d -> cells (upd c f w) !! d = cells w !! d.
Proof. intros; apply list_lookup_alter_ne; assumption. Qed.

Lemma cell_of_lookup (c : nat) (w : world) (st : cell) :
  cells w !! c = Some st -> cell_of c w = st.
Proof. unfold cell_of; intros ->; reflexivity. Qed.

Lemma cell_of_upd (c : nat) (f : cell -> cell) (w : world) :
  c < length (cells w) -> cell_of c (upd c f w) = f (cell_of c w).
Proof.
  intros Hc. destruct (lookup_lt_is_Some_2 _ _ Hc) as [st Hst].
  unfold cell_of. rewrite lookup_upd_eq, Hst. reflexivity.
Qed.

Lemma cell_of_upd_ne (c d : nat) (f : cell -> cell) (w : world) :
  c ≠ d -> cell_of d (upd c f w) = cell_of d w.
Proof. intros; unfold cell_of; rewrite lookup_upd_ne by assumption; reflexivity. Qed.

Lemma length_cells_upd (c : nat) (f : cell -> cell) (w : world) :
  length (cells (upd c f w)) = length (cells w).
Proof. apply length_alter. Qed.

(** ** The invariant is kept by every call *)


Lemma cells_ok_except (c : nat) (l : list cell) :
  cells_ok l -> ok_except c l.
Proof. intros H d st _; apply H. Qed.

Lemma ok_except_alter (c : nat) (f : cell -> cell) (l : list cell) :
  ok_except c l -> ok_except c (alter f c l).
Proof.
  intros H d st Hd. rewrite list_lookup_alter_ne by congruence. apply H, Hd.
Qed.

Lemma cells_ok_intro (c : nat) (l : list cell) :
  ok_except c l -> (forall st, l !! c = Some st -> cell_ok st) -> cells_ok l.
Proof.
  intros He Hc d st Hd. destruct (decide (d = c)) as [->|Hne]; eauto.
Qed.

Section Invariant.

Variable body : nat -> list value -> prog.

Section Calls.

Variable callf : value -> list value -> world -> result.
Variable bound : nat.
Hypothesis callf_inv : forall f args w o w',
  inv w -> callf f args w = Some (o, w') -> inv w'.

Lemma readValue_inv getter state w v w' :
  inv w -> readValue callf getter state w = Some (v, w') -> inv w'.
Proof.
  unfold readValue. intros Hw.
  destruct (is_function getter); [|intros [= _ <-]; exact Hw].
  destruct (callf getter [state] w) as [[[r|e] w1]|] eqn:E; intros [= _ <-].
  - eapply callf_inv; eauto.
  - exact (callf_inv _ _ _ _ _ Hw E).
Qed.

Lemma emit_from_inv n c i nv ov w o w' :
  inv w -> emit_from callf n c i nv ov w = Some (o, w') -> inv w'.
Proof.
  revert i w. induction n as [|n IH]; intros i w Hw; simpl; [discriminate|].
  destruct (subscribers (cell_of c w) !! i) as [[s|]|].
  - destruct (callf s [nv; ov] (record (Notified c s nv ov) w))
      as [[[r|e] w1]|] eqn:E; [| |discriminate].
    + apply IH. exact (callf_inv _ _ _ _ _ (Hw : inv (record _ w)) E).
    + intros [= _ <-]. exact (callf_inv _ _ _ _ _ (Hw : inv (record _ w)) E).
  - apply IH, Hw.
  - intros [= _ <-]; exact Hw.
Qed.

Lemma trigger_inv c w o w' :
  inv w -> trigger callf bound c w = Some (o, w') -> inv w'.
Proof.
  unfold trigger. intros Hw.
  destruct (negb (queued (cell_of c w))); [intros [= _ <-]; exact Hw|].
  set (w1 := upd c (with_queued false) w).
  assert (He : ok_except c (cells w1))
    by (apply ok_except_alter, cells_ok_except, Hw).
  destruct (strict_eq (current (cell_of c w1)) (future (cell_of c w1))) eqn:E.
  - intros [= _ <-]. apply (cells_ok_intro c); [exact He|].
    intros st Hst _. rewrite (cell_of_lookup _ _ _ Hst) in E.
    apply strict_eq_same_value_zero, E.
  - apply emit_from_inv. apply (cells_ok_intro c).
    + apply ok_except_alter, He.
    + intros st Hst _. rewrite lookup_upd_eq in Hst.
      destruct (cells w1 !! c) as [st1|] eqn:E1; [|discriminate].
      injection Hst as <-. rewrite (cell_of_lookup _ _ _ E1). simpl.
      apply same_value_zero_refl.
Qed.

Lemma set_inv c newValue immediate w o w' :
  inv w -> set callf bound c newValue immediate w = Some (o, w') -> inv w'.
Proof.
  unfold set. intros Hw.
  destruct (readValue callf newValue (current (cell_of c w)) w)
    as [[v w1]|] eqn:E; [|discriminate].
  assert (Hw1 : inv w1) by (eapply readValue_inv; eauto).
  assert (He : ok_except c (cells (upd c (with_future v) w1)))
    by (apply ok_except_alter, cells_ok_except, Hw1).
  assert (Hq : forall w2, ok_except c (cells w2) ->
             cells_ok (cells (upd c (with_queued true) w2))).
  { intros w2 H2. apply (cells_ok_intro c); [apply ok_except_alter, H2|].
    intros st Hst. rewrite lookup_upd_eq in Hst.
    destruct (cells w2 !! c); [|discriminate].
    injection Hst as <-. intros Hq; discriminate. }
  destruct (truthy immediate).
  - apply trigger_inv. apply Hq. exact He.
  - destruct (negb (queued (cell_of c (upd c (with_future v) w1)))) eqn:Q.
    + simpl. intros [= _ <-]. apply (cells_ok_intro c).
      * apply ok_except_alter. simpl. apply ok_except_alter, He.
      * intros st Hst. rewrite lookup_upd_eq in Hst. simpl in Hst.
        rewrite list_lookup_alter_eq in Hst.
        destruct (alter (with_future v) c (cells w1) !! c); [|discriminate].
        injection Hst as <-. intros Hq'; discriminate.
    + intros [= _ <-]. apply (cells_ok_intro c); [exact He|].
      intros st Hst Hq'. apply negb_false_iff in Q.
      rewrite (cell_of_lookup _ _ _ Hst) in Q. congruence.
Qed.

Lemma cells_ok_alter_subscribers c g l :
  cells_ok l -> cells_ok (alter (fun st => with_subscribers (g st) st) c l).
Proof.
  intros Hl d st Hst. destruct (decide (c = d)) as [<-|Hne].
  - rewrite list_lookup_alter_eq in Hst.
    destruct (l !! c) as [st0|] eqn:E; [|discriminate].
    injection Hst as <-. exact (Hl _ _ E).
  - rewrite list_lookup_alter_ne in Hst by assumption. exact (Hl _ _ Hst).
Qed.

Lemma call_method_inv m c args w o w' :
  inv w -> call_method callf bound m c args w = Some (o, w') -> inv w'.
Proof.
  intros Hw. destruct m; simpl.
  - intros [= _ <-]; exact Hw.
  - apply set_inv, Hw.
  - intros [= _ <-]. apply (cells_ok_alter_subscribers c (fun st => _)), Hw.
  - intros [= _ <-]. apply (cells_ok_alter_subscribers c (fun st => _)), Hw.
  - intros [= _ <-]. apply (cells_ok_alter_subscribers c (fun st => _)), Hw.
Qed.

Lemma run_inv p w o w' :
  inv w -> run callf p w = Some (o, w') -> inv w'.
Proof.
  revert w. induction p as [r|f args k IH]; intros w Hw; simpl.
  - intros [= _ <-]; exact Hw.
  - destruct (callf f args w) as [[r w1]|] eqn:E; [|discriminate].
    apply IH. exact (callf_inv _ _ _ _ _ Hw E).
Qed.

Lemma invoke_inv f args w o w' :
  inv w -> invoke body callf bound f args w = Some (o, w') -> inv w'.
Proof.
  intros Hw. destruct f; simpl; try (intros [= _ <-]; exact Hw).
  - apply run_inv, Hw.
  - destruct (decide (c < length (cells w))); [apply call_method_inv, Hw|].
    intros [= _ <-]; exact Hw.
  - destruct (decide (c < length (cells w))); intros [= _ <-];
      [apply (cells_ok_alter_subscribers c (fun st => _)), Hw | exact Hw].
Qed.

End Calls.

Lemma call_inv fuel f args w o w' :
  inv w -> call body fuel f args w = Some (o, w') -> inv w'.
Proof.
  revert f args w o w'. induction fuel as [|n IH]; intros f args w o w' Hw;
    simpl; [discriminate|].
  apply invoke_inv; assumption.
Qed.

Lemma fire_inv fuel h w o w' :
  inv w -> fire body fuel h w = Some (o, w') -> inv w'.
Proof.
  unfold fire. intros Hw.
  destruct (find (fun t => Nat.eqb (fst t) h) (timers w)) as [t|].
  - apply trigger_inv; [apply call_inv | exact Hw].
  - intros [= _ <-]; exact Hw.
Qed.

Lemma createObservable_inv fuel initialValue w o w' :
  inv w -> createObservable body fuel initialValue w = Some (o, w') -> inv w'.
Proof.
  unfold createObservable. intros Hw.
  destruct (readValue (call body fuel) initialValue VUndef w) as [[v w1]|] eqn:E;
    [|discriminate].
  simpl. intros [= _ <-]. intros d st. simpl.
  assert (Hw1 : inv w1) by (eapply readValue_inv; eauto using call_inv).
  rewrite lookup_app_Some. intros [Hd|[_ Hd]]; [exact (Hw1 _ _ Hd)|].
  destruct (d - length (cells w1)); [|destruct n; discriminate].
  injection Hd as <-. intros _. apply same_value_zero_refl.
Qed.

End Invariant.

(** ** The scheduler's bookkeeping for one cell *)

Lemma pending_app (c : nat) (w : world) (h d : nat) :
  pending c (with_timers (timers w ++ [(h, d)]) w) =
  pending c w ++ (if decide (d = c) then [h] else []).
Proof.
  unfold pending; simpl. rewrite filter_app, map_app. f_equal.
  rewrite filter_cons, filter_nil. simpl.
  destruct (decide (d = c)); reflexivity.
Qed.

Lemma pending_dequeue (c h : nat) (w : world) :
  pending c (dequeue h w) = filter (fun k => k ≠ h) (pending c w).
Proof.
  unfold pending, dequeue; simpl.
  induction (timers w) as [|[k d] l IH]; [reflexivity|].
  rewrite !filter_cons; simpl.
  destruct (decide (k ≠ h)) as [Hk|Hk], (decide (d = c)) as [Hd|Hd]; simpl;
    rewrite ?filter_cons; simpl.
  - rewrite decide_True by assumption. rewrite decide_True by assumption.
    simpl. f_equal. exact IH.
  - rewrite decide_False by assumption. exact IH.
  - rewrite decide_False by assumption. exact IH.
  - exact IH.
Qed.

Lemma pending_In (c h : nat) (w : world) :
  In h (pending c w) <-> In (h, c) (timers w).
Proof.
  unfold pending. rewrite in_map_iff. split.
  - intros [[k d] [<- Hin]]. apply list_elem_of_In, list_elem_of_filter in Hin.
    destruct Hin as [Hd Hin]. simpl in *. subst d. apply list_elem_of_In, Hin.
  - intros Hin. exists (h, c). split; [reflexivity|].
    apply list_elem_of_In, list_elem_of_filter. split; [reflexivity|].
    apply list_elem_of_In, Hin.
Qed.

Lemma find_handle (l : list (nat * nat)) (h c : nat) :
  NoDup (map fst l) -> In (h, c) l ->
  find (fun t => Nat.eqb (fst t) h) l = Some (h, c).
Proof.
  induction l as [|[k d] l IH]; simpl; [tauto|].
  intros Hnd [Heq|Hin].
  - injection Heq as -> ->. rewrite Nat.eqb_refl. reflexivity.
  - apply NoDup_cons in Hnd as [Hk Hnd].
    destruct (Nat.eqb_spec k h) as [->|Hne]; [|auto].
    exfalso. apply Hk. apply list_elem_of_In.
    change h with (fst (h, c)). apply in_map, Hin.
Qed.

Lemma NoDup_fst_filter (P : nat * nat -> Prop) `{forall t, Decision (P t)}
  (l : list (nat * nat)) :
  NoDup (map fst l) -> NoDup (map fst (filter P l)).
Proof.
  induction l as [|t l IH]; simpl; [auto|].
  intros Hnd. apply NoDup_cons in Hnd as [Ht Hnd].
  rewrite filter_cons. destruct (decide (P t)); [|auto].
  simpl. apply NoDup_cons. split; [|auto].
  intros Hin. apply Ht. apply list_elem_of_In, in_map_iff in Hin.
  destruct Hin as [t' [Heq Hin]]. apply list_elem_of_In, list_elem_of_filter in Hin.
  apply list_elem_of_In, in_map_iff. exists t'. split; [exact Heq|].
  apply list_elem_of_In, Hin.
Qed.

(** ** User functions that do not call back into the library *)

Lemma live_cons_Some s l : live (Some s :: l) = s :: live l.
Proof. reflexivity. Qed.

Lemma live_cons_None l : live (None :: l) = live l.
Proof. reflexivity. Qed.

Lemma cells_add_trace ns w : cells (add_trace ns w) = cells w.
Proof. revert w; induction ns as [|n ns IH]; intros w; simpl; [|rewrite IH]; reflexivity. Qed.

Lemma timers_add_trace ns w : timers (add_trace ns w) = timers w.
Proof. revert w; induction ns as [|n ns IH]; intros w; simpl; [|rewrite IH]; reflexivity. Qed.

Lemma next_handle_add_trace ns w : next_handle (add_trace ns w) = next_handle w.
Proof. revert w; induction ns as [|n ns IH]; intros w; simpl; [|rewrite IH]; reflexivity. Qed.


Lemma trace_add_trace ns w : trace (add_trace ns w) = trace w ++ ns.
Proof.
  revert w; induction ns as [|n ns IH]; intros w; simpl.
  - symmetry; apply app_nil_r.
  - rewrite IH. simpl. rewrite <- app_assoc. reflexivity.
Qed.

Lemma cell_of_add_trace c ns w : cell_of c (add_trace ns w) = cell_of c w.
Proof. unfold cell_of. rewrite cells_add_trace. reflexivity. Qed.

Lemma pending_add_trace c ns w : pending c (add_trace ns w) = pending c w.
Proof. unfold pending. rewrite timers_add_trace. reflexivity. Qed.

Section Passive.

Variable body : nat -> list value -> prog.

Lemma call_S n f args w :
  call body (S n) f args w = invoke body (call body n) n f args w.
Proof. reflexivity. Qed.

Lemma cell_of_logged c lg w : cell_of c (logged lg w) = cell_of c w.
Proof. destruct lg; reflexivity. Qed.

Lemma readValue_resolves a cur v lg n w :
  resolves body a cur v lg ->
  readValue (call body (S n)) a cur w = Some (v, logged lg w).
Proof.
  unfold readValue. intros [Hf|r Hf Hr|e Hf He]; rewrite Hf; [reflexivity| |].
  - rewrite Hr. reflexivity.
  - rewrite He. reflexivity.
Qed.

Lemma emit_from_quiet m n c nv ov : forall i w,
  (forall s, In s (live (drop i (subscribers (cell_of c w)))) ->
             exists r, finishes body s [nv; ov] (Return r)) ->
  length (subscribers (cell_of c w)) - i < n ->
  emit_from (call body (S m)) n c i nv ov w =
  Some (Return VUndef,
        add_trace (pass c nv ov (live (drop i (subscribers (cell_of c w))))) w).
Proof.
  induction n as [|n IH]; intros i w Hq Hn; [lia|]. cbn [emit_from].
  destruct (subscribers (cell_of c w) !! i) as [e|] eqn:E.
  - pose proof (lookup_lt_Some _ _ _ E) as Hi.
    rewrite (drop_S _ _ _ E) in Hq |- *.
    destruct e as [s|].
    + rewrite live_cons_Some in Hq |- *.
      destruct (Hq s (or_introl eq_refl)) as [r Hr]. rewrite Hr.
      change (cell_of c w) with (cell_of c (record (Notified c s nv ov) w)).
      apply IH; [|change (cell_of c (record (Notified c s nv ov) w))
                     with (cell_of c w); lia].
      intros s' Hs'. apply Hq. right. exact Hs'.
    + rewrite live_cons_None in Hq |- *. apply IH; [exact Hq | lia].
  - apply lookup_ge_None in E. rewrite drop_ge by assumption. reflexivity.
Qed.

End Passive.

(** ** What a commit and a write do when user code does not call back *)

Section Effects.

Variable body : nat -> list value -> prog.

Lemma trigger_quiet m b c w :
  c < length (cells w) ->
  queued (cell_of c w) = true ->
  (strict_eq (current (cell_of c w)) (future (cell_of c w)) = false ->
   quiet body c (future (cell_of c w)) (current (cell_of c w)) w /\
   length (subscribers (cell_of c w)) < b) ->
  trigger (call body (S m)) b c w = Some (Return VUndef, committed c w).
Proof.
  intros Hc Hq Hs. unfold trigger, committed. rewrite Hq. simpl negb. cbv iota.
  rewrite !cell_of_upd by (rewrite ?length_cells_upd; assumption).
  simpl current; simpl future.
  destruct (strict_eq (current (cell_of c w)) (future (cell_of c w))) eqn:E;
    [reflexivity|].
  destruct (Hs eq_refl) as [Hquiet Hb].
  set (w2 := upd c _ (upd c _ w)).
  assert (Hsub : subscribers (cell_of c w2) = subscribers (cell_of c w)).
  { unfold w2. rewrite !cell_of_upd by (rewrite ?length_cells_upd; assumption).
    reflexivity. }
  unfold emit. rewrite (emit_from_quiet body m b c); rewrite Hsub, ?drop_0.
  - reflexivity.
  - exact Hquiet.
  - lia.
Qed.

(** A non-immediate [set] whose argument [readValue] resolves to [v],
    leaving the world [w1]. *)
Lemma set_later_read n c args a v w w1 :
  c < length (cells w) ->
  c < length (cells w1) ->
  arg 0 args = a ->
  truthy (arg 1 args) = false ->
  readValue (call body (S n)) a (current (cell_of c w)) w = Some (v, w1) ->
  call body (S (S n)) (VMethod MSet c) args w =
  Some (Return VUndef, written c v w1).
Proof.
  intros Hc Hc1 Ha Hi Hr. rewrite call_S. unfold invoke.
  rewrite decide_True by assumption. cbn [call_method]. unfold set.
  rewrite Ha, Hi, Hr.
  unfold written. rewrite cell_of_upd by assumption.
  simpl queued.
  destruct (queued (cell_of c w1)); reflexivity.
Qed.

(** An immediate [set] whose argument [readValue] resolves to [v], leaving
    the world [w1] with subscribers that return. *)
Lemma set_immediate_read n c args a v w w1 :
  c < length (cells w) ->
  c < length (cells w1) ->
  arg 0 args = a ->
  truthy (arg 1 args) = true ->
  readValue (call body (S n)) a (current (cell_of c w)) w = Some (v, w1) ->
  (strict_eq (current (cell_of c w1)) v = false ->
   quiet body c v (current (cell_of c w1)) w1 /\
   length (subscribers (cell_of c w1)) <= n) ->
  call body (S (S n)) (VMethod MSet c) args w =
  Some (Return VUndef, committed c (forced c v w1)).
Proof.
  intros Hc Hc1 Ha Hi Hr Hs. rewrite call_S. unfold invoke.
  rewrite decide_True by assumption. cbn [call_method]. unfold set.
  rewrite Ha, Hi, Hr.
  rewrite cell_of_upd by assumption. cbn [debounceId with_future].
  fold (forced c v w1).
  assert (Hst : cell_of c (forced c v w1) =
                with_queued true (with_future v (cell_of c w1))).
  { unfold forced. rewrite cell_of_upd.
    - f_equal. change (cell_of c (dequeue ?h ?x)) with (cell_of c x).
      rewrite cell_of_upd by assumption. reflexivity.
    - simpl. rewrite length_alter. assumption. }
  apply trigger_quiet.
  - unfold forced. rewrite length_cells_upd. simpl. rewrite length_alter.
    assumption.
  - rewrite Hst. reflexivity.
  - rewrite Hst. simpl. intros E. destruct (Hs E) as [Hquiet Hb].
    split; [|lia]. unfold quiet. rewrite Hst. simpl. exact Hquiet.
Qed.

Lemma set_later n c args a v lg w :
  c < length (cells w) ->
  arg 0 args = a ->
  truthy (arg 1 args) = false ->
  resolves body a (current (cell_of c w)) v lg ->
  call body (S (S n)) (VMethod MSet c) args w =
  Some (Return VUndef, written c v (logged lg w)).
Proof.
  intros Hc Ha Hi Hr. apply (set_later_read n c args a); try assumption.
  - destruct lg; assumption.
  - apply readValue_resolves, Hr.
Qed.

Lemma set_immediate n c args a v lg w :
  c < length (cells w) ->
  arg 0 args = a ->
  truthy (arg 1 args) = true ->
  resolves body a (current (cell_of c w)) v lg ->
  (strict_eq (current (cell_of c w)) v = false ->
   quiet body c v (current (cell_of c w)) w /\
   length (subscribers (cell_of c w)) <= n) ->
  call body (S (S n)) (VMethod MSet c) args w =
  Some (Return VUndef, committed c (forced c v (logged lg w))).
Proof.
  intros Hc Ha Hi Hr Hs. apply (set_immediate_read n c args a); try assumption.
  - destruct lg; assumption.
  - apply readValue_resolves, Hr.
  - rewrite cell_of_logged. intros E. destruct (Hs E) as [Hq Hn].
    split; [|exact Hn]. intros s. rewrite cell_of_logged. apply Hq.
Qed.

Lemma fire_pending n h c w :
  c < length (cells w) ->
  sched_ok c w ->
  queued (cell_of c w) = true ->
  h = debounceId (cell_of c w) ->
  (strict_eq (current (cell_of c w)) (future (cell_of c w)) = false ->
   quiet body c (future (cell_of c w)) (current (cell_of c w)) w /\
   length (subscribers (cell_of c w)) <= n) ->
  fire body (S n) h w = Some (Return VUndef, committed c (dequeue h w)).
Proof.
  intros Hc (Hnd & _ & Hp) Hq -> Hs. unfold fire.
  rewrite Hq in Hp.
  rewrite (find_handle _ (debounceId (cell_of c w)) c Hnd).
  - simpl snd. apply trigger_quiet; try assumption.
    change (cell_of c (dequeue ?h ?x)) with (cell_of c x).
    intros E. destruct (Hs E). split; [assumption|lia].
  - apply pending_In. rewrite Hp. left; reflexivity.
Qed.

End Effects.

(** *** The fields of the worlds above *)

Lemma cell_of_committed c w :
  c < length (cells w) ->
  cell_of c (committed c w) =
  with_queued false
    (if strict_eq (current (cell_of c w)) (future (cell_of c w))
     then cell_of c w else with_current (future (cell_of c w)) (cell_of c w)).
Proof.
  intros Hc. unfold committed.
  destruct (strict_eq (current (cell_of c w)) (future (cell_of c w))).
  - rewrite cell_of_upd by assumption. reflexivity.
  - rewrite cell_of_add_trace.
    rewrite !cell_of_upd by (rewrite ?length_cells_upd; assumption).
    reflexivity.
Qed.

Lemma trace_committed c w :
  trace (committed c w) =
  trace w ++
  (if strict_eq (current (cell_of c w)) (future (cell_of c w)) then []
   else pass c (future (cell_of c w)) (current (cell_of c w))
             (live (subscribers (cell_of c w)))).
Proof.
  unfold committed.
  destruct (strict_eq (current (cell_of c w)) (future (cell_of c w))).
  - simpl. symmetry; apply app_nil_r.
  - rewrite trace_add_trace. reflexivity.
Qed.

Lemma timers_committed c w : timers (committed c w) = timers w.
Proof.
  unfold committed.
  destruct (strict_eq (current (cell_of c w)) (future (cell_of c w)));
    rewrite ?timers_add_trace; reflexivity.
Qed.

Lemma next_handle_committed c w : next_handle (committed c w) = next_handle w.
Proof.
  unfold committed.
  destruct (strict_eq (current (cell_of c w)) (future (cell_of c w)));
    rewrite ?next_handle_add_trace; reflexivity.
Qed.


Lemma length_cells_committed c w :
  length (cells (committed c w)) = length (cells w).
Proof.
  unfold committed.
  destruct (strict_eq (current (cell_of c w)) (future (cell_of c w)));
    rewrite ?cells_add_trace, ?length_cells_upd; reflexivity.
Qed.

Lemma pending_committed c w : pending c (committed c w) = pending c w.
Proof. unfold pending. rewrite timers_committed. reflexivity. Qed.

Lemma cell_of_forced c v w :
  c < length (cells w) ->
  cell_of c (forced c v w) = with_queued true (with_future v (cell_of c w)).
Proof.
  intros Hc. unfold forced. rewrite cell_of_upd.
  - change (cell_of c (dequeue ?h ?x)) with (cell_of c x).
    rewrite cell_of_upd by assumption. reflexivity.
  - simpl. rewrite length_alter. assumption.
Qed.

Lemma length_cells_forced c v w :
  length (cells (forced c v w)) = length (cells w).
Proof. unfold forced. rewrite length_cells_upd. simpl. apply length_alter. Qed.

Lemma pending_forced c v w :
  pending c (forced c v w) =
  filter (fun k => k ≠ debounceId (cell_of c w)) (pending c w).
Proof. unfold forced. apply (pending_dequeue c _ (upd c (with_future v) w)). Qed.

Lemma cell_of_written c v w :
  c < length (cells w) ->
  cell_of c (written c v w) =
  if queued (cell_of c w) then with_future v (cell_of c w)
  else with_debounceId (next_handle w)
         (with_queued true (with_future v (cell_of c w))).
Proof.
  intros Hc. unfold written. destruct (queued (cell_of c w)).
  - rewrite cell_of_upd by assumption. reflexivity.
  - rewrite cell_of_upd by (simpl; rewrite !length_alter; assumption).
    f_equal. change (cell_of c (snd (enqueue c ?x))) with (cell_of c x).
    rewrite !cell_of_upd by (rewrite ?length_cells_upd; assumption).
    reflexivity.
Qed.

Lemma length_cells_written c v w :
  length (cells (written c v w)) = length (cells w).
Proof.
  unfold written. destruct (queued (cell_of c w)); simpl;
    rewrite ?length_alter; reflexivity.
Qed.

Lemma trace_written c v w : trace (written c v w) = trace w.
Proof. unfold written. destruct (queued (cell_of c w)); reflexivity. Qed.


Lemma sched_ok_written c v w :
  c < length (cells w) -> sched_ok c w -> sched_ok c (written c v w).
Proof.
  intros Hc (Hnd & Hlt & Hp). unfold sched_ok.
  rewrite cell_of_written by assumption. unfold written.
  destruct (queued (cell_of c w)) eqn:Q; simpl.
  - rewrite Q. auto.
  - split; [|split].
    + rewrite map_app. simpl. apply NoDup_app. split; [exact Hnd|].
      split; [|apply NoDup_singleton].
      intros h Hh Hh'. apply list_elem_of_In in Hh.
      apply in_map_iff in Hh as [t [<- Ht]]. specialize (Hlt _ Ht).
      apply list_elem_of_In in Hh'. destruct Hh' as [Hh'|[]]. lia.
    + intros t Ht. apply in_app_or in Ht as [Ht|[<-|[]]]; simpl;
        [specialize (Hlt _ Ht)|]; lia.
    + change (pending c (with_timers (timers w ++ [(next_handle w, c)]) w) =
              [next_handle w]).
      rewrite pending_app, Hp, decide_True by reflexivity. reflexivity.
Qed.

Lemma sched_ok_immediate c v w :
  c < length (cells w) -> sched_ok c w ->
  sched_ok c (committed c (forced c v w)) /\
  pending c (committed c (forced c v w)) = [].
Proof.
  intros Hc (Hnd & Hlt & Hp).
  assert (Hnil : pending c (committed c (forced c v w)) = []).
  { rewrite pending_committed, pending_forced, Hp.
    destruct (queued (cell_of c w)); [|reflexivity].
    rewrite filter_cons, decide_False by (intros H; apply H; reflexivity).
    reflexivity. }
  split; [|exact Hnil]. unfold sched_ok.
  rewrite timers_committed, next_handle_committed, Hnil.
  rewrite cell_of_committed by (rewrite length_cells_forced; assumption).
  simpl. split; [|split; [|reflexivity]].
  - apply NoDup_fst_filter, Hnd.
  - intros t Ht. apply list_elem_of_In, list_elem_of_filter in Ht as [_ Ht].
    apply Hlt, list_elem_of_In, Ht.
Qed.

Lemma sched_ok_fired c w :
  c < length (cells w) -> sched_ok c w -> queued (cell_of c w) = true ->
  sched_ok c (committed c (dequeue (debounceId (cell_of c w)) w)) /\
  pending c (committed c (dequeue (debounceId (cell_of c w)) w)) = [].
Proof.
  intros Hc (Hnd & Hlt & Hp) Hq. rewrite Hq in Hp.
  assert (Hnil : pending c (committed c (dequeue (debounceId (cell_of c w)) w)) = []).
  { rewrite pending_committed, pending_dequeue, Hp.
    rewrite filter_cons, decide_False by (intros H; apply H; reflexivity).
    reflexivity. }
  split; [|exact Hnil]. unfold sched_ok.
  rewrite timers_committed, next_handle_committed, Hnil.
  rewrite cell_of_committed by assumption.
  simpl. split; [|split; [|reflexivity]].
  - apply NoDup_fst_filter, Hnd.
  - intros t Ht. apply list_elem_of_In, list_elem_of_filter in Ht as [_ Ht].
    apply Hlt, list_elem_of_In, Ht.
Qed.

Lemma written_open c v w :
  c < length (cells w) -> sched_ok c w ->
  queued (cell_of c (written c v w)) = true /\
  current (cell_of c (written c v w)) = current (cell_of c w) /\
  future (cell_of c (written c v w)) = v /\
  subscribers (cell_of c (written c v w)) = subscribers (cell_of c w) /\
  pending c (written c v w) = [debounceId (cell_of c (written c v w))].
Proof.
  intros Hc Hs. pose proof (sched_ok_written c v w Hc Hs) as (_ & _ & Hp).
  rewrite cell_of_written in Hp |- * by assumption.
  destruct (queued (cell_of c w)) eqn:Q; simpl in *; rewrite ?Q in *; auto.
Qed.

Lemma sched_ok_logged c lg w : sched_ok c w -> sched_ok c (logged lg w).
Proof. destruct lg; intros H; exact H. Qed.

Lemma length_cells_logged lg w :
  length (cells (logged lg w)) = length (cells w).
Proof. destruct lg; reflexivity. Qed.

Lemma trace_logged lg w : trace (logged lg w) = trace w.
Proof. destruct lg; reflexivity. Qed.

Lemma pending_logged c lg w : pending c (logged lg w) = pending c w.
Proof. destruct lg; reflexivity. Qed.

(** ** Properties of the subscriber sets and the trace that every call keeps *)

Lemma subscribers_cell_of_upd (c d : nat) (f : cell -> cell) (w : world) :
  (forall st, subscribers (f st) = subscribers st) ->
  subscribers (cell_of d (upd c f w)) = subscribers (cell_of d w).
Proof.
  intros Hf. unfold cell_of. destruct (decide (c = d)) as [<-|Hne].
  - rewrite lookup_upd_eq. destruct (cells w !! c); simpl; auto.
  - rewrite lookup_upd_ne by assumption. reflexivity.
Qed.

Section Preserved.

Variable body : nat -> list value -> prog.

(** A property that looks only at the subscriber sets and at the trace,
    and survives every step that touches them. *)
Variable P : world -> Prop.
Hypothesis P_frame : forall w w',
  (forall d, subscribers (cell_of d w') = subscribers (cell_of d w)) ->
  trace w' = trace w -> P w -> P w'.
Hypothesis P_notified : forall c s nv ov w,
  strict_eq ov nv = false ->
  In (Some s) (subscribers (cell_of c w)) -> P w ->
  P (record (Notified c s nv ov) w).
Hypothesis P_add : forall c s w,
  c < length (cells w) -> P w ->
  P (upd c (fun st => with_subscribers (set_add s (subscribers st)) st)
         (record (Subscribed c s) w)).
Hypothesis P_delete : forall c s w,
  c < length (cells w) -> P w ->
  P (upd c (fun st => with_subscribers (set_delete s (subscribers st)) st) w).
Hypothesis P_clear : forall c w,
  c < length (cells w) -> P w ->
  P (upd c (fun st => with_subscribers (set_clear (subscribers st)) st) w).

Lemma P_upd c f w :
  (forall st, subscribers (f st) = subscribers st) -> P w -> P (upd c f w).
Proof.
  intros Hf. apply P_frame; [|reflexivity].
  intros d. apply subscribers_cell_of_upd, Hf.
Qed.

Section Calls.

Variable callf : value -> list value -> world -> result.
Variable bound : nat.
Hypothesis callf_P : forall f args w o w',
  P w -> callf f args w = Some (o, w') -> P w'.

Lemma readValue_P getter state w v w' :
  P w -> readValue callf getter state w = Some (v, w') -> P w'.
Proof.
  unfold readValue. intros Hw.
  destruct (is_function getter); [|intros [= _ <-]; exact Hw].
  destruct (callf getter [state] w) as [[[r|e] w1]|] eqn:E; intros [= _ <-].
  - eapply callf_P; eauto.
  - apply (P_frame w1); [reflexivity|reflexivity|]. eapply callf_P; eauto.
Qed.

Lemma emit_from_P n c i nv ov w o w' :
  strict_eq ov nv = false ->
  P w -> emit_from callf n c i nv ov w = Some (o, w') -> P w'.
Proof.
  intros Hne. revert i w. induction n as [|n IH]; intros i w Hw; simpl; [discriminate|].
  destruct (subscribers (cell_of c w) !! i) as [[s|]|] eqn:Hi.
  - assert (Hr : P (record (Notified c s nv ov) w)).
    { apply P_notified; [exact Hne| |exact Hw].
      apply list_elem_of_In, list_elem_of_lookup. exists i. exact Hi. }
    destruct (callf s [nv; ov] (record (Notified c s nv ov) w))
      as [[[r|e] w1]|] eqn:E; [| |discriminate].
    + apply IH. exact (callf_P _ _ _ _ _ Hr E).
    + intros [= _ <-]. exact (callf_P _ _ _ _ _ Hr E).
  - apply IH, Hw.
  - intros [= _ <-]; exact Hw.
Qed.

Lemma trigger_P c w o w' :
  P w -> trigger callf bound c w = Some (o, w') -> P w'.
Proof.
  unfold trigger. intros Hw.
  destruct (negb (queued (cell_of c w))); [intros [= _ <-]; exact Hw|].
  assert (H1 : P (upd c (with_queued false) w))
    by (apply P_upd; [reflexivity|exact Hw]).
  destruct (strict_eq _ _) eqn:Hne; [intros [= _ <-]; exact H1|].
  apply emit_from_P; [exact Hne|]. apply P_upd; [reflexivity|exact H1].
Qed.

Lemma set_P c newValue immediate w o w' :
  P w -> set callf bound c newValue immediate w = Some (o, w') -> P w'.
Proof.
  unfold set. intros Hw.
  destruct (readValue callf newValue (current (cell_of c w)) w)
    as [[v w1]|] eqn:E; [|discriminate].
  assert (H1 : P w1) by (eapply readValue_P; eauto).
  assert (H2 : P (upd c (with_future v) w1))
    by (apply P_upd; [reflexivity|exact H1]).
  destruct (truthy immediate).
  - apply trigger_P. apply P_upd; [reflexivity|].
    apply (P_frame (upd c (with_future v) w1)); [reflexivity|reflexivity|exact H2].
  - destruct (negb (queued (cell_of c (upd c (with_future v) w1)))).
    + simpl. intros [= _ <-].
      apply (P_upd c (with_debounceId _)); [reflexivity|].
      apply (P_frame (upd c (with_queued true) (upd c (with_future v) w1)));
        [reflexivity|reflexivity|].
      apply P_upd; [reflexivity|exact H2].
    + intros [= _ <-]. exact H2.
Qed.

Lemma call_method_P m c args w o w' :
  c < length (cells w) ->
  P w -> call_method callf bound m c args w = Some (o, w') -> P w'.
Proof.
  intros Hc Hw. destruct m; simpl.
  - intros [= _ <-]; exact Hw.
  - apply set_P, Hw.
  - intros [= _ <-]. apply P_clear; assumption.
  - intros [= _ <-].
    apply (P_frame (upd c (fun st => with_subscribers
                              (set_add (arg 0 args) (subscribers st)) st)
                        (record (Subscribed c (arg 0 args)) w)));
      [reflexivity|reflexivity|].
    apply P_add; assumption.
  - intros [= _ <-]. apply P_delete; assumption.
Qed.

Lemma run_P p w o w' :
  P w -> run callf p w = Some (o, w') -> P w'.
Proof.
  revert w. induction p as [r|f args k IH]; intros w Hw; simpl.
  - intros [= _ <-]; exact Hw.
  - destruct (callf f args w) as [[r w1]|] eqn:E; [|discriminate].
    apply IH. exact (callf_P _ _ _ _ _ Hw E).
Qed.

Lemma invoke_P f args w o w' :
  P w -> invoke body callf bound f args w = Some (o, w') -> P w'.
Proof.
  intros Hw. destruct f; simpl; try (intros [= _ <-]; exact Hw).
  - apply run_P, Hw.
  - destruct (decide (c < length (cells w))); [apply call_method_P; assumption|].
    intros [= _ <-]; exact Hw.
  - destruct (decide (c < length (cells w))); intros [= _ <-];
      [apply P_delete; assumption | exact Hw].
Qed.

End Calls.

Lemma call_P fuel f args w o w' :
  P w -> call body fuel f args w = Some (o, w') -> P w'.
Proof.
  revert f args w o w'. induction fuel as [|n IH]; intros f args w o w' Hw;
    simpl; [discriminate|].
  apply invoke_P; assumption.
Qed.

Lemma fire_P fuel h w o w' :
  P w -> fire body fuel h w = Some (o, w') -> P w'.
Proof.
  unfold fire. intros Hw.
  destruct (find (fun t => Nat.eqb (fst t) h) (timers w)) as [t|].
  - apply trigger_P; [apply call_P|].
    apply (P_frame w); [reflexivity|reflexivity|exact Hw].
  - intros [= _ <-]; exact Hw.
Qed.

Lemma new_cell_P v w :
  P w -> P (snd (fresh_ref (with_cells (cells w ++ [Cell v v false 0 []]) w))).
Proof.
  apply P_frame; [|reflexivity]. intros d. unfold cell_of. simpl.
  destruct (decide (d < length (cells w))) as [Hd|Hd].
  - rewrite lookup_app_l by exact Hd. reflexivity.
  - rewrite lookup_app_r by lia. rewrite (lookup_ge_None_2 (cells w)) by lia.
    destruct (d - length (cells w)) as [|[|k]]; reflexivity.
Qed.

Lemma createObservable_P fuel initialValue w o w' :
  P w -> createObservable body fuel initialValue w = Some (o, w') -> P w'.
Proof.
  unfold createObservable. intros Hw.
  destruct (readValue (call body fuel) initialValue VUndef w) as [[v w1]|] eqn:E;
    [|discriminate].
  intros [= _ <-]. apply new_cell_P.
  exact (readValue_P (call body fuel) (call_P fuel) _ _ _ _ _ Hw E).
Qed.

Lemma createStore_P fuel store actions w o w' :
  P w -> createStore body fuel store actions w = Some (o, w') -> P w'.
Proof.
  unfold createStore. intros Hw.
  destruct (createObservable body fuel store w) as [[[state|e] w1]|] eqn:E;
    [| |discriminate].
  - pose proof (createObservable_P _ _ _ _ _ Hw E) as H1.
    destruct (call body fuel actions [state] w1) as [[[a|e] w2]|] eqn:E2;
      [| |discriminate]; simpl; intros [= _ <-].
    + apply (P_frame w2); [reflexivity|reflexivity|]. exact (call_P _ _ _ _ _ _ H1 E2).
    + exact (call_P _ _ _ _ _ _ H1 E2).
  - intros [= _ <-]. exact (createObservable_P _ _ _ _ _ Hw E).
Qed.

Lemma reachable_P w : P host0 -> reachable body w -> P w.
Proof.
  intros H0. induction 1 as [|fuel i w o w' _ IH H|fuel s a w o w' _ IH H
                            |fuel f args w o w' _ IH H|fuel h w o w' _ IH H].
  - exact H0.
  - exact (createObservable_P _ _ _ _ _ IH H).
  - exact (createStore_P _ _ _ _ _ _ IH H).
  - exact (call_P _ _ _ _ _ _ IH H).
  - exact (fire_P _ _ _ _ _ IH H).
Qed.

End Preserved.

(** ** A function that is not in the subscriber set is not notified *)

Lemma absent_entry fn l s :
  absent fn l -> In (Some s) l -> same_value_zero s fn = false.
Proof.
  unfold absent. intros Ha Hin.
  destruct (same_value_zero s fn) eqn:E; [|reflexivity].
  assert (existsb (is_entry fn) l = true); [|congruence].
  apply existsb_exists. exists (Some s). split; [exact Hin|exact E].
Qed.

Lemma absent_set_delete fn s l : absent fn l -> absent fn (set_delete s l).
Proof.
  unfold absent, set_delete. induction l as [|e l IH]; simpl; [auto|].
  intros H. apply orb_false_iff in H as [He Hl].
  rewrite (IH Hl), orb_false_r. destruct (is_entry s e); [reflexivity|exact He].
Qed.

Lemma absent_after_delete fn l : absent fn (set_delete fn l).
Proof.
  unfold absent, set_delete. induction l as [|e l IH]; simpl; [reflexivity|].
  rewrite IH, orb_false_r. destruct (is_entry fn e) eqn:E; [reflexivity|exact E].
Qed.

Lemma absent_set_clear fn l : absent fn (set_clear l).
Proof.
  unfold absent, set_clear. induction l as [|e l IH]; simpl; auto.
Qed.

Lemma absent_set_add fn s l :
  same_value_zero s fn = false -> absent fn l -> absent fn (set_add s l).
Proof.
  unfold absent, set_add. intros Hs Hl.
  destruct (existsb (is_entry s) l); [exact Hl|].
  rewrite existsb_app, Hl. simpl. rewrite Hs. reflexivity.
Qed.

Lemma live_set_clear l : live (set_clear l) = [].
Proof. induction l as [|e l IH]; simpl; auto. Qed.

Section Removed.

Variable body : nat -> list value -> prog.
Variables (fn : value) (c : nat) (base : list event).

Lemma stays_removed_frame w w' :
  (forall d, subscribers (cell_of d w') = subscribers (cell_of d w)) ->
  trace w' = trace w -> stays_removed fn c base w -> stays_removed fn c base w'.
Proof.
  intros Hs Ht (new & Hnew & H). exists new. rewrite Ht, Hs. auto.
Qed.

Lemma stays_removed_notified c' s nv ov w :
  strict_eq ov nv = false ->
  In (Some s) (subscribers (cell_of c' w)) -> stays_removed fn c base w ->
  stays_removed fn c base (record (Notified c' s nv ov) w).
Proof.
  intros _ Hin (new & Hnew & H). exists (new ++ [Notified c' s nv ov]).
  split; [simpl; rewrite Hnew, app_assoc; reflexivity|].
  rewrite !existsb_app. simpl. rewrite !orb_false_r. intros Hre.
  destruct (H Hre) as [Ha Hn]. split; [exact Ha|]. rewrite Hn. simpl.
  destruct (Nat.eqb_spec c' c) as [->|]; [|reflexivity].
  exact (absent_entry _ _ _ Ha Hin).
Qed.

Lemma stays_removed_add c' s w :
  c' < length (cells w) -> stays_removed fn c base w ->
  stays_removed fn c base
    (upd c' (fun st => with_subscribers (set_add s (subscribers st)) st)
         (record (Subscribed c' s) w)).
Proof.
  intros Hc (new & Hnew & H). exists (new ++ [Subscribed c' s]).
  split; [simpl; rewrite Hnew, app_assoc; reflexivity|].
  rewrite !existsb_app. simpl. rewrite !orb_false_r. intros Hre.
  apply orb_false_iff in Hre as [Hre Hs].
  destruct (H Hre) as [Ha Hn]. split; [|rewrite Hn; reflexivity].
  destruct (Nat.eqb_spec c' c) as [->|Hne].
  - rewrite cell_of_upd by exact Hc. simpl. apply absent_set_add; assumption.
  - rewrite cell_of_upd_ne by assumption. exact Ha.
Qed.

Lemma stays_removed_delete c' s w :
  c' < length (cells w) -> stays_removed fn c base w ->
  stays_removed fn c base
    (upd c' (fun st => with_subscribers (set_delete s (subscribers st)) st) w).
Proof.
  intros Hc (new & Hnew & H). exists new. split; [exact Hnew|].
  intros Hre. destruct (H Hre) as [Ha Hn]. split; [|exact Hn].
  destruct (decide (c' = c)) as [->|Hne].
  - rewrite cell_of_upd by exact Hc. simpl. apply absent_set_delete, Ha.
  - rewrite cell_of_upd_ne by assumption. exact Ha.
Qed.

Lemma stays_removed_clear c' w :
  c' < length (cells w) -> stays_removed fn c base w ->
  stays_removed fn c base
    (upd c' (fun st => with_subscribers (set_clear (subscribers st)) st) w).
Proof.
  intros Hc (new & Hnew & H). exists new. split; [exact Hnew|].
  intros Hre. destruct (H Hre) as [Ha Hn]. split; [|exact Hn].
  destruct (decide (c' = c)) as [->|Hne].
  - rewrite cell_of_upd by exact Hc. simpl. apply absent_set_clear.
  - rewrite cell_of_upd_ne by assumption. exact Ha.
Qed.

Lemma perform_stays_removed fuel t w o w' :
  stays_removed fn c base w -> perform body fuel t w = Some (o, w') ->
  stays_removed fn c base w'.
Proof.
  destruct t as [f args|h]; simpl.
  - apply (call_P body (stays_removed fn c base));
      [exact stays_removed_frame | exact stays_removed_notified
      | exact stays_removed_add | exact stays_removed_delete
      | exact stays_removed_clear].
  - apply (fire_P body (stays_removed fn c base));
      [exact stays_removed_frame | exact stays_removed_notified
      | exact stays_removed_add | exact stays_removed_delete
      | exact stays_removed_clear].
Qed.

Lemma perform_all_stays_removed fuel ts : forall w w',
  stays_removed fn c base w -> perform_all body fuel ts w = Some w' ->
  stays_removed fn c base w'.
Proof.
  induction ts as [|t ts IH]; intros w w' Hw; simpl.
  - intros [= <-]; exact Hw.
  - destruct (perform body fuel t w) as [[o w1]|] eqn:E; [|discriminate].
    apply IH. exact (perform_stays_removed _ _ _ _ _ Hw E).
Qed.

End Removed.

(** From a world in which [fn] is not subscribed to [c], whatever tasks run:
    the trace only grows, and unless the new part shows [fn] being
    subscribed to [c] again it shows no notification of [fn] by [c]. *)
Lemma not_notified_while_absent body fn c fuel ts w w' :
  absent fn (subscribers (cell_of c w)) ->
  perform_all body fuel ts w = Some w' ->
  exists new,
    trace w' = trace w ++ new /\
    (existsb (resubscribes fn c) new = false ->
     existsb (notifies fn c) new = false).
Proof.
  intros Ha Hrun.
  assert (H0 : stays_removed fn c (trace w) w).
  { exists []. split; [symmetry; apply app_nil_r|]. intros _. split; auto. }
  destruct (perform_all_stays_removed body fn c _ fuel ts w w' H0 Hrun)
    as (new & Hnew & H).
  exists new. split; [exact Hnew|]. intros Hre. apply H, Hre.
Qed.

(** ** Property lists *)

Lemma lookup_field_cons k k' v o :
  lookup_field k ((k', v) :: o) =
  if String.eqb k' k then Some v else lookup_field k o.
Proof. unfold lookup_field. simpl. destruct (String.eqb k' k); reflexivity. Qed.

Lemma lookup_field_no_key k o : has_key k o = false -> lookup_field k o = None.
Proof.
  unfold has_key. induction o as [|[k1 v1] o IH]; simpl; [reflexivity|].
  intros H. apply orb_false_iff in H as [H1 H2].
  rewrite lookup_field_cons, H1. apply IH, H2.
Qed.

Lemma lookup_field_replace k k' v o :
  has_key k' o = true ->
  lookup_field k (replace_field o k' v) =
  if String.eqb k' k then Some v else lookup_field k o.
Proof.
  unfold has_key. induction o as [|[k1 v1] o IH]; simpl; [discriminate|].
  destruct (String.eqb_spec k1 k') as [->|Hne]; simpl; intros H;
    rewrite !lookup_field_cons.
  - destruct (String.eqb k' k); reflexivity.
  - rewrite (IH H). destruct (String.eqb_spec k' k) as [->|]; [|reflexivity].
    destruct (String.eqb_spec k1 k); [contradiction|reflexivity].
Qed.

Lemma lookup_field_insert_index k i k' v o :
  has_key k' o = false ->
  lookup_field k (insert_index i k' v o) =
  if String.eqb k' k then Some v else lookup_field k o.
Proof.
  unfold has_key. induction o as [|[k1 v1] o IH]; simpl; intros H.
  - rewrite lookup_field_cons. reflexivity.
  - apply orb_false_iff in H as [H1 H2].
    destruct (index_of_key k1) as [j|]; [destruct (N.ltb j i)|];
      rewrite !lookup_field_cons; try reflexivity.
    rewrite (IH H2). destruct (String.eqb_spec k' k) as [->|]; [|reflexivity].
    rewrite H1. reflexivity.
Qed.

Lemma lookup_field_snoc k k' v o :
  has_key k' o = false ->
  lookup_field k (o ++ [(k', v)]) =
  if String.eqb k' k then Some v else lookup_field k o.
Proof.
  unfold has_key. induction o as [|[k1 v1] o IH]; simpl; intros H.
  - rewrite lookup_field_cons. reflexivity.
  - apply orb_false_iff in H as [H1 H2]. rewrite !lookup_field_cons, (IH H2).
    destruct (String.eqb_spec k' k) as [->|]; [|reflexivity].
    rewrite H1. reflexivity.
Qed.

Lemma lookup_field_assign k k' v o :
  lookup_field k (assign o k' v) =
  if String.eqb k' k then Some v else lookup_field k o.
Proof.
  unfold assign. destruct (has_key k' o) eqn:E.
  - apply lookup_field_replace, E.
  - destruct (index_of_key k') as [i|].
    + apply lookup_field_insert_index, E.
    + apply lookup_field_snoc, E.
Qed.

Lemma lookup_field_absent k o :
  ~ In k (map fst o) -> lookup_field k o = None.
Proof.
  induction o as [|[k1 v1] o IH]; simpl; [reflexivity|].
  intros H. rewrite lookup_field_cons.
  destruct (String.eqb_spec k1 k) as [->|]; [exfalso; apply H; left; reflexivity|].
  apply IH. intros Hin. apply H. right. exact Hin.
Qed.

Lemma lookup_field_assign_all k b : forall o,
  distinct_keys b ->
  lookup_field k (assign_all o b) =
  match lookup_field k b with
  | Some v => Some v
  | None => lookup_field k o
  end.
Proof.
  unfold assign_all, distinct_keys.
  induction b as [|[k1 v1] b IH]; intros o Hnd; simpl; [reflexivity|].
  apply NoDup_cons in Hnd as [Hk Hnd]. rewrite (IH _ Hnd).
  rewrite lookup_field_cons, lookup_field_assign.
  destruct (String.eqb_spec k1 k) as [->|]; [|reflexivity].
  rewrite lookup_field_absent; [reflexivity|].
  intros Hin. apply Hk, list_elem_of_In, Hin.
Qed.

Lemma distinct_keys_observable c : distinct_keys (observable_fields c).
Proof.
  unfold distinct_keys. simpl.
  repeat (constructor;
    [rewrite ?elem_of_cons, ?elem_of_nil; intuition discriminate|]).
  constructor.
Qed.

Lemma lookup_field_spread k a b :
  distinct_keys a -> distinct_keys b ->
  lookup_field k (spread a b) =
  match lookup_field k b with
  | Some v => Some v
  | None => lookup_field k a
  end.
Proof.
  intros Ha Hb. unfold spread. rewrite (lookup_field_assign_all k b _ Hb).
  rewrite (lookup_field_assign_all k a _ Ha).
  destruct (lookup_field k a); reflexivity.
Qed.

(** *** The characters of a string as properties *)

Lemma key_of_index_inj i j : key_of_index i = key_of_index j -> i = j.
Proof.
  unfold key_of_index. intros H.
  assert (Hn : forall n, Nat.to_uint n <> Decimal.Nil).
  { intros n. rewrite <- (DecimalNat.Unsigned.of_to n) at 1.
    rewrite DecimalNat.Unsigned.to_of. apply unorm_nonnil. }
  pose proof (NilZero.usu _ (Hn i)) as Hi. pose proof (NilZero.usu _ (Hn j)) as Hj.
  rewrite H in Hi. rewrite Hi in Hj. injection Hj as Hj.
  rewrite <- (DecimalNat.Unsigned.of_to i), <- (DecimalNat.Unsigned.of_to j), Hj.
  reflexivity.
Qed.

Lemma string_fields_keys s : forall i k,
  In k (map fst (string_fields i s)) -> exists j, i <= j /\ k = key_of_index j.
Proof.
  induction s as [|ch s IH]; intros i k; simpl; [tauto|].
  intros [<-|Hin]; [exists i; split; [lia|reflexivity]|].
  destruct (IH _ _ Hin) as (j & Hj & ->). exists j. split; [lia|reflexivity].
Qed.

Lemma distinct_keys_string s : forall i, distinct_keys (string_fields i s).
Proof.
  unfold distinct_keys. induction s as [|ch s IH]; intros i; simpl;
    [apply NoDup_nil_2|].
  apply NoDup_cons. split; [|apply IH].
  intros Hin. apply list_elem_of_In, string_fields_keys in Hin as (j & Hj & Heq).
  apply key_of_index_inj in Heq. lia.
Qed.

(** What a spread element copies has distinct names, if the snapshot of
    an object has. *)
Lemma distinct_keys_own_fields a :
  (forall r fs, a = VObj r fs -> distinct_keys fs) -> distinct_keys (own_fields a).
Proof.
  intros H. destruct a; simpl; try apply NoDup_nil_2.
  - apply distinct_keys_string.
  - exact (H _ _ eq_refl).
Qed.

(** ** The scheduler's bookkeeping is kept by every call *)

Lemma cell_of_upd_decide (c d : nat) (f : cell -> cell) (w : world) :
  c < length (cells w) ->
  cell_of d (upd c f w) = if decide (c = d) then f (cell_of d w) else cell_of d w.
Proof.
  intros Hc. destruct (decide (c = d)) as [<-|Hne].
  - apply cell_of_upd, Hc.
  - apply cell_of_upd_ne, Hne.
Qed.

Lemma wf_ext w w' :
  timers w' = timers w ->
  next_handle w' = next_handle w ->
  length (cells w') = length (cells w) ->
  (forall d, queued (cell_of d w') = queued (cell_of d w)) ->
  (forall d, debounceId (cell_of d w') = debounceId (cell_of d w)) ->
  wf w -> wf w'.
Proof.
  unfold wf. intros Ht Hn Hl Hq Hd (H1 & H2 & H3 & H4 & H5).
  rewrite Ht, Hn, Hl. split; [exact H1|]. split; [exact H2|].
  split; [|split].
  - intros h d Hin. rewrite Hq, Hd. apply H3, Hin.
  - intros d Hlt. rewrite Hq, Hd. apply H4, Hlt.
  - intros c d Hc Hlt Hne. rewrite !Hd. apply H5; assumption.
Qed.

Lemma wf_upd c f w :
  (forall st, queued (f st) = queued st) ->
  (forall st, debounceId (f st) = debounceId st) ->
  wf w -> wf (upd c f w).
Proof.
  intros Hq Hd. apply wf_ext; try reflexivity.
  - apply length_cells_upd.
  - intros d. unfold cell_of. destruct (decide (c = d)) as [<-|Hne].
    + rewrite lookup_upd_eq. destruct (cells w !! c); simpl; auto.
    + rewrite lookup_upd_ne by assumption. reflexivity.
  - intros d. unfold cell_of. destruct (decide (c = d)) as [<-|Hne].
    + rewrite lookup_upd_eq. destruct (cells w !! c); simpl; auto.
    + rewrite lookup_upd_ne by assumption. reflexivity.
Qed.

Lemma wf_host0 : wf host0.
Proof.
  unfold wf, host0. simpl. split; [apply NoDup_nil_2|]. split; [lia|].
  split; [intros h d []|]. split; intros; lia.
Qed.

(** Opening a batch: the first non-immediate write to a cell not queued. *)
Lemma wf_open c w :
  wf w -> c < length (cells w) -> queued (cell_of c w) = false ->
  wf (upd c (with_debounceId (next_handle w))
          (snd (enqueue c (upd c (with_queued true) w)))).
Proof.
  intros (H1 & H2 & H3 & H4 & H5) Hc Hq.
  set (w' := upd c _ _).
  assert (Hcell : forall d, cell_of d w' =
            if decide (c = d)
            then with_debounceId (next_handle w) (with_queued true (cell_of d w))
            else cell_of d w).
  { intros d. unfold w'.
    rewrite cell_of_upd_decide by (simpl; rewrite length_alter; exact Hc).
    change (cell_of d (snd (enqueue c ?x))) with (cell_of d x).
    rewrite cell_of_upd_decide by exact Hc.
    destruct (decide (c = d)); reflexivity. }
  assert (Hlen : length (cells w') = length (cells w))
    by (unfold w'; simpl; rewrite !length_alter; reflexivity).
  unfold wf. rewrite Hlen.
  change (timers w') with (timers w ++ [(next_handle w, c)]).
  change (next_handle w') with (S (next_handle w)).
  split; [|split; [lia|split; [|split]]].
  - rewrite map_app. apply NoDup_app. split; [exact H1|].
    split; [|apply NoDup_singleton].
    intros h Hh Hh'. apply list_elem_of_In, in_map_iff in Hh as [[k d] [<- Ht]].
    destruct (H3 _ _ Ht) as (_ & Hlt & _).
    apply list_elem_of_In in Hh'. destruct Hh' as [Hh'|[]]. simpl in Hh'. lia.
  - intros h d Hin. rewrite Hcell.
    apply in_app_or in Hin as [Hin|[[= <- <-]|[]]].
    + destruct (H3 _ _ Hin) as (Hpos & Hlt & Hd & Hqd & Hid).
      destruct (decide (c = d)) as [->|]; [congruence|].
      repeat split; auto; lia.
    + rewrite decide_True by reflexivity. repeat split; auto; lia.
  - intros d Hd. rewrite Hcell. destruct (decide (c = d)) as [<-|Hne]; simpl.
    + split; [|lia]. intros _. apply in_or_app. right. left. reflexivity.
    + destruct (H4 d Hd) as [Hin Hlt]. split; [|lia].
      intros Hqd. apply in_or_app. left. apply Hin, Hqd.
  - intros a b Ha Hb Hne. rewrite !Hcell.
    destruct (decide (c = a)) as [<-|Hca], (decide (c = b)) as [<-|Hcb];
      simpl; try congruence.
    + destruct (H4 b Hb) as [_ Hlt]. lia.
    + destruct (H4 a Ha) as [_ Hlt]. lia.
    + apply H5; assumption.
Qed.

(** Closing a batch: its callback is gone and the cell is no longer queued. *)
Lemma wf_cancel c w :
  wf w -> c < length (cells w) ->
  wf (upd c (with_queued false) (dequeue (debounceId (cell_of c w)) w)).
Proof.
  intros (H1 & H2 & H3 & H4 & H5) Hc.
  set (hc := debounceId (cell_of c w)).
  set (w' := upd c _ _).
  assert (Hcell : forall d, cell_of d w' =
            if decide (c = d) then with_queued false (cell_of d w)
            else cell_of d w).
  { intros d. unfold w'. rewrite cell_of_upd_decide by exact Hc. reflexivity. }
  assert (Hlen : length (cells w') = length (cells w))
    by (unfold w'; simpl; rewrite length_alter; reflexivity).
  assert (Hin' : forall h d, In (h, d) (timers w') <-> In (h, d) (timers w) /\ h ≠ hc).
  { intros h d. unfold w'. simpl. rewrite <- !list_elem_of_In, list_elem_of_filter.
    simpl. tauto. }
  unfold wf. rewrite Hlen. change (next_handle w') with (next_handle w).
  split; [|split; [exact H2|split; [|split]]].
  - unfold w'. simpl. apply NoDup_fst_filter, H1.
  - intros h d Hin. apply Hin' in Hin as [Hin Hne]. rewrite Hcell.
    destruct (H3 _ _ Hin) as (Hpos & Hlt & Hd & Hqd & Hid).
    destruct (decide (c = d)) as [<-|Hcd]; [unfold hc in Hne; congruence|].
    auto.
  - intros d Hd. rewrite Hcell. destruct (H4 d Hd) as [Hin Hlt].
    destruct (decide (c = d)) as [<-|Hcd]; simpl; [split; [discriminate|exact Hlt]|].
    split; [|exact Hlt]. intros Hqd. apply Hin'. split; [apply Hin, Hqd|].
    intros Heq. destruct (H3 _ _ (Hin Hqd)) as (Hpos & _).
    assert (debounceId (cell_of c w) = 0); [|unfold hc in Heq; lia].
    apply (H5 c d); auto; unfold hc in Heq; congruence.
  - intros a b Ha Hb Hne. rewrite !Hcell.
    destruct (decide (c = a)), (decide (c = b)); simpl; apply H5; assumption.
Qed.

(** Allocating the cell of a new observable. *)
Lemma wf_new_cell v w :
  wf w -> wf (with_cells (cells w ++ [Cell v v false 0 []]) w).
Proof.
  intros (H1 & H2 & H3 & H4 & H5).
  set (w' := with_cells _ w).
  assert (Hold : forall d, d < length (cells w) -> cell_of d w' = cell_of d w).
  { intros d Hd. unfold cell_of, w'. simpl. rewrite lookup_app_l by exact Hd.
    reflexivity. }
  assert (Hnew : cell_of (length (cells w)) w' = Cell v v false 0 []).
  { unfold cell_of, w'. simpl. rewrite lookup_app_r by lia.
    rewrite Nat.sub_diag. reflexivity. }
  assert (Hlen : length (cells w') = S (length (cells w)))
    by (unfold w'; simpl; rewrite length_app; simpl; lia).
  unfold wf. rewrite Hlen. change (timers w') with (timers w).
  change (next_handle w') with (next_handle w).
  split; [exact H1|]. split; [exact H2|]. split; [|split].
  - intros h d Hin. destruct (H3 _ _ Hin) as (Hpos & Hlt & Hd & Hqd & Hid).
    rewrite (Hold d Hd). repeat split; auto.
  - intros d Hd. destruct (decide (d = length (cells w))) as [->|Hne].
    + rewrite Hnew. simpl. split; [discriminate|lia].
    + rewrite Hold by lia. apply H4. lia.
  - intros a b Ha Hb Hne.
    destruct (decide (a = length (cells w))) as [->|Hna]; [rewrite Hnew; reflexivity|].
    destruct (decide (b = length (cells w))) as [->|Hnb].
    + rewrite Hnew. simpl. intros ->. reflexivity.
    + rewrite !Hold by lia. apply H5; lia.
Qed.

(** What the bookkeeping of the heap says about one cell. *)
Lemma wf_sched_ok c w : wf w -> c < length (cells w) -> sched_ok c w.
Proof.
  intros (H1 & H2 & H3 & H4 & H5) Hc. split; [exact H1|]. split.
  - intros [h d] Hin. simpl. apply (H3 _ _ Hin).
  - assert (Hall : forall h, In h (pending c w) -> h = debounceId (cell_of c w)).
    { intros h Hh. apply pending_In in Hh. symmetry. apply (H3 _ _ Hh). }
    assert (Hnd : NoDup (pending c w)).
    { unfold pending. apply NoDup_fst_filter, H1. }
    destruct (queued (cell_of c w)) eqn:Q.
    + destruct (H4 c Hc) as [Hin _]. specialize (Hin Q).
      apply pending_In in Hin.
      destruct (pending c w) as [|h [|h' l]]; [destruct Hin| |].
      * rewrite (Hall h (or_introl eq_refl)). reflexivity.
      * exfalso. apply NoDup_cons in Hnd as [Hh _]. apply Hh.
        rewrite (Hall h (or_introl eq_refl)).
        rewrite <- (Hall h' (or_intror (or_introl eq_refl))). left.
    + destruct (pending c w) as [|h l] eqn:E; [reflexivity|].
      exfalso. assert (Hh : In h (pending c w)) by (rewrite E; left; reflexivity).
      apply pending_In in Hh. destruct (H3 _ _ Hh) as (_ & _ & _ & Hq & _).
      congruence.
Qed.

Lemma settled_ext N w w' :
  timers w' = timers w ->
  next_handle w' = next_handle w ->
  cells w' = cells w ->
  settled N w -> settled N w'.
Proof.
  intros Ht Hn Hc [Hw Hl]. split; [|rewrite Hc; exact Hl].
  revert Hw.
  apply wf_ext;
    [exact Ht | exact Hn | rewrite Hc; reflexivity
    | intros d; unfold cell_of; rewrite Hc; reflexivity
    | intros d; unfold cell_of; rewrite Hc; reflexivity].
Qed.

Lemma settled_upd N c f w :
  (forall st, queued (f st) = queued st) ->
  (forall st, debounceId (f st) = debounceId st) ->
  settled N w -> settled N (upd c f w).
Proof.
  intros Hq Hd [Hw Hl]. split; [apply wf_upd; assumption|].
  rewrite length_cells_upd. exact Hl.
Qed.

Section WellFormed.

Variable body : nat -> list value -> prog.
Variable N : nat.

Section Calls.

Variable callf : value -> list value -> world -> result.
Variable bound : nat.
Hypothesis callf_settled : forall f args w o w',
  settled N w -> callf f args w = Some (o, w') -> settled N w'.

Lemma readValue_settled getter state w v w' :
  settled N w -> readValue callf getter state w = Some (v, w') -> settled N w'.
Proof.
  unfold readValue. intros Hw.
  destruct (is_function getter); [|intros [= _ <-]; exact Hw].
  destruct (callf getter [state] w) as [[[r|e] w1]|] eqn:E; intros [= _ <-].
  - eapply callf_settled; eauto.
  - apply (settled_ext N w1); try reflexivity. eapply callf_settled; eauto.
Qed.

Lemma emit_from_settled n c i nv ov w o w' :
  settled N w -> emit_from callf n c i nv ov w = Some (o, w') -> settled N w'.
Proof.
  revert i w. induction n as [|n IH]; intros i w Hw; simpl; [discriminate|].
  destruct (subscribers (cell_of c w) !! i) as [[s|]|].
  - assert (Hr : settled N (record (Notified c s nv ov) w))
      by (apply (settled_ext N w); try reflexivity; exact Hw).
    destruct (callf s [nv; ov] (record (Notified c s nv ov) w))
      as [[[r|e] w1]|] eqn:E; [| |discriminate].
    + apply IH. exact (callf_settled _ _ _ _ _ Hr E).
    + intros [= _ <-]. exact (callf_settled _ _ _ _ _ Hr E).
  - apply IH, Hw.
  - intros [= _ <-]; exact Hw.
Qed.

(** The commit procedure, entered with the cell queued and its callback
    already gone. *)
Lemma trigger_settled c w o w' :
  queued (cell_of c w) = true ->
  settled N (upd c (with_queued false) w) ->
  trigger callf bound c w = Some (o, w') -> settled N w'.
Proof.
  unfold trigger. intros Hq Hw. rewrite Hq. simpl negb. cbv iota.
  destruct (strict_eq _ _); [intros [= _ <-]; exact Hw|].
  apply emit_from_settled. apply settled_upd; auto.
Qed.

Lemma set_settled c newValue immediate w o w' :
  c < N ->
  settled N w -> set callf bound c newValue immediate w = Some (o, w') ->
  settled N w'.
Proof.
  unfold set. intros Hc Hw.
  destruct (readValue callf newValue (current (cell_of c w)) w)
    as [[v w1]|] eqn:E; [|discriminate].
  assert (H1 : settled N w1) by (eapply readValue_settled; eauto).
  set (w2 := upd c (with_future v) w1).
  assert (H2 : settled N w2) by (apply settled_upd; auto).
  assert (Hc1 : c < length (cells w1)) by (destruct H1 as [_ ->]; exact Hc).
  assert (Hc2 : c < length (cells w2)) by (destruct H2 as [_ ->]; exact Hc).
  destruct (truthy immediate).
  - apply trigger_settled.
    + rewrite cell_of_upd
        by (simpl; rewrite ?length_alter; first [exact Hc2 | exact Hc1]).
      reflexivity.
    + destruct H2 as [Hwf Hl]. split.
      * pose proof (wf_cancel c w2 Hwf Hc2) as Hcancel. revert Hcancel.
        apply wf_ext; try reflexivity.
        -- simpl. rewrite !length_alter. reflexivity.
        -- intros d.
           rewrite !cell_of_upd_decide
             by (simpl; rewrite ?length_alter; first [exact Hc2 | exact Hc1]).
           destruct (decide (c = d)); reflexivity.
        -- intros d.
           rewrite !cell_of_upd_decide
             by (simpl; rewrite ?length_alter; first [exact Hc2 | exact Hc1]).
           destruct (decide (c = d)); reflexivity.
      * rewrite !length_cells_upd. exact Hl.
  - destruct (negb (queued (cell_of c w2))) eqn:Q.
    + simpl. intros [= _ <-]. apply negb_true_iff in Q. destruct H2 as [Hwf Hl].
      split; [exact (wf_open c w2 Hwf Hc2 Q)|].
      rewrite <- Hl. unfold w2. simpl. rewrite !length_alter. reflexivity.
    + intros [= _ <-]. exact H2.
Qed.

Lemma call_method_settled m c args w o w' :
  c < N ->
  settled N w -> call_method callf bound m c args w = Some (o, w') ->
  settled N w'.
Proof.
  intros Hc Hw. destruct m; simpl.
  - intros [= _ <-]; exact Hw.
  - apply set_settled; assumption.
  - intros [= _ <-]. apply settled_upd; auto.
  - intros [= _ <-].
    apply (settled_ext N (upd c (fun st => with_subscribers
                                   (set_add (arg 0 args) (subscribers st)) st)
                              (record (Subscribed c (arg 0 args)) w)));
      try reflexivity.
    apply settled_upd; auto.
  - intros [= _ <-]. apply settled_upd; auto.
Qed.

Lemma run_settled p w o w' :
  settled N w -> run callf p w = Some (o, w') -> settled N w'.
Proof.
  revert w. induction p as [r|f args k IH]; intros w Hw; simpl.
  - intros [= _ <-]; exact Hw.
  - destruct (callf f args w) as [[r w1]|] eqn:E; [|discriminate].
    apply IH. exact (callf_settled _ _ _ _ _ Hw E).
Qed.

Lemma invoke_settled f args w o w' :
  settled N w -> invoke body callf bound f args w = Some (o, w') -> settled N w'.
Proof.
  intros Hw. destruct f; simpl; try (intros [= _ <-]; exact Hw).
  - apply run_settled, Hw.
  - destruct (decide (c < length (cells w))) as [Hc|];
      [|intros [= _ <-]; exact Hw].
    apply call_method_settled; [|exact Hw]. destruct Hw as [_ <-]. exact Hc.
  - destruct (decide (c < length (cells w))); intros [= _ <-];
      [apply settled_upd; auto | exact Hw].
Qed.

End Calls.

Lemma call_settled fuel f args w o w' :
  settled N w -> call body fuel f args w = Some (o, w') -> settled N w'.
Proof.
  revert f args w o w'. induction fuel as [|n IH]; intros f args w o w' Hw;
    simpl; [discriminate|].
  apply invoke_settled; assumption.
Qed.

Lemma fire_settled fuel h w o w' :
  settled N w -> fire body fuel h w = Some (o, w') -> settled N w'.
Proof.
  unfold fire. intros [Hwf Hl].
  destruct (find (fun t => Nat.eqb (fst t) h) (timers w)) as [[k c]|] eqn:E;
    [|intros [= _ <-]; split; assumption].
  apply find_some in E as [Hin Hk]. simpl in Hk. apply Nat.eqb_eq in Hk. subst k.
  pose proof Hwf as (_ & _ & H3 & _).
  destruct (H3 _ _ Hin) as (_ & _ & Hc & Hq & Hid).
  simpl snd. apply trigger_settled; [apply call_settled|exact Hq|].
  split; [|simpl; rewrite length_alter; exact Hl].
  rewrite <- Hid. apply wf_cancel; assumption.
Qed.

End WellFormed.

Lemma createObservable_settled body fuel initialValue N w o w' :
  settled N w -> createObservable body fuel initialValue w = Some (o, w') ->
  settled (S N) w'.
Proof.
  unfold createObservable. intros Hw.
  destruct (readValue (call body fuel) initialValue VUndef w) as [[v w1]|] eqn:E;
    [|discriminate].
  assert (H1 : settled N w1)
    by (eapply readValue_settled; eauto using call_settled).
  simpl. intros [= _ <-]. destruct H1 as [Hwf Hl]. split.
  - pose proof (wf_new_cell v w1 Hwf) as Hnew. revert Hnew.
    apply wf_ext; reflexivity.
  - simpl. rewrite length_app. simpl. lia.
Qed.

Lemma createStore_settled body fuel store actions N w o w' :
  settled N w -> createStore body fuel store actions w = Some (o, w') ->
  settled (S N) w'.
Proof.
  unfold createStore. intros Hw.
  destruct (createObservable body fuel store w) as [[[state|e] w1]|] eqn:E;
    [| |discriminate].
  - pose proof (createObservable_settled _ _ _ _ _ _ _ Hw E) as H1.
    destruct (call body fuel actions [state] w1) as [[[a|e] w2]|] eqn:E2;
      [| |discriminate].
    + simpl. intros [= _ <-].
      apply (settled_ext (S N) w2); try reflexivity.
      exact (call_settled body (S N) _ _ _ _ _ _ H1 E2).
    + intros [= _ <-]. exact (call_settled body (S N) _ _ _ _ _ _ H1 E2).
  - intros [= _ <-]. exact (createObservable_settled _ _ _ _ _ _ _ Hw E).
Qed.

Lemma createStore_inv body fuel store actions w o w' :
  inv w -> createStore body fuel store actions w = Some (o, w') -> inv w'.
Proof.
  unfold createStore. intros Hw.
  destruct (createObservable body fuel store w) as [[[state|e] w1]|] eqn:E;
    [| |discriminate].
  - pose proof (createObservable_inv _ _ _ _ _ _ Hw E) as H1.
    destruct (call body fuel actions [state] w1) as [[[a|e] w2]|] eqn:E2;
      [| |discriminate].
    + simpl. intros [= _ <-]. exact (call_inv body _ _ _ _ _ _ H1 E2).
    + intros [= _ <-]. exact (call_inv body _ _ _ _ _ _ H1 E2).
  - intros [= _ <-]. exact (createObservable_inv _ _ _ _ _ _ Hw E).
Qed.

(** Every world the library can be in has its bookkeeping in order and
    every cell within the invariant. *)
Lemma reachable_wf body w : reachable body w -> wf w /\ inv w.
Proof.
  induction 1 as [|fuel i w o w' _ [IHw IHi] H|fuel s a w o w' _ [IHw IHi] H
                 |fuel f args w o w' _ [IHw IHi] H|fuel h w o w' _ [IHw IHi] H].
  - split; [apply wf_host0|]. intros d st Hd. destruct d; discriminate.
  - split; [|exact (createObservable_inv _ _ _ _ _ _ IHi H)].
    apply (createObservable_settled _ _ _ (length (cells w)) _ _ _ (conj IHw eq_refl) H).
  - split; [|exact (createStore_inv _ _ _ _ _ _ _ IHi H)].
    apply (createStore_settled _ _ _ _ (length (cells w)) _ _ _ (conj IHw eq_refl) H).
  - split; [|exact (call_inv _ _ _ _ _ _ _ IHi H)].
    apply (call_settled _ (length (cells w)) _ _ _ _ _ _ (conj IHw eq_refl) H).
  - split; [|exact (fire_inv _ _ _ _ _ _ IHi H)].
    apply (fire_settled _ (length (cells w)) _ _ _ _ _ (conj IHw eq_refl) H).
Qed.

Lemma reachable_sched_ok body c w :
  reachable body w -> c < length (cells w) -> sched_ok c w.
Proof. intros H. apply wf_sched_ok, (reachable_wf body w H). Qed.


(** ** The subscribers of a cell form a set *)

Lemma method_eqb_sym (m m' : method) : method_eqb m m' = method_eqb m' m.
Proof. destruct m, m'; reflexivity. Qed.

Lemma strict_eq_sym (a b : value) : strict_eq a b = strict_eq b a.
Proof.
  destruct a, b; simpl; try reflexivity;
    auto using Z.eqb_sym, String.eqb_sym, Nat.eqb_sym.
  - destruct b, b0; reflexivity.
  - rewrite (Nat.eqb_sym c c0), (method_eqb_sym m m0). reflexivity.
Qed.

Lemma same_value_zero_sym (a b : value) :
  same_value_zero a b = same_value_zero b a.
Proof.
  destruct a, b; try reflexivity; apply (strict_eq_sym _ _).
Qed.

Lemma set_like_add s l : set_like l -> set_like (set_add s l).
Proof.
  unfold set_add. intros Hl. destruct (existsb (is_entry s) l) eqn:E; [exact Hl|].
  assert (Hnew : forall i t, l !! i = Some (Some t) -> same_value_zero t s = false).
  { intros i t Hi. destruct (same_value_zero t s) eqn:Ets; [|reflexivity].
    assert (existsb (is_entry s) l = true); [|congruence].
    apply existsb_exists. exists (Some t). split; [|exact Ets].
    apply list_elem_of_In, list_elem_of_lookup. exists i. exact Hi. }
  intros i j a b Hi Hj Hab.
  apply lookup_snoc_Some in Hi as [[Hil Hi]|[Hil Hi]];
    apply lookup_snoc_Some in Hj as [[Hjl Hj]|[Hjl Hj]].
  - exact (Hl i j a b Hi Hj Hab).
  - injection Hj as <-. rewrite (Hnew i a Hi) in Hab. discriminate.
  - injection Hi as <-. rewrite same_value_zero_sym, (Hnew j b Hj) in Hab. discriminate.
  - congruence.
Qed.

Lemma set_like_delete s l : set_like l -> set_like (set_delete s l).
Proof.
  unfold set_delete. intros Hl i j a b Hi Hj Hab.
  rewrite list_lookup_fmap in Hi, Hj.
  destruct (l !! i) as [[a'|]|] eqn:Ei; simpl in Hi; try discriminate.
  destruct (l !! j) as [[b'|]|] eqn:Ej; simpl in Hj; try discriminate.
  destruct (same_value_zero a' s); [discriminate|].
  destruct (same_value_zero b' s); [discriminate|].
  injection Hi as <-. injection Hj as <-. exact (Hl i j a' b' Ei Ej Hab).
Qed.

Lemma set_like_clear l : set_like (set_clear l).
Proof.
  unfold set_clear. intros i j a b Hi. rewrite list_lookup_fmap in Hi.
  destruct (l !! i); discriminate.
Qed.

Lemma set_like_nil : set_like [].
Proof. intros i j a b Hi. destruct i; discriminate. Qed.

Section Sets.

Variable body : nat -> list value -> prog.

Lemma sets_ok_frame w w' :
  (forall d, subscribers (cell_of d w') = subscribers (cell_of d w)) ->
  trace w' = trace w -> sets_ok w -> sets_ok w'.
Proof. intros Hs _ Hw c. rewrite Hs. apply Hw. Qed.

Lemma sets_ok_upd c g w :
  c < length (cells w) ->
  (forall l, set_like l -> set_like (g l)) ->
  sets_ok w ->
  sets_ok (upd c (fun st => with_subscribers (g (subscribers st)) st) w).
Proof.
  intros Hc Hg Hw d. rewrite cell_of_upd_decide by exact Hc.
  destruct (decide (c = d)); [simpl; apply Hg|]; apply Hw.
Qed.

Lemma call_sets_ok fuel f args w o w' :
  sets_ok w -> call body fuel f args w = Some (o, w') -> sets_ok w'.
Proof.
  apply (call_P body sets_ok).
  - exact sets_ok_frame.
  - intros c s nv ov w0 _ _ H. exact H.
  - intros c s w0 Hc H.
    apply (sets_ok_upd c (set_add s) (record (Subscribed c s) w0));
      auto using set_like_add.
  - intros c s w0 Hc H. apply (sets_ok_upd c (set_delete s)); auto using set_like_delete.
  - intros c w0 Hc H. apply (sets_ok_upd c set_clear); auto using set_like_clear.
Qed.

Lemma fire_sets_ok fuel h w o w' :
  sets_ok w -> fire body fuel h w = Some (o, w') -> sets_ok w'.
Proof.
  apply (fire_P body sets_ok).
  - exact sets_ok_frame.
  - intros c s nv ov w0 _ _ H. exact H.
  - intros c s w0 Hc H.
    apply (sets_ok_upd c (set_add s) (record (Subscribed c s) w0));
      auto using set_like_add.
  - intros c s w0 Hc H. apply (sets_ok_upd c (set_delete s)); auto using set_like_delete.
  - intros c w0 Hc H. apply (sets_ok_upd c set_clear); auto using set_like_clear.
Qed.

Lemma createObservable_sets_ok fuel initialValue w o w' :
  sets_ok w -> createObservable body fuel initialValue w = Some (o, w') ->
  sets_ok w'.
Proof.
  unfold createObservable, readValue. intros Hw.
  assert (Hnew : forall v w1, sets_ok w1 ->
            sets_ok (snd (fresh_ref
                       (with_cells (cells w1 ++ [Cell v v false 0 []]) w1)))).
  { intros v w1 H1 d. unfold cell_of. simpl.
    destruct (decide (d < length (cells w1))) as [Hd|Hd].
    - rewrite lookup_app_l by exact Hd. apply (H1 d).
    - rewrite lookup_app_r by lia.
      destruct (d - length (cells w1)) as [|[|k]]; simpl; apply set_like_nil. }
  destruct (is_function initialValue).
  - destruct (call body fuel initialValue [VUndef] w) as [[[r|e] w1]|] eqn:E;
      [| |discriminate]; intros [= _ <-]; apply Hnew.
    + exact (call_sets_ok _ _ _ _ _ _ Hw E).
    + exact (call_sets_ok _ _ _ _ _ _ Hw E).
  - intros [= _ <-]. apply Hnew, Hw.
Qed.

Lemma createStore_sets_ok fuel store actions w o w' :
  sets_ok w -> createStore body fuel store actions w = Some (o, w') ->
  sets_ok w'.
Proof.
  unfold createStore. intros Hw.
  destruct (createObservable body fuel store w) as [[[state|e] w1]|] eqn:E;
    [| |discriminate].
  - pose proof (createObservable_sets_ok _ _ _ _ _ Hw E) as H1.
    destruct (call body fuel actions [state] w1) as [[[a|e] w2]|] eqn:E2;
      [| |discriminate].
    + simpl. intros [= _ <-]. exact (call_sets_ok _ _ _ _ _ _ H1 E2).
    + intros [= _ <-]. exact (call_sets_ok _ _ _ _ _ _ H1 E2).
  - intros [= _ <-]. exact (createObservable_sets_ok _ _ _ _ _ Hw E).
Qed.

End Sets.

(** Every world the library can be in: the subscribers of each cell are a
    set. *)
Lemma reachable_sets_ok body w : reachable body w -> sets_ok w.
Proof.
  induction 1 as [|fuel i w o w' _ IH H|fuel s a w o w' _ IH H
                 |fuel f args w o w' _ IH H|fuel h w o w' _ IH H].
  - intros c. apply set_like_nil.
  - exact (createObservable_sets_ok _ _ _ _ _ _ IH H).
  - exact (createStore_sets_ok _ _ _ _ _ _ _ IH H).
  - exact (call_sets_ok _ _ _ _ _ _ _ IH H).
  - exact (fire_sets_ok _ _ _ _ _ _ IH H).
Qed.

Lemma live_lookup l j t :
  live l !! j = Some t -> exists k, l !! k = Some (Some t).
Proof.
  intros Hj. assert (Hin : t ∈ live l) by (apply list_elem_of_lookup; eauto).
  unfold live in Hin. apply list_elem_of_omap in Hin as [[b|] [Hb1 Hb2]];
    [|discriminate].
  injection Hb2 as ->. apply list_elem_of_lookup in Hb1. exact Hb1.
Qed.

(** In a set, the present entries are pairwise different: one notification
    per entry is one notification per subscriber. *)
Lemma set_like_live l : forall i j s t,
  set_like l ->
  live l !! i = Some s -> live l !! j = Some t -> same_value_zero s t = true -> i = j.
Proof.
  induction l as [|e l IH]; intros i j s t Hl Hi Hj Hst; [destruct i; discriminate|].
  assert (Hl' : set_like l).
  { intros a b x y Ha Hb Hxy. assert (S a = S b) by (eapply Hl; eauto). lia. }
  destruct e as [a|]; [|rewrite live_cons_None in *; eapply IH; eauto].
  rewrite live_cons_Some in *.
  destruct i as [|i], j as [|j]; simpl in Hi, Hj.
  - reflexivity.
  - injection Hi as <-. destruct (live_lookup _ _ _ Hj) as [k Hk].
    assert (0 = S k); [|lia]. apply (Hl 0 (S k) a t); auto.
  - injection Hj as <-. destruct (live_lookup _ _ _ Hi) as [k Hk].
    assert (S k = 0); [|lia]. apply (Hl (S k) 0 s a); auto.
  - f_equal. eapply IH; eauto.
Qed.

(** ** Facts about the examples *)

Module DemoFacts.


Lemma sched_ok_one_cell subs : sched_ok 0 (Demo.one_cell subs).
Proof.
  split; [apply NoDup_nil_2|]. split; [intros t []|reflexivity].
Qed.


Lemma inv_one_cell subs : inv (Demo.one_cell subs).
Proof.
  intros d st H. destruct d as [|d]; [|destruct d; discriminate].
  injection H as <-. intros _. reflexivity.
Qed.

Lemma returns_0 args : finishes Demo.body (VFun 0) args (Return VUndef).
Proof. intros n w. reflexivity. Qed.

Lemma throws_1 args : finishes Demo.body (VFun 1) args (Throw (VStr "boom")).
Proof. intros n w. reflexivity. Qed.

Lemma sched_ok_open_batch subs : sched_ok 0 (Demo.open_batch subs).
Proof.
  split; [apply NoDup_singleton|]. split; [|reflexivity].
  intros t [<-|[]]. simpl. lia.
Qed.

End DemoFacts.

(** ** The claims *)

(** C3, as the code has it.  A cell that is not queued has [current] and
    [future] the same value: [current === future], or both are [NaN]
    (for a cell whose [current] is not [NaN] that is [current === future]).
    The invariant holds of every cell of the host before anything ran, the
    cell that [createObservable] adds is created with [current] and [future]
    the same value and not queued, and whatever returns control to the
    caller leaves the invariant standing: [createObservable], [createStore],
    a call of any callable value
    -- the closures [get], [set] (immediate or not, with a setter that throws
    or not), [clear], [subscribe], [unsubscribe], the closure that
    [subscribe] returned, any user function calling these in any order, to
    any depth -- and the scheduled [trigger] run by the host.  A throw that
    leaves the call leaves the invariant standing as well.  (So it holds in
    every reachable world: [reachable_wf].) *)
Theorem cell_invariant_preserved body fuel w :
  inv w ->
  (forall d st, cells w !! d = Some st -> queued st = false ->
     current st <> VNaN -> strict_eq (current st) (future st) = true) /\
  (forall initialValue o w',
     createObservable body fuel initialValue w = Some (o, w') ->
     inv w' /\ exists l v, cells w' = l ++ [Cell v v false 0 []]) /\
  (forall store actions o w',
     createStore body fuel store actions w = Some (o, w') -> inv w') /\
  (forall f args o w', call body fuel f args w = Some (o, w') -> inv w') /\
  (forall h o w', fire body fuel h w = Some (o, w') -> inv w').
Proof.
  intros Hw. split; [|split; [|split; [|split]]].
  - intros d st Hd Hq Hn. pose proof (Hw d st Hd Hq) as H.
    destruct (current st), (future st); simpl in *;
      try discriminate; try exact H. destruct (Hn eq_refl).
  - intros initialValue o w' H. split; [exact (createObservable_inv _ _ _ _ _ _ Hw H)|].
    unfold createObservable in H.
    destruct (readValue (call body fuel) initialValue VUndef w) as [[v w1]|];
      [|discriminate].
    injection H as _ <-. exists (cells w1), v. reflexivity.
  - intros store actions o w'. apply createStore_inv, Hw.
  - intros f args o w'. apply call_inv, Hw.
  - intros h o w'. apply fire_inv, Hw.
Qed.

Lemma inv_host0 : inv host0.
Proof. intros d st H. destruct d; discriminate. Qed.

Lemma cell_invariant_preserved_witness :
  inv (Demo.one_cell [Some (VFun 1)]) /\
  inv (World [Cell (VNum 6) (VNum 6) false 0 [Some (VFun 1)]] [] 1 0 []
             [Notified 0 (VFun 1) (VNum 6) (VNum 5)]).
Proof.
  split; [apply DemoFacts.inv_one_cell|].
  apply (proj1 (proj2 (proj2 (proj2 (cell_invariant_preserved Demo.body 3 _
                                       (DemoFacts.inv_one_cell [Some (VFun 1)])))))
           (VMethod MSet 0) [VFun 2; VBool true] (Throw (VStr "boom"))).
  reflexivity.
Defined.

(** C3 as stated fails: [createObservable(NaN)] creates a cell that is not
    queued and whose [current] is not [===] to its [future], since both are
    [NaN]; and an immediate write of [NaN] leaves any cell in that state. *)
Lemma a_cell_holding_NaN_is_not_strictly_equal :
  (exists o w',
     createObservable Demo.body 1 VNaN host0 = Some (Return o, w') /\
     queued (cell_of 0 w') = false /\
     current (cell_of 0 w') = VNaN /\
     future (cell_of 0 w') = VNaN /\
     strict_eq (current (cell_of 0 w')) (future (cell_of 0 w')) = false) /\
  (exists w',
     call Demo.body 2 (VMethod MSet 0) [VNaN; VBool true] (Demo.one_cell []) =
       Some (Return VUndef, w') /\
     queued (cell_of 0 w') = false /\
     strict_eq (current (cell_of 0 w')) (future (cell_of 0 w')) = false).
Proof.
  split.
  - eexists _, _. split; [lazy; reflexivity|]. repeat split.
  - eexists. split; [lazy; reflexivity|]. repeat split.
Qed.

(** C10.  When the initialiser given to [createObservable] is a function
    that throws, the exception is caught, the failure is logged with the
    initialiser, the state [undefined] and the error, and the cell is created
    with [current] and [future] both [undefined]: [readValue] was called
    without its second argument, which is what it falls back to.  [get()] of
    the new observable returns [undefined]. *)
Theorem throwing_initialiser_yields_undefined body fuel f e w w1 :
  is_function f = true ->
  call body fuel f [VUndef] w = Some (Throw e, w1) ->
  exists r w',
    createObservable body fuel f w =
      Some (Return (VObj r (observable_fields (length (cells w1)))), w') /\
    console w' = console w1 ++ [LogEntry f VUndef e] /\
    cells w' = cells w1 ++ [Cell VUndef VUndef false 0 []] /\
    forall k, call body (S k) (VMethod MGet (length (cells w1))) [] w' =
              Some (Return VUndef, w').
Proof.
  intros Hf Hcall. unfold createObservable, readValue. rewrite Hf, Hcall.
  eexists _, _. split; [reflexivity|]. split; [reflexivity|].
  split; [reflexivity|].
  intros k. rewrite call_S. unfold invoke. simpl cells.
  rewrite decide_True by (rewrite length_app; simpl; lia).
  unfold call_method, get, cell_of. simpl cells.
  rewrite lookup_app_r by lia. rewrite Nat.sub_diag. reflexivity.
Qed.

Lemma throwing_initialiser_yields_undefined_witness :
  exists r w',
    createObservable Demo.body 1 (VFun 1) host0 =
      Some (Return (VObj r (observable_fields 0)), w') /\
    console w' = [LogEntry (VFun 1) VUndef (VStr "boom")] /\
    cells w' = [Cell VUndef VUndef false 0 []] /\
    forall k, call Demo.body (S k) (VMethod MGet 0) [] w' = Some (Return VUndef, w').
Proof.
  exact (throwing_initialiser_yields_undefined Demo.body 1 (VFun 1) (VStr "boom")
           host0 host0 eq_refl eq_refl).
Defined.

(** C4.  Writing a value [x] that is [===] to the committed value notifies
    nobody, whichever way the commit comes: within an immediate [set], or
    from the host running the scheduled trigger after a non-immediate [set].
    The event trace, which records every invocation of a subscriber, is
    the same after the commit as before the write.  ([x] is a value and not
    a function: a function handed to [set] is a setter.) *)
Theorem no_op_write_notifies_nobody body n m c x imm w :
  c < length (cells w) ->
  sched_ok c w ->
  is_function x = false ->
  strict_eq (current (cell_of c w)) x = true ->
  (truthy imm = true ->
   exists w',
     call body (S (S n)) (VMethod MSet c) [x; imm] w = Some (Return VUndef, w') /\
     queued (cell_of c w') = false /\
     trace w' = trace w) /\
  (truthy imm = false ->
   exists w1 h w2,
     call body (S (S n)) (VMethod MSet c) [x; imm] w = Some (Return VUndef, w1) /\
     trace w1 = trace w /\
     pending c w1 = [h] /\
     fire body (S m) h w1 = Some (Return VUndef, w2) /\
     queued (cell_of c w2) = false /\
     trace w2 = trace w).
Proof.
  intros Hc Hs Hx Heq.
  assert (Hr : resolves body x (current (cell_of c w)) x None)
    by (constructor; exact Hx).
  split; intros Hi.
  - eexists. split.
    + apply (set_immediate body n c _ x x None); try assumption; try reflexivity.
      intros E. congruence.
    + simpl logged.
      rewrite cell_of_committed by (rewrite length_cells_forced; assumption).
      split; [reflexivity|].
      rewrite trace_committed, cell_of_forced by assumption. simpl.
      rewrite Heq. apply app_nil_r.
  - destruct (written_open c x w Hc Hs) as (Hq & Hcur & Hfut & Hsub & Hp).
    pose proof (sched_ok_written c x w Hc Hs) as Hs1.
    assert (Hc1 : c < length (cells (written c x w)))
      by (rewrite length_cells_written; assumption).
    exists (written c x w), (debounceId (cell_of c (written c x w))),
      (committed c (dequeue (debounceId (cell_of c (written c x w)))
                            (written c x w))).
    split; [|split; [|split; [|split]]].
    + exact (set_later body n c [x; imm] x x None w Hc eq_refl Hi Hr).
    + apply trace_written.
    + exact Hp.
    + apply fire_pending; try assumption; try reflexivity.
      rewrite Hcur, Hfut. intros E. congruence.
    + split.
      * rewrite cell_of_committed by assumption. reflexivity.
      * rewrite trace_committed.
        change (cell_of c (dequeue ?h ?y)) with (cell_of c y).
        rewrite Hcur, Hfut, Heq. simpl. rewrite app_nil_r. apply trace_written.
Qed.

Lemma no_op_write_notifies_nobody_witness :
  (exists w',
     call Demo.body 2 (VMethod MSet 0) [VNum 5; VBool true]
          (Demo.one_cell [Some (VFun 1)]) = Some (Return VUndef, w') /\
     queued (cell_of 0 w') = false /\
     trace w' = []) /\
  (exists w1 h w2,
     call Demo.body 2 (VMethod MSet 0) [VNum 5; VBool false]
          (Demo.one_cell [Some (VFun 1)]) = Some (Return VUndef, w1) /\
     trace w1 = [] /\
     pending 0 w1 = [h] /\
     fire Demo.body 1 h w1 = Some (Return VUndef, w2) /\
     queued (cell_of 0 w2) = false /\
     trace w2 = []).
Proof.
  split.
  - apply (proj1 (no_op_write_notifies_nobody Demo.body 0 0 0 (VNum 5) (VBool true)
                    (Demo.one_cell [Some (VFun 1)]) ltac:(simpl; lia)
                    (DemoFacts.sched_ok_one_cell _) eq_refl eq_refl)).
    reflexivity.
  - apply (proj2 (no_op_write_notifies_nobody Demo.body 0 0 0 (VNum 5) (VBool false)
                    (Demo.one_cell [Some (VFun 1)]) ltac:(simpl; lia)
                    (DemoFacts.sched_ok_one_cell _) eq_refl eq_refl)).
    reflexivity.
Defined.



(** C7.  Removing a subscriber.  [unsubscribe(fn)] and the closure that
    [subscribe(fn)] returned do the same thing: they empty the entry of [fn]
    in the subscriber set of the cell and change nothing else -- not the
    values, not the open batch, not the callback the host has pending for it.
    From then on, whatever the caller and the host do (any calls, any
    scheduled trigger, among them the one scheduled before the removal), the
    cell does not invoke [fn]: the events that follow contain no notification
    of [fn] by this cell unless they first contain [fn] being subscribed to
    it again. *)
Theorem unsubscribed_is_not_notified body c fn w :
  c < length (cells w) ->
  let gone :=
    upd c (fun st => with_subscribers (set_delete fn (subscribers st)) st) w in
  (forall n, call body (S n) (VMethod MUnsubscribe c) [fn] w =
             Some (Return VUndef, gone)) /\
  (forall n, exists k w1,
      call body (S n) (VMethod MSubscribe c) [fn] w =
      Some (Return (VUnsub k c fn), w1)) /\
  (forall n k, call body (S n) (VUnsub k c fn) [] w = Some (Return VUndef, gone)) /\
  absent fn (subscribers (cell_of c gone)) /\
  (current (cell_of c gone) = current (cell_of c w) /\
   future (cell_of c gone) = future (cell_of c w) /\
   queued (cell_of c gone) = queued (cell_of c w) /\
   debounceId (cell_of c gone) = debounceId (cell_of c w) /\
   timers gone = timers w /\ trace gone = trace w) /\
  forall fuel ts w',
    perform_all body fuel ts gone = Some w' ->
    exists new,
      trace w' = trace w ++ new /\
      (existsb (resubscribes fn c) new = false ->
       existsb (notifies fn c) new = false).
Proof.
  intros Hc gone.
  assert (Hgone : cell_of c gone =
                  with_subscribers (set_delete fn (subscribers (cell_of c w)))
                                   (cell_of c w))
    by (unfold gone; rewrite cell_of_upd by assumption; reflexivity).
  split; [|split; [|split; [|split; [|split]]]].
  - intros n. rewrite call_S. unfold invoke.
    rewrite decide_True by assumption. reflexivity.
  - intros n. rewrite call_S. unfold invoke.
    rewrite decide_True by assumption. eexists _, _. reflexivity.
  - intros n k. rewrite call_S. unfold invoke.
    rewrite decide_True by assumption. reflexivity.
  - rewrite Hgone. apply absent_after_delete.
  - rewrite Hgone. repeat split; reflexivity.
  - intros fuel ts w' Hrun.
    apply (not_notified_while_absent body fn c fuel ts gone w'); [|exact Hrun].
    rewrite Hgone. apply absent_after_delete.
Qed.

Lemma unsubscribed_is_not_notified_witness :
  exists w',
    perform_all Demo.body 5 [Tick 1; Invoke (VMethod MSet 0) [VNum 7; VBool true]]
      (upd 0 (fun st => with_subscribers (set_delete (VFun 0) (subscribers st)) st)
           (Demo.open_batch [Some (VFun 0); Some (VFun 2)])) = Some w' /\
    exists new,
      trace w' = [] ++ new /\
      (existsb (resubscribes (VFun 0) 0) new = false ->
       existsb (notifies (VFun 0) 0) new = false).
Proof.
  eexists. split; [lazy; reflexivity|].
  apply (proj2 (proj2 (proj2 (proj2 (proj2
           (unsubscribed_is_not_notified Demo.body 0 (VFun 0)
              (Demo.open_batch [Some (VFun 0); Some (VFun 2)])
              ltac:(simpl; lia)))))) 5
           [Tick 1; Invoke (VMethod MSet 0) [VNum 7; VBool true]]).
  reflexivity.
Defined.

Lemma sched_ok_same_schedule c w w' :
  timers w' = timers w -> next_handle w' = next_handle w ->
  queued (cell_of c w') = queued (cell_of c w) ->
  debounceId (cell_of c w') = debounceId (cell_of c w) ->
  sched_ok c w -> sched_ok c w'.
Proof.
  unfold sched_ok, pending. intros -> -> -> ->. auto.
Qed.

(** C8.  [clear()] empties every entry of the subscriber set of its cell and
    changes nothing else: [current], [future], [queued], [debounceId], the
    other cells, the callbacks the host has pending, the console and the
    trace are what they were.  Afterwards no function is notified by the cell
    unless it is subscribed again; [get()] returns what it returned before; a
    commit that was pending still moves [future] into [current] when the
    host runs it; and an immediate [set(x)] still commits [x]. *)
Theorem clear_drops_subscribers_only body c w :
  c < length (cells w) ->
  let cleared :=
    upd c (fun st => with_subscribers (set_clear (subscribers st)) st) w in
  (forall n, call body (S n) (VMethod MClear c) [] w = Some (Return VUndef, cleared)) /\
  live (subscribers (cell_of c cleared)) = [] /\
  (current (cell_of c cleared) = current (cell_of c w) /\
   future (cell_of c cleared) = future (cell_of c w) /\
   queued (cell_of c cleared) = queued (cell_of c w) /\
   debounceId (cell_of c cleared) = debounceId (cell_of c w)) /\
  (forall d, d <> c -> cell_of d cleared = cell_of d w) /\
  (timers cleared = timers w /\ next_handle cleared = next_handle w /\
   console cleared = console w /\ trace cleared = trace w) /\
  (forall fn fuel ts w',
     perform_all body fuel ts cleared = Some w' ->
     exists new,
       trace w' = trace w ++ new /\
       (existsb (resubscribes fn c) new = false ->
        existsb (notifies fn c) new = false)) /\
  (forall n, call body (S n) (VMethod MGet c) [] cleared =
             Some (Return (current (cell_of c w)), cleared)) /\
  (sched_ok c w -> queued (cell_of c w) = true ->
   forall m, length (subscribers (cell_of c w)) <= m ->
   exists w',
     fire body (S m) (debounceId (cell_of c w)) cleared = Some (Return VUndef, w') /\
     current (cell_of c w') =
       (if strict_eq (current (cell_of c w)) (future (cell_of c w))
        then current (cell_of c w) else future (cell_of c w)) /\
     trace w' = trace w) /\
  (sched_ok c w ->
   forall n x imm, length (subscribers (cell_of c w)) <= n ->
   is_function x = false -> truthy imm = true ->
   exists w',
     call body (S (S n)) (VMethod MSet c) [x; imm] cleared = Some (Return VUndef, w') /\
     current (cell_of c w') =
       (if strict_eq (current (cell_of c w)) x then current (cell_of c w) else x) /\
     trace w' = trace w).
Proof.
  intros Hc cleared.
  assert (Hst : cell_of c cleared =
                with_subscribers (set_clear (subscribers (cell_of c w)))
                                 (cell_of c w))
    by (unfold cleared; rewrite cell_of_upd by assumption; reflexivity).
  assert (Hlen : length (cells cleared) = length (cells w))
    by apply length_cells_upd.
  assert (Hlive : live (subscribers (cell_of c cleared)) = [])
    by (rewrite Hst; apply live_set_clear).
  assert (Hsched : sched_ok c w -> sched_ok c cleared).
  { apply sched_ok_same_schedule; try reflexivity; rewrite Hst; reflexivity. }
  assert (Hquiet : forall nv ov, quiet body c nv ov cleared).
  { intros nv ov s Hs. rewrite Hlive in Hs. destruct Hs. }
  assert (Hsubs : length (subscribers (cell_of c cleared)) =
                  length (subscribers (cell_of c w))).
  { rewrite Hst. simpl. unfold set_clear. apply length_map. }
  split; [|split; [exact Hlive|split; [|split; [|split; [|split; [|split; [|split]]]]]]].
  - intros n. rewrite call_S. unfold invoke.
    rewrite decide_True by assumption. reflexivity.
  - rewrite Hst. repeat split; reflexivity.
  - intros d Hd. apply cell_of_upd_ne. congruence.
  - repeat split; reflexivity.
  - intros fn fuel ts w' Hrun.
    apply (not_notified_while_absent body fn c fuel ts cleared w'); [|exact Hrun].
    rewrite Hst. apply absent_set_clear.
  - intros n. rewrite call_S. unfold invoke.
    rewrite decide_True by (rewrite Hlen; assumption).
    unfold call_method, get. rewrite Hst. reflexivity.
  - intros Hs Hq m Hm. eexists. split.
    + apply (fire_pending body m _ c cleared).
      * rewrite Hlen; assumption.
      * apply Hsched, Hs.
      * rewrite Hst; exact Hq.
      * rewrite Hst; reflexivity.
      * intros _. split; [apply Hquiet | rewrite Hsubs; exact Hm].
    + rewrite cell_of_committed by (simpl; rewrite ?length_alter; assumption).
      rewrite trace_committed.
      change (cell_of c (dequeue ?h ?y)) with (cell_of c y).
      rewrite Hlive, Hst. simpl.
      destruct (strict_eq (current (cell_of c w)) (future (cell_of c w)));
        simpl; rewrite app_nil_r; auto.
  - intros Hs n x imm Hn Hx Hi. eexists. split.
    + apply (set_immediate body n c [x; imm] x x None cleared);
        [rewrite Hlen; assumption | reflexivity | exact Hi
        | constructor; exact Hx |].
      intros _. split; [apply Hquiet | rewrite Hsubs; exact Hn].
    + simpl logged.
      rewrite cell_of_committed by (rewrite length_cells_forced, Hlen; assumption).
      rewrite trace_committed.
      rewrite cell_of_forced by (rewrite Hlen; assumption).
      rewrite Hst. simpl. rewrite live_set_clear.
      destruct (strict_eq (current (cell_of c w)) x);
        simpl; rewrite app_nil_r; auto.
Qed.

Lemma clear_drops_subscribers_only_witness :
  exists w',
    fire Demo.body 3 1
      (upd 0 (fun st => with_subscribers (set_clear (subscribers st)) st)
           (Demo.open_batch [Some (VFun 1); Some (VFun 0)])) =
      Some (Return VUndef, w') /\
    current (cell_of 0 w') = VNum 6 /\
    trace w' = [].
Proof.
  exact (proj1 (proj2 (proj2 (proj2 (proj2 (proj2 (proj2 (proj2
           (clear_drops_subscribers_only Demo.body 0
              (Demo.open_batch [Some (VFun 1); Some (VFun 0)])
              ltac:(simpl; lia)))))))))
           (DemoFacts.sched_ok_open_batch _) eq_refl 2 ltac:(simpl; lia)).
Defined.

(** C1, as the code has it.  Starting from committed value [v0], one or more
    non-immediate writes (so in particular two or more) whose arguments are
    plain values or setters that finish without calling back into the
    library, the last one resolving to [vk]; then the host runs the scheduled
    trigger.  If [vk] is not [===] to [v0] and every subscriber returns when
    called with [(vk, v0)] without calling back, then: until the tick
    [current] is still [v0] and nothing is notified; the tick commits [vk];
    and all the events of the scenario are one invocation of each subscriber,
    in insertion order, with [newValue = vk] and [oldValue = v0].  No other
    value reaches a subscriber. *)
Theorem coalesced_commit body n m c ws ak v0 vk lg w :
  c < length (cells w) ->
  sched_ok c w ->
  current (cell_of c w) = v0 ->
  Forall (fun a => exists v l, resolves body a v0 v l) ws ->
  resolves body ak v0 vk lg ->
  strict_eq v0 vk = false ->
  quiet body c vk v0 w ->
  length (subscribers (cell_of c w)) <= m ->
  exists w1 h w2,
    set_each body (S (S n)) c (ws ++ [ak]) w = Some (Return VUndef, w1) /\
    current (cell_of c w1) = v0 /\
    trace w1 = trace w /\
    pending c w1 = [h] /\
    fire body (S m) h w1 = Some (Return VUndef, w2) /\
    current (cell_of c w2) = vk /\
    queued (cell_of c w2) = false /\
    pending c w2 = [] /\
    trace w2 = trace w ++ pass c vk v0 (live (subscribers (cell_of c w))).
Proof.
  intros Hc Hs <-. revert w Hc Hs.
  induction ws as [|a ws IH]; intros w Hc Hs Hws Hak Hne Hq Hm.
  - set (w1 := written c vk (logged lg w)).
    assert (Hc' : c < length (cells (logged lg w)))
      by (rewrite length_cells_logged; exact Hc).
    assert (Hs' : sched_ok c (logged lg w)) by (apply sched_ok_logged, Hs).
    destruct (written_open c vk (logged lg w) Hc' Hs')
      as (Hq1 & Hcur & Hfut & Hsub & Hp).
    rewrite cell_of_logged in Hcur, Hsub. fold w1 in Hq1, Hcur, Hfut, Hsub, Hp.
    assert (Hc1 : c < length (cells w1))
      by (unfold w1; rewrite length_cells_written; exact Hc').
    assert (Hs1 : sched_ok c w1) by (apply sched_ok_written; assumption).
    exists w1, (debounceId (cell_of c w1)),
      (committed c (dequeue (debounceId (cell_of c w1)) w1)).
    split; [|split; [exact Hcur|split; [|split; [exact Hp|split]]]].
    + cbn [app set_each]. rewrite (set_later body n c [ak] ak vk lg w Hc eq_refl eq_refl Hak).
      reflexivity.
    + unfold w1. rewrite trace_written. apply trace_logged.
    + apply fire_pending; try assumption; try reflexivity.
      rewrite Hcur, Hfut. intros _. split; [|rewrite Hsub; exact Hm].
      intros s. unfold quiet in Hq. rewrite Hsub. apply Hq.
    + rewrite cell_of_committed by assumption.
      rewrite trace_committed.
      change (cell_of c (dequeue ?h ?y)) with (cell_of c y).
      rewrite Hcur, Hfut, Hsub, Hne. simpl.
      split; [reflexivity|]. split; [reflexivity|].
      split; [apply (sched_ok_fired c w1 Hc1 Hs1 Hq1)|].
      unfold w1. rewrite trace_written, trace_logged. reflexivity.
  - apply Forall_cons in Hws as [(v & l & Ha) Hws].
    set (w' := written c v (logged l w)).
    assert (Hc' : c < length (cells (logged l w)))
      by (rewrite length_cells_logged; exact Hc).
    assert (Hs' : sched_ok c (logged l w)) by (apply sched_ok_logged, Hs).
    destruct (written_open c v (logged l w) Hc' Hs')
      as (_ & Hcur & _ & Hsub & _).
    rewrite cell_of_logged in Hcur, Hsub. fold w' in Hcur, Hsub.
    assert (Hq' : quiet body c vk (current (cell_of c w')) w').
    { unfold quiet. rewrite Hcur, Hsub. exact Hq. }
    destruct (IH w') as (w1 & h & w2 & H1 & H2 & H3 & H4 & H5 & H6 & H7 & H8 & H9).
    + unfold w'. rewrite length_cells_written. exact Hc'.
    + apply sched_ok_written; assumption.
    + rewrite Hcur. exact Hws.
    + rewrite Hcur. exact Hak.
    + rewrite Hcur. exact Hne.
    + exact Hq'.
    + rewrite Hsub. exact Hm.
    + exists w1, h, w2.
      rewrite Hcur, Hsub in *.
      assert (Ht : trace w' = trace w)
        by (unfold w'; rewrite trace_written; apply trace_logged).
      rewrite Ht in *.
      split; [|auto 10].
      cbn [app set_each]. rewrite (set_later body n c [a] a v l w Hc eq_refl eq_refl Ha).
      exact H1.
Qed.

Lemma coalesced_commit_witness :
  exists w1 h w2,
    set_each Demo.body 2 0 [VNum 1; VFun 1; VFun 2]
             (Demo.one_cell [Some (VFun 0); None; Some (VFun 2)]) =
      Some (Return VUndef, w1) /\
    current (cell_of 0 w1) = VNum 5 /\
    trace w1 = [] /\
    pending 0 w1 = [h] /\
    fire Demo.body 4 h w1 = Some (Return VUndef, w2) /\
    current (cell_of 0 w2) = VNum 6 /\
    queued (cell_of 0 w2) = false /\
    pending 0 w2 = [] /\
    trace w2 = [Notified 0 (VFun 0) (VNum 6) (VNum 5);
                Notified 0 (VFun 2) (VNum 6) (VNum 5)].
Proof.
  apply (coalesced_commit Demo.body 0 3 0 [VNum 1; VFun 1] (VFun 2)
           (VNum 5) (VNum 6) None
           (Demo.one_cell [Some (VFun 0); None; Some (VFun 2)])).
  - simpl; lia.
  - apply DemoFacts.sched_ok_one_cell.
  - reflexivity.
  - repeat constructor.
    + exists (VNum 1), None. constructor. reflexivity.
    + exists (VNum 5), (Some (LogEntry (VFun 1) (VNum 5) (VStr "boom"))).
      apply resolves_throw; [reflexivity|apply DemoFacts.throws_1].
  - apply resolves_return; [reflexivity|]. intros n w. reflexivity.
  - reflexivity.
  - intros s Hs. simpl in Hs. destruct Hs as [<-|[<-|[]]].
    + exists VUndef. apply DemoFacts.returns_0.
    + exists (VNum 7). intros k w. reflexivity.
  - simpl; lia.
Defined.

(** C1 as stated fails: with the subscribers [VFun 1], which throws, and
    [VFun 0] after it, the writes [set(1); set(2)] on a cell holding 5 and
    the tick invoke [VFun 1] with [(2, 5)], its exception ends the pass, and
    [VFun 0] is not invoked. *)
Lemma coalescing_stops_at_a_throwing_subscriber :
  exists w1 w2,
    set_each Demo.body 5 0 [VNum 1; VNum 2]
             (Demo.one_cell [Some (VFun 1); Some (VFun 0)]) =
      Some (Return VUndef, w1) /\
    pending 0 w1 = [1] /\
    live (subscribers (cell_of 0 w1)) = [VFun 1; VFun 0] /\
    fire Demo.body 5 1 w1 = Some (Throw (VStr "boom"), w2) /\
    current (cell_of 0 w2) = VNum 2 /\
    trace w2 = [Notified 0 (VFun 1) (VNum 2) (VNum 5)] /\
    forall nv ov, ~ In (Notified 0 (VFun 0) nv ov) (trace w2).
Proof.
  eexists _, _. split; [lazy; reflexivity|].
  split; [reflexivity|]. split; [reflexivity|]. split; [lazy; reflexivity|].
  split; [reflexivity|]. split; [reflexivity|].
  intros nv ov [H|[]]. discriminate.
Qed.

(** C2, as the code has it.  [set(x, immediate)] with a value [x] and a
    truthy [immediate], on any state of the cell, an open batch included.
    When [x] is [===] to [current], or else when the subscribers return
    without calling back into the library: the callback that was pending for
    the cell is cancelled and the commit procedure runs before [set]
    returns.  Afterwards [get()] returns [x] (when [x] was already [===] to
    [current], the [current] it leaves in place; in either case a value
    [===] to [x], unless [x] is [NaN], which is [===] to nothing), the cell
    is not queued,
    nothing is pending for it, and a stale trigger would find nothing to do,
    so the batch that was pending produces no commit of its own.  Within the
    call every subscriber is invoked once with [(x, old)] when [x] is not
    [===] to the old [current]; when it is, nobody is notified. *)
Theorem immediate_write_commits_now body n c x imm w :
  c < length (cells w) ->
  sched_ok c w ->
  is_function x = false ->
  truthy imm = true ->
  (strict_eq (current (cell_of c w)) x = false ->
   quiet body c x (current (cell_of c w)) w /\
   length (subscribers (cell_of c w)) <= n) ->
  exists w',
    call body (S (S n)) (VMethod MSet c) [x; imm] w = Some (Return VUndef, w') /\
    (forall k, call body (S k) (VMethod MGet c) [] w' =
               Some (Return (current (cell_of c w')), w')) /\
    current (cell_of c w') =
      (if strict_eq (current (cell_of c w)) x then current (cell_of c w) else x) /\
    (x <> VNaN -> strict_eq (current (cell_of c w')) x = true) /\
    same_value_zero (current (cell_of c w')) x = true /\
    future (cell_of c w') = x /\
    queued (cell_of c w') = false /\
    pending c w' = [] /\
    (forall k b, trigger (call body k) b c w' = Some (Return VUndef, w')) /\
    trace w' =
      trace w ++
      (if strict_eq (current (cell_of c w)) x then []
       else pass c x (current (cell_of c w)) (live (subscribers (cell_of c w)))).
Proof.
  intros Hc Hs Hx Hi Hq.
  set (w' := committed c (forced c x w)).
  assert (Hc' : c < length (cells (forced c x w)))
    by (rewrite length_cells_forced; exact Hc).
  assert (Hst : cell_of c w' =
                with_queued false
                  (if strict_eq (current (cell_of c w)) x
                   then with_queued true (with_future x (cell_of c w))
                   else with_current x
                          (with_queued true (with_future x (cell_of c w))))).
  { unfold w'. rewrite cell_of_committed by assumption.
    rewrite cell_of_forced by assumption. reflexivity. }
  assert (Hlen : c < length (cells w'))
    by (unfold w'; rewrite length_cells_committed; exact Hc').
  exists w'.
  split; [|split; [|split; [|split; [|split; [|split; [|split; [|split; [|split]]]]]]]].
  - apply (set_immediate body n c [x; imm] x x None w); try assumption;
      try reflexivity.
    constructor; exact Hx.
  - intros k. rewrite call_S. unfold invoke.
    rewrite decide_True by assumption. reflexivity.
  - rewrite Hst. destruct (strict_eq (current (cell_of c w)) x); reflexivity.
  - intros Hnan. rewrite Hst.
    destruct (strict_eq (current (cell_of c w)) x) eqn:E; simpl;
      [exact E|apply strict_eq_refl, Hnan].
  - rewrite Hst. destruct (strict_eq (current (cell_of c w)) x) eqn:E; simpl;
      [apply strict_eq_same_value_zero, E|apply same_value_zero_refl].
  - rewrite Hst. destruct (strict_eq (current (cell_of c w)) x); reflexivity.
  - rewrite Hst. reflexivity.
  - apply (sched_ok_immediate c x w Hc Hs).
  - intros k b. unfold trigger. rewrite Hst. reflexivity.
  - unfold w'. rewrite trace_committed.
    rewrite cell_of_forced by assumption. reflexivity.
Qed.

Lemma immediate_write_commits_now_witness :
  exists w',
    call Demo.body 4 (VMethod MSet 0) [VNum 9; VBool true]
         (Demo.open_batch [Some (VFun 0); Some (VFun 2)]) =
      Some (Return VUndef, w') /\
    (forall k, call Demo.body (S k) (VMethod MGet 0) [] w' =
               Some (Return (current (cell_of 0 w')), w')) /\
    current (cell_of 0 w') = VNum 9 /\
    (VNum 9 <> VNaN -> strict_eq (current (cell_of 0 w')) (VNum 9) = true) /\
    same_value_zero (current (cell_of 0 w')) (VNum 9) = true /\
    future (cell_of 0 w') = VNum 9 /\
    queued (cell_of 0 w') = false /\
    pending 0 w' = [] /\
    (forall k b, trigger (call Demo.body k) b 0 w' = Some (Return VUndef, w')) /\
    trace w' = [Notified 0 (VFun 0) (VNum 9) (VNum 5);
                Notified 0 (VFun 2) (VNum 9) (VNum 5)].
Proof.
  apply (immediate_write_commits_now Demo.body 2 0 (VNum 9) (VBool true)
           (Demo.open_batch [Some (VFun 0); Some (VFun 2)])).
  - simpl; lia.
  - apply DemoFacts.sched_ok_open_batch.
  - reflexivity.
  - reflexivity.
  - intros _. split; [|simpl; lia].
    intros s Hs. simpl in Hs. destruct Hs as [<-|[<-|[]]].
    + exists VUndef. apply DemoFacts.returns_0.
    + exists (VNum 10). intros k w. reflexivity.
Defined.

(** C2 as stated fails: an immediate write of the value the cell already
    holds notifies nobody, although the cell has a subscriber. *)
Lemma immediate_write_of_same_value_notifies_nobody :
  exists w',
    call Demo.body 4 (VMethod MSet 0) [VNum 5; VBool true]
         (Demo.one_cell [Some (VFun 0)]) = Some (Return VUndef, w') /\
    live (subscribers (cell_of 0 w')) = [VFun 0] /\
    current (cell_of 0 w') = VNum 5 /\
    trace w' = [].
Proof.
  eexists. split; [lazy; reflexivity|]. repeat split.
Qed.

(** How a notification pass can end: normally with [undefined], or with
    what one of the subscribers it called threw. *)
Lemma emit_from_outcome callf n c nv ov : forall i w o w',
  emit_from callf n c i nv ov w = Some (o, w') ->
  o = Return VUndef \/
  exists e s w0,
    o = Throw e /\
    In (Some s) (subscribers (cell_of c w0)) /\
    callf s [nv; ov] (record (Notified c s nv ov) w0) = Some (Throw e, w').
Proof.
  induction n as [|n IH]; intros i w o w'; simpl; [discriminate|].
  destruct (subscribers (cell_of c w) !! i) as [[s|]|] eqn:Hi.
  - destruct (callf s [nv; ov] (record (Notified c s nv ov) w))
      as [[[r|e] w1]|] eqn:E; [apply IH| |discriminate].
    intros [= <- <-]. right. exists e, s, w. split; [reflexivity|].
    split; [|exact E].
    apply list_elem_of_In, list_elem_of_lookup. exists i. exact Hi.
  - apply IH.
  - intros [= <- _]. left. reflexivity.
Qed.

(** C6, as the code has it.  Whatever its arguments and whatever the user
    functions do, [set] returns [undefined] or ends with an exception, and
    an exception that leaves [set] is one that a subscriber threw while the
    commit procedure of an immediate write was notifying it: nothing that
    the value or setter argument throws gets out, and a non-immediate [set]
    does not throw at all.  With arguments and subscribers that finish
    without calling back, a non-immediate [set] does return, and so does an
    immediate one whose subscribers return. *)
Theorem set_throws_only_what_a_subscriber_threw body n c a imm w :
  c < length (cells w) ->
  (forall o w',
     call body (S n) (VMethod MSet c) [a; imm] w = Some (o, w') ->
     o = Return VUndef \/
     (truthy imm = true /\
      exists e s nv ov w0,
        o = Throw e /\
        In (Some s) (subscribers (cell_of c w0)) /\
        call body n s [nv; ov] (record (Notified c s nv ov) w0) =
          Some (Throw e, w'))) /\
  (forall v lg,
     resolves body a (current (cell_of c w)) v lg ->
     truthy imm = false ->
     exists w', call body (S (S n)) (VMethod MSet c) [a; imm] w =
                Some (Return VUndef, w')) /\
  (forall v lg,
     resolves body a (current (cell_of c w)) v lg ->
     truthy imm = true ->
     quiet body c v (current (cell_of c w)) w ->
     length (subscribers (cell_of c w)) <= n ->
     exists w', call body (S (S n)) (VMethod MSet c) [a; imm] w =
                Some (Return VUndef, w')).
Proof.
  intros Hc. split; [|split].
  - intros o w'. rewrite call_S. unfold invoke.
    rewrite decide_True by assumption. cbn [call_method]. unfold set.
    change (arg 0 [a; imm]) with a. change (arg 1 [a; imm]) with imm.
    destruct (readValue (call body n) a (current (cell_of c w)) w)
      as [[v w1]|]; [|discriminate].
    destruct (truthy imm).
    + unfold trigger.
      destruct (negb _); [intros [= <- _]; left; reflexivity|].
      destruct (strict_eq _ _); [intros [= <- _]; left; reflexivity|].
      unfold emit. intros H.
      destruct (emit_from_outcome _ _ _ _ _ _ _ _ _ H)
        as [->|(e & s & w0 & -> & Hin & Hcall)]; [left; reflexivity|].
      right. split; [reflexivity|]. eexists e, s, _, _, w0. eauto.
    + destruct (negb _); simpl; intros [= <- _]; left; reflexivity.
  - intros v lg Hr Hi. eexists.
    apply (set_later body n c [a; imm] a v lg w); auto.
  - intros v lg Hr Hi Hq Hn. eexists.
    apply (set_immediate body n c [a; imm] a v lg w); auto.
Qed.

Lemma set_throws_only_what_a_subscriber_threw_witness :
  exists w', call Demo.body 3 (VMethod MSet 0) [VFun 1; VUndef]
                  (Demo.one_cell [Some (VFun 1)]) = Some (Return VUndef, w').
Proof.
  apply (proj1 (proj2 (set_throws_only_what_a_subscriber_threw Demo.body 1 0
                         (VFun 1) VUndef (Demo.one_cell [Some (VFun 1)])
                         ltac:(simpl; lia)))
           (VNum 5) (Some (LogEntry (VFun 1) (VNum 5) (VStr "boom")))).
  - apply resolves_throw; [reflexivity|apply DemoFacts.throws_1].
  - reflexivity.
Defined.

(** C6 as stated fails: an immediate write to a cell whose subscriber throws
    ends with that exception reaching the caller of [set]. *)
Lemma immediate_set_lets_a_subscriber_exception_out :
  exists w',
    call Demo.body 3 (VMethod MSet 0) [VNum 6; VBool true]
         (Demo.one_cell [Some (VFun 1)]) = Some (Throw (VStr "boom"), w') /\
    current (cell_of 0 w') = VNum 6 /\
    console w' = [].
Proof.
  eexists. split; [lazy; reflexivity|]. split; reflexivity.
Qed.

(** C9, as the code has it.  [createStore] creates one observable: a new
    cell at the end of the heap and the object of its five closures.  It
    calls the actions factory once, with that object; if the factory throws,
    so does [createStore].  Otherwise it returns a new object in which every
    member of the factory's result is found under its name, and in which a
    name that the factory's result does not use is what it is in the
    observable: [get], [set], [clear], [subscribe] and [unsubscribe] of that
    same cell are there unless the factory's result has a member of the same
    name, which then takes the place.  The members of the factory's result
    are what the spread copies: the own properties of an object (the names
    in its snapshot being distinct), the characters of a string under their
    indices, nothing for any other value; so a factory returning the string
    ["ab"] yields a store with the members [0] and [1] listed before the five
    of the observable.  In the example of the specification, [inc()]
    followed by the host running the scheduled commit leaves
    [get().count === 1]. *)
Theorem createStore_merges_observable_and_actions :
  (forall body fuel store w o1 w1,
     createObservable body fuel store w = Some (o1, w1) ->
     exists r c l v,
       o1 = Return (VObj r (observable_fields c)) /\
       cells w1 = l ++ [Cell v v false 0 []] /\
       c = length l) /\
  (forall body fuel store actions w state w1 e w2,
     createObservable body fuel store w = Some (Return state, w1) ->
     call body fuel actions [state] w1 = Some (Throw e, w2) ->
     createStore body fuel store actions w = Some (Throw e, w2)) /\
  (forall body fuel store actions w r c w1 a w2,
     createObservable body fuel store w =
       Some (Return (VObj r (observable_fields c)), w1) ->
     call body fuel actions [VObj r (observable_fields c)] w1 =
       Some (Return a, w2) ->
     (forall r0 fs, a = VObj r0 fs -> distinct_keys fs) ->
     exists r' members w3,
       createStore body fuel store actions w =
         Some (Return (VObj r' members), w3) /\
       cells w3 = cells w2 /\
       (forall k x, lookup_field k (own_fields a) = Some x ->
                    lookup_field k members = Some x) /\
       (forall k, lookup_field k (own_fields a) = None ->
                  lookup_field k members = lookup_field k (observable_fields c))) /\
  (exists store inc get w1 w2 h w3 r fs,
     createStore Demo.body 2 (VObj 7 [("count", VNum 0)]) (VFun 4) host0 =
       Some (Return store, w1) /\
     lookup_field "inc" (own_fields store) = Some inc /\
     lookup_field "get" (own_fields store) = Some get /\
     call Demo.body 3 inc [] w1 = Some (Return VUndef, w2) /\
     call Demo.body 1 get [] w2 = Some (Return (VObj 7 [("count", VNum 0)]), w2) /\
     pending 0 w2 = [h] /\
     fire Demo.body 1 h w2 = Some (Return VUndef, w3) /\
     call Demo.body 1 get [] w3 = Some (Return (VObj r fs), w3) /\
     lookup_field "count" fs = Some (VNum 1)) /\
  (exists r members w',
     createStore (fun _ _ => Done (Return (VStr "ab"))) 1 (VNum 0) (VFun 0) host0 =
       Some (Return (VObj r members), w') /\
     map fst members =
       ["0"; "1"; "get"; "set"; "clear"; "subscribe"; "unsubscribe"] /\
     lookup_field "0" members = Some (VStr "a") /\
     lookup_field "1" members = Some (VStr "b") /\
     lookup_field "get" members = Some (VMethod MGet 0)).
Proof.
  split; [|split; [|split; [|split]]].
  - intros body fuel store w o1 w1 Hobs. unfold createObservable in Hobs.
    destruct (readValue (call body fuel) store VUndef w) as [[v w0]|];
      [|discriminate].
    injection Hobs as <- <-.
    exists (next_ref w0), (length (cells w0)), (cells w0), v. auto.
  - intros body fuel store actions w state w1 e w2 Hobs Hcall.
    unfold createStore. rewrite Hobs, Hcall. reflexivity.
  - intros body fuel store actions w r c w1 a w2 Hobs Hcall Hobj.
    pose proof (distinct_keys_own_fields a Hobj) as Ha.
    unfold createStore. rewrite Hobs, Hcall.
    eexists _, _, _. split; [reflexivity|]. split; [reflexivity|].
    simpl own_fields. split.
    + intros k x Hk.
      rewrite lookup_field_spread, Hk by auto using distinct_keys_observable.
      reflexivity.
    + intros k Hk.
      rewrite lookup_field_spread, Hk by auto using distinct_keys_observable.
      reflexivity.
  - eexists _, _, _, _, _, _, _, _, _.
    split; [lazy; reflexivity|]. split; [reflexivity|]. split; [reflexivity|].
    split; [lazy; reflexivity|]. split; [reflexivity|]. split; [reflexivity|].
    split; [lazy; reflexivity|]. split; reflexivity.
  - eexists _, _, _. split; [lazy; reflexivity|]. repeat split.
Qed.

Lemma createStore_merges_observable_and_actions_witness :
  exists r' members w3,
    createStore Demo.body 2 (VNum 0) (VFun 4) host0 =
      Some (Return (VObj r' members), w3) /\
    cells w3 = [Cell (VNum 0) (VNum 0) false 0 []] /\
    (forall k x, lookup_field k [("inc", VFun 10)] = Some x ->
                 lookup_field k members = Some x) /\
    (forall k, lookup_field k [("inc", VFun 10)] = None ->
               lookup_field k members = lookup_field k (observable_fields 0)).
Proof.
  apply (proj1 (proj2 (proj2 createStore_merges_observable_and_actions))
           Demo.body 2 (VNum 0) (VFun 4) host0 0 0
           (World [Cell (VNum 0) (VNum 0) false 0 []] [] 1 1 [] [])
           (VObj 100 [("inc", VFun 10)])
           (World [Cell (VNum 0) (VNum 0) false 0 []] [] 1 1 [] [])).
  - reflexivity.
  - reflexivity.
  - intros r0 fs [= _ <-]. unfold distinct_keys. simpl. apply NoDup_singleton.
Defined.

(** C9 as stated fails: when the factory's result has a member called [get],
    the store's [get] is that member and not the closure of the observable. *)
Lemma createStore_lets_an_action_replace_get :
  exists r members w',
    createStore Demo.body 2 (VNum 0) (VFun 5) host0 =
      Some (Return (VObj r members), w') /\
    lookup_field "get" members = Some (VFun 0) /\
    lookup_field "get" (observable_fields 0) = Some (VMethod MGet 0) /\
    ~ In (VMethod MGet 0) (map snd members).
Proof.
  eexists _, _, _. split; [lazy; reflexivity|]. split; [reflexivity|].
  split; [reflexivity|]. simpl. intuition discriminate.
Qed.

(** * Further properties of the code *)

(** ** What holds in every world the library reaches *)

Lemma perform_all_reachable body fuel ts : forall w w',
  reachable body w -> perform_all body fuel ts w = Some w' -> reachable body w'.
Proof.
  induction ts as [|t ts IH]; intros w w' Hw; simpl.
  - intros [= <-]; exact Hw.
  - destruct (perform body fuel t w) as [[o w1]|] eqn:E; [|discriminate].
    apply IH. destruct t as [f args|h]; simpl in E.
    + exact (reachable_call _ _ _ _ _ _ _ Hw E).
    + exact (reachable_fire _ _ _ _ _ _ Hw E).
Qed.

Module SessionFacts.

Lemma reachable_created : reachable Demo.body Session.created.
Proof.
  apply (reachable_createObservable Demo.body 1 (VNum 0) host0
           (Return (VObj 0 (observable_fields 0)))).
  - apply reachable_host0.
  - reflexivity.
Qed.

Lemma reachable_final : reachable Demo.body Session.final.
Proof.
  apply (perform_all_reachable Demo.body 5 Session.script Session.created).
  - exact reachable_created.
  - reflexivity.
Qed.

End SessionFacts.

Lemma one_cell_per_handle (l : list (nat * nat)) (h c d : nat) :
  NoDup (map fst l) -> In (h, c) l -> In (h, d) l -> c = d.
Proof.
  intros Hnd Hc Hd.
  pose proof (find_handle l h c Hnd Hc) as H1.
  pose proof (find_handle l h d Hnd Hd) as H2.
  congruence.
Qed.

(** X1.  The scheduler's bookkeeping, in every world the library reaches
    from a fresh host, whatever the user functions do (they may call back
    into the library at any point and may throw): a cell has a callback
    pending with the host exactly while its batch is open ([queued]), then
    exactly one, under the handle that [debounceId] holds; and a handle is
    never pending for two cells. *)
Theorem at_most_one_pending_callback body w c :
  reachable body w -> c < length (cells w) ->
  pending c w =
    (if queued (cell_of c w) then [debounceId (cell_of c w)] else []) /\
  length (pending c w) <= 1 /\
  forall d h, In h (pending c w) -> In h (pending d w) -> d = c.
Proof.
  intros Hr Hc. destruct (reachable_wf body w Hr) as [Hwf _].
  destruct (wf_sched_ok c w Hwf Hc) as (Hnd & _ & Hp).
  split; [exact Hp|]. split.
  - rewrite Hp. destruct (queued (cell_of c w)); simpl; lia.
  - intros d h H1 H2. apply pending_In in H1, H2.
    exact (one_cell_per_handle _ h d c Hnd H2 H1).
Qed.

Lemma at_most_one_pending_callback_witness :
  pending 0 Session.final = [1] /\
  length (pending 0 Session.final) <= 1 /\
  forall d h, In h (pending 0 Session.final) -> In h (pending d Session.final) ->
              d = 0.
Proof.
  apply (at_most_one_pending_callback Demo.body Session.final 0).
  - exact SessionFacts.reachable_final.
  - simpl; lia.
Defined.

(** X2.  In every world the library reaches, whatever the user functions
    do, the subscribers of a cell are pairwise different functions: no
    function holds two places in the list that [emit] walks, however often
    it was passed to [subscribe].  (Different as a [Set] has it: not [===],
    and not both [NaN].) *)
Theorem subscribers_are_pairwise_different body w c i j s t :
  reachable body w ->
  live (subscribers (cell_of c w)) !! i = Some s ->
  live (subscribers (cell_of c w)) !! j = Some t ->
  same_value_zero s t = true ->
  i = j.
Proof.
  intros Hr Hi Hj Hst.
  exact (set_like_live _ i j s t (reachable_sets_ok body w Hr c) Hi Hj Hst).
Qed.

Lemma subscribers_are_pairwise_different_witness :
  live (subscribers (cell_of 0 Session.final)) = [VFun 0] /\ 0 = 0.
Proof.
  split; [reflexivity|].
  apply (subscribers_are_pairwise_different Demo.body Session.final 0 0 0
           (VFun 0) (VFun 0)).
  - exact SessionFacts.reachable_final.
  - reflexivity.
  - reflexivity.
  - reflexivity.
Defined.

(** X3.  In every world the library reaches, whatever the user functions
    do, every invocation of a subscriber that [emit] ever made passed an
    old value and a new value that are not [===]: no path through [set] and
    [trigger], re-entrant or not, notifies without a change. *)
Theorem every_notification_reports_a_change body w c s nv ov :
  reachable body w ->
  In (Notified c s nv ov) (trace w) ->
  strict_eq ov nv = false.
Proof.
  intros Hr. revert c s nv ov.
  apply (reachable_P body
           (fun w => forall c s nv ov, In (Notified c s nv ov) (trace w) ->
                                       strict_eq ov nv = false)); [| | | | | |exact Hr].
  - intros w0 w1 _ Ht H. rewrite Ht. exact H.
  - intros c s nv ov w0 Hne _ H c' s' nv' ov' Hin. simpl in Hin.
    apply in_app_or in Hin as [Hin|[[= -> -> -> ->]|[]]]; [eauto|exact Hne].
  - intros c s w0 _ H c' s' nv' ov' Hin. simpl in Hin.
    apply in_app_or in Hin as [Hin|[[=]|[]]]. eauto.
  - intros c s w0 _ H. exact H.
  - intros c w0 _ H. exact H.
  - intros c s nv ov [].
Qed.

Lemma every_notification_reports_a_change_witness :
  strict_eq (VNum 0) (VNum 1) = false.
Proof.
  apply (every_notification_reports_a_change Demo.body Session.final 0 (VFun 0)).
  - exact SessionFacts.reachable_final.
  - simpl. auto.
Defined.

Lemma snoc_split {A} (l t1 t2 : list A) (x y : A) :
  l ++ [x] = t1 ++ y :: t2 ->
  (t2 = [] /\ l = t1 /\ x = y) \/
  (exists t2', t2 = t2' ++ [x] /\ l = t1 ++ y :: t2').
Proof.
  destruct (exists_last (l := y :: t2)) as (t & z & Ht); [discriminate|].
  intros H. destruct t2 as [|b t2].
  - left. apply app_inj_tail in H as [-> ->]. auto.
  - right. destruct (exists_last (l := b :: t2)) as (t2' & z' & Ht2); [discriminate|].
    rewrite Ht2 in H |- *.
    change (l ++ [x] = t1 ++ (y :: t2') ++ [z']) in H.
    rewrite app_assoc in H. apply app_inj_tail in H as [-> ->].
    exists t2'. auto.
Qed.

Lemma In_set_add (s t : value) l :
  In (Some t) (set_add s l) -> In (Some t) l \/ t = s.
Proof.
  unfold set_add. destruct (existsb (is_entry s) l); [auto|].
  intros H. apply in_app_or in H as [H|[[= ->]|[]]]; auto.
Qed.

Lemma In_set_delete (s t : value) l :
  In (Some t) (set_delete s l) -> In (Some t) l.
Proof.
  unfold set_delete. intros H. apply in_map_iff in H as [e [He Hin]].
  destruct (is_entry s e); [discriminate|]. subst e. exact Hin.
Qed.

Lemma In_set_clear (t : value) l : ~ In (Some t) (set_clear l).
Proof.
  unfold set_clear. intros H. apply in_map_iff in H as [e [He _]]. discriminate.
Qed.

Section SubscribedFirst.

Variable body : nat -> list value -> prog.

Lemma subscribed_first_frame w w' :
  (forall d, subscribers (cell_of d w') = subscribers (cell_of d w)) ->
  trace w' = trace w -> subscribed_first w -> subscribed_first w'.
Proof.
  intros Hs Ht [H1 H2]. split.
  - intros c s. rewrite Hs, Ht. apply H1.
  - intros t1 t2 c s nv ov. rewrite Ht. apply H2.
Qed.

Lemma subscribed_first_notified c s nv ov w :
  strict_eq ov nv = false ->
  In (Some s) (subscribers (cell_of c w)) -> subscribed_first w ->
  subscribed_first (record (Notified c s nv ov) w).
Proof.
  intros _ Hin [H1 H2]. split.
  - intros c' s' Hs'. simpl. apply in_or_app. left. apply H1, Hs'.
  - intros t1 t2 c' s' nv' ov' Ht. simpl in Ht.
    apply snoc_split in Ht as [(_ & <- & [= <- <- <- <-])|(t2' & _ & Ht)].
    + apply H1, Hin.
    + exact (H2 _ _ _ _ _ _ Ht).
Qed.

Lemma subscribed_first_add c s w :
  c < length (cells w) -> subscribed_first w ->
  subscribed_first
    (upd c (fun st => with_subscribers (set_add s (subscribers st)) st)
         (record (Subscribed c s) w)).
Proof.
  intros Hc [H1 H2]. split.
  - intros d t. rewrite cell_of_upd_decide by exact Hc. simpl.
    change (cell_of ?x (record ?e w)) with (cell_of x w).
    destruct (decide (c = d)) as [<-|Hne]; simpl; intros Hin; apply in_or_app.
    + apply In_set_add in Hin as [Hin| ->]; [left; apply H1, Hin|].
      right. left. reflexivity.
    + left. apply H1, Hin.
  - intros t1 t2 c' s' nv' ov' Ht. simpl in Ht.
    apply snoc_split in Ht as [(_ & _ & [=])|(t2' & _ & Ht)].
    exact (H2 _ _ _ _ _ _ Ht).
Qed.

Lemma subscribed_first_change c g w :
  c < length (cells w) ->
  (forall t l, In (Some t) (g l) -> In (Some t) l) ->
  subscribed_first w ->
  subscribed_first (upd c (fun st => with_subscribers (g (subscribers st)) st) w).
Proof.
  intros Hc Hg [H1 H2]. split; [|exact H2].
  intros d t. rewrite cell_of_upd_decide by exact Hc.
  destruct (decide (c = d)) as [<-|Hne]; simpl; intros Hin; apply H1; [|exact Hin].
  exact (Hg _ _ Hin).
Qed.

Lemma reachable_subscribed_first w : reachable body w -> subscribed_first w.
Proof.
  apply (reachable_P body subscribed_first).
  - exact subscribed_first_frame.
  - exact subscribed_first_notified.
  - exact subscribed_first_add.
  - intros c s w0 Hc. apply (subscribed_first_change c (set_delete s)); [exact Hc|].
    intros t l. apply In_set_delete.
  - intros c w0 Hc. apply (subscribed_first_change c set_clear); [exact Hc|].
    intros t l Hin. destruct (In_set_clear _ _ Hin).
  - split.
    + intros c s Hin. unfold cell_of in Hin. simpl in Hin. destruct Hin.
    + intros t1 t2 c s nv ov Ht. destruct t1; discriminate.
Qed.

End SubscribedFirst.

(** X4.  The library invokes only what was handed to [subscribe]: in every
    world reached from a fresh host, whatever the user functions do, each
    invocation [s(newValue, oldValue)] made by [emit] of a cell comes after
    a call [subscribe(s)] on that very cell. *)
Theorem notified_only_after_subscribing body w t1 t2 c s nv ov :
  reachable body w ->
  trace w = t1 ++ Notified c s nv ov :: t2 ->
  In (Subscribed c s) t1.
Proof.
  intros Hr Ht.
  destruct (reachable_subscribed_first body w Hr) as [_ H].
  exact (H _ _ _ _ _ _ Ht).
Qed.

Lemma notified_only_after_subscribing_witness :
  In (Subscribed 0 (VFun 0)) [Subscribed 0 (VFun 0); Subscribed 0 (VFun 0)].
Proof.
  apply (notified_only_after_subscribing Demo.body Session.final
           [Subscribed 0 (VFun 0); Subscribed 0 (VFun 0)] [] 0 (VFun 0)
           (VNum 1) (VNum 0)).
  - exact SessionFacts.reachable_final.
  - reflexivity.
Defined.

(** ** A subscriber that throws *)

Section Stops.

Variable body : nat -> list value -> prog.

Lemma emit_from_stops m c nv ov e s post : forall n pre i w,
  live (drop i (subscribers (cell_of c w))) = pre ++ s :: post ->
  (forall t, In t pre -> exists r, finishes body t [nv; ov] (Return r)) ->
  finishes body s [nv; ov] (Throw e) ->
  length (subscribers (cell_of c w)) - i < n ->
  emit_from (call body (S m)) n c i nv ov w =
  Some (Throw e, add_trace (pass c nv ov (pre ++ [s])) w).
Proof.
  induction n as [|n IH]; intros pre i w Hl Hq Hs Hn; [lia|]. cbn [emit_from].
  destruct (subscribers (cell_of c w) !! i) as [en|] eqn:E.
  - pose proof (lookup_lt_Some _ _ _ E) as Hi.
    rewrite (drop_S _ _ _ E) in Hl. destruct en as [t|].
    + rewrite live_cons_Some in Hl.
      destruct pre as [|p pre]; simpl in Hl; injection Hl as -> Hl.
      * rewrite Hs. reflexivity.
      * destruct (Hq p (or_introl eq_refl)) as [r Hr]. rewrite Hr.
        rewrite (IH pre (S i) (record (Notified c p nv ov) w)); try assumption.
        -- reflexivity.
        -- intros t Ht. apply Hq. right. exact Ht.
        -- change (cell_of c (record (Notified c p nv ov) w)) with (cell_of c w). lia.
    + rewrite live_cons_None in Hl. apply IH; try assumption. lia.
  - apply lookup_ge_None in E. rewrite drop_ge in Hl by assumption.
    destruct pre; discriminate.
Qed.

Lemma trigger_stops m b c w pre s post e :
  c < length (cells w) ->
  queued (cell_of c w) = true ->
  strict_eq (current (cell_of c w)) (future (cell_of c w)) = false ->
  live (subscribers (cell_of c w)) = pre ++ s :: post ->
  (forall t, In t pre ->
     exists r, finishes body t [future (cell_of c w); current (cell_of c w)] (Return r)) ->
  finishes body s [future (cell_of c w); current (cell_of c w)] (Throw e) ->
  length (subscribers (cell_of c w)) < b ->
  trigger (call body (S m)) b c w = Some (Throw e, interrupted c (pre ++ [s]) w).
Proof.
  intros Hc Hq Hne Hl Hpre Hs Hb. unfold trigger, interrupted. rewrite Hq.
  simpl negb. cbv iota.
  rewrite !cell_of_upd by (rewrite ?length_cells_upd; assumption).
  simpl current; simpl future. rewrite Hne.
  set (w2 := upd c _ (upd c _ w)).
  assert (Hsub : subscribers (cell_of c w2) = subscribers (cell_of c w)).
  { unfold w2. rewrite !cell_of_upd by (rewrite ?length_cells_upd; assumption).
    reflexivity. }
  unfold emit. apply (emit_from_stops m c _ _ e s post); rewrite ?Hsub, ?drop_0;
    try assumption. lia.
Qed.

Lemma cell_of_interrupted c ss w :
  c < length (cells w) ->
  cell_of c (interrupted c ss w) =
  with_current (future (cell_of c w)) (with_queued false (cell_of c w)).
Proof.
  intros Hc. unfold interrupted. rewrite cell_of_add_trace.
  rewrite !cell_of_upd by (rewrite ?length_cells_upd; assumption).
  reflexivity.
Qed.

Lemma trace_interrupted c ss w :
  trace (interrupted c ss w) =
  trace w ++ pass c (future (cell_of c w)) (current (cell_of c w)) ss.
Proof. unfold interrupted. rewrite trace_add_trace. reflexivity. Qed.

Lemma pending_interrupted c d ss w : pending d (interrupted c ss w) = pending d w.
Proof. unfold interrupted. rewrite pending_add_trace. reflexivity. Qed.

Lemma not_callable s args :
  is_function s = false -> finishes body s args (Throw type_error).
Proof. intros Hs n w. destruct s; try discriminate; reflexivity. Qed.

End Stops.

(** X5.  A subscriber that throws during the commit of a scheduled batch.
    The batch of [c] is open with a change pending, the subscribers are
    [pre], then [s], then [post] in insertion order; those in [pre] return
    and [s] throws [e], none calling back into the library.  When the host
    runs the scheduled trigger, [e] leaves the trigger; the subscribers in
    [pre] and [s] have been invoked once each, in order, and none of
    [post]; yet the commit stands: [current] is the new value, the batch is
    closed and nothing is pending, so no later tick will notify [post] of
    this change. *)
Theorem throwing_subscriber_ends_the_pass body n c h w pre s post e :
  c < length (cells w) ->
  sched_ok c w ->
  queued (cell_of c w) = true ->
  h = debounceId (cell_of c w) ->
  strict_eq (current (cell_of c w)) (future (cell_of c w)) = false ->
  live (subscribers (cell_of c w)) = pre ++ s :: post ->
  (forall t, In t pre ->
     exists r, finishes body t [future (cell_of c w); current (cell_of c w)] (Return r)) ->
  finishes body s [future (cell_of c w); current (cell_of c w)] (Throw e) ->
  length (subscribers (cell_of c w)) <= n ->
  exists w',
    fire body (S n) h w = Some (Throw e, w') /\
    current (cell_of c w') = future (cell_of c w) /\
    future (cell_of c w') = future (cell_of c w) /\
    queued (cell_of c w') = false /\
    pending c w' = [] /\
    subscribers (cell_of c w') = subscribers (cell_of c w) /\
    trace w' =
      trace w ++ pass c (future (cell_of c w)) (current (cell_of c w)) (pre ++ [s]).
Proof.
  intros Hc (Hnd & _ & Hp) Hq -> Hne Hl Hpre Hs Hn. rewrite Hq in Hp.
  set (h := debounceId (cell_of c w)) in *.
  exists (interrupted c (pre ++ [s]) (dequeue h w)).
  assert (Hc' : c < length (cells (dequeue h w))) by exact Hc.
  split; [|rewrite cell_of_interrupted, trace_interrupted, pending_interrupted
             by exact Hc'; repeat split].
  - unfold fire. rewrite (find_handle _ h c Hnd).
    + simpl snd. apply (trigger_stops body n (S n) c (dequeue h w) pre s post e);
        try assumption. change (cell_of c (dequeue h w)) with (cell_of c w). lia.
    + apply pending_In. rewrite Hp. left; reflexivity.
  - rewrite pending_dequeue, Hp, filter_cons, decide_False
      by (intros H; apply H; reflexivity).
    reflexivity.
Qed.

Lemma throwing_subscriber_ends_the_pass_witness :
  exists w',
    fire Demo.body 4 1
         (Demo.open_batch [Some (VFun 0); None; Some (VFun 1); Some (VFun 2)]) =
      Some (Throw (VStr "boom"), w') /\
    current (cell_of 0 w') = VNum 6 /\
    future (cell_of 0 w') = VNum 6 /\
    queued (cell_of 0 w') = false /\
    pending 0 w' = [] /\
    subscribers (cell_of 0 w') =
      [Some (VFun 0); None; Some (VFun 1); Some (VFun 2)] /\
    trace w' = [Notified 0 (VFun 0) (VNum 6) (VNum 5);
                Notified 0 (VFun 1) (VNum 6) (VNum 5)].
Proof.
  apply (throwing_subscriber_ends_the_pass Demo.body 4 0 1
           (Demo.open_batch [Some (VFun 0); None; Some (VFun 1); Some (VFun 2)])
           [VFun 0] (VFun 1) [VFun 2] (VStr "boom")).
  - simpl; lia.
  - apply DemoFacts.sched_ok_open_batch.
  - reflexivity.
  - reflexivity.
  - reflexivity.
  - reflexivity.
  - intros t [<-|[]]. exists VUndef. apply DemoFacts.returns_0.
  - apply DemoFacts.throws_1.
  - simpl; lia.
Defined.

Lemma set_immediate_stops body n c args a v lg w pre s post e :
  c < length (cells w) ->
  arg 0 args = a ->
  truthy (arg 1 args) = true ->
  resolves body a (current (cell_of c w)) v lg ->
  strict_eq (current (cell_of c w)) v = false ->
  live (subscribers (cell_of c w)) = pre ++ s :: post ->
  (forall t, In t pre ->
     exists r, finishes body t [v; current (cell_of c w)] (Return r)) ->
  finishes body s [v; current (cell_of c w)] (Throw e) ->
  length (subscribers (cell_of c w)) <= n ->
  call body (S (S n)) (VMethod MSet c) args w =
  Some (Throw e, interrupted c (pre ++ [s]) (forced c v (logged lg w))).
Proof.
  intros Hc Ha Hi Hr Hne Hl Hpre Hs Hn.
  set (w1 := forced c v (logged lg w)).
  assert (Hc1 : c < length (cells w1))
    by (unfold w1; rewrite length_cells_forced, length_cells_logged; exact Hc).
  assert (Hst : cell_of c w1 = with_queued true (with_future v (cell_of c w))).
  { unfold w1. rewrite cell_of_forced by (rewrite length_cells_logged; exact Hc).
    rewrite cell_of_logged. reflexivity. }
  rewrite call_S. unfold invoke. rewrite decide_True by assumption.
  cbn [call_method]. unfold set.
  rewrite Ha, Hi, (readValue_resolves body a _ v lg n w Hr).
  rewrite cell_of_upd by (rewrite length_cells_logged; exact Hc).
  cbn [debounceId with_future]. fold (forced c v (logged lg w)). fold w1.
  apply (trigger_stops body n (S n) c w1 pre s post e); rewrite ?Hst; try assumption.
  - reflexivity.
  - simpl. lia.
Qed.

Lemma interrupted_forced_fields c v lg ss w :
  c < length (cells w) ->
  cell_of c (interrupted c ss (forced c v (logged lg w))) =
    with_current v (with_queued false (with_future v (cell_of c w))) /\
  length (cells (interrupted c ss (forced c v (logged lg w)))) = length (cells w) /\
  trace (interrupted c ss (forced c v (logged lg w))) =
    trace w ++ pass c v (current (cell_of c w)) ss.
Proof.
  intros Hc.
  assert (Hc1 : c < length (cells (forced c v (logged lg w))))
    by (rewrite length_cells_forced, length_cells_logged; exact Hc).
  assert (Hst : cell_of c (forced c v (logged lg w)) =
                with_queued true (with_future v (cell_of c w))).
  { rewrite cell_of_forced by (rewrite length_cells_logged; exact Hc).
    rewrite cell_of_logged. reflexivity. }
  rewrite cell_of_interrupted, trace_interrupted, Hst by exact Hc1.
  split; [reflexivity|]. split.
  - unfold interrupted. rewrite cells_add_trace, !length_cells_upd.
    rewrite length_cells_forced. apply length_cells_logged.
  - simpl. unfold forced. simpl. rewrite trace_logged. reflexivity.
Qed.

(** X6.  A subscriber that throws during an immediate write.  The argument
    of [set(a, true)] resolves to [v], which differs from the committed
    value; the subscribers are [pre], then [s], then [post]; those in [pre]
    return and [s] throws [e], none calling back.  Then the call of [set]
    throws [e], after the subscribers in [pre] and [s] have been invoked and
    none of [post]; and the write is not undone: [get()] returns [v]
    afterwards and the batch is closed. *)
Theorem immediate_set_throws_after_committing body n c args a v lg w pre s post e :
  c < length (cells w) ->
  arg 0 args = a ->
  truthy (arg 1 args) = true ->
  resolves body a (current (cell_of c w)) v lg ->
  strict_eq (current (cell_of c w)) v = false ->
  live (subscribers (cell_of c w)) = pre ++ s :: post ->
  (forall t, In t pre ->
     exists r, finishes body t [v; current (cell_of c w)] (Return r)) ->
  finishes body s [v; current (cell_of c w)] (Throw e) ->
  length (subscribers (cell_of c w)) <= n ->
  exists w',
    call body (S (S n)) (VMethod MSet c) args w = Some (Throw e, w') /\
    call body 1 (VMethod MGet c) [] w' = Some (Return v, w') /\
    future (cell_of c w') = v /\
    queued (cell_of c w') = false /\
    subscribers (cell_of c w') = subscribers (cell_of c w) /\
    trace w' = trace w ++ pass c v (current (cell_of c w)) (pre ++ [s]).
Proof.
  intros Hc Ha Hi Hr Hne Hl Hpre Hs Hn.
  exists (interrupted c (pre ++ [s]) (forced c v (logged lg w))).
  destruct (interrupted_forced_fields c v lg (pre ++ [s]) w Hc) as (Hst & Hlen & Ht).
  split; [apply (set_immediate_stops body n c args a v lg w pre s post e); assumption|].
  split.
  - simpl. rewrite decide_True by (rewrite Hlen; exact Hc). unfold get.
    rewrite Hst. reflexivity.
  - rewrite Hst, Ht. repeat split.
Qed.

Lemma immediate_set_throws_after_committing_witness :
  exists w',
    call Demo.body 5 (VMethod MSet 0) [VNum 9; VBool true]
         (Demo.one_cell [Some (VFun 0); Some (VFun 1); Some (VFun 2)]) =
      Some (Throw (VStr "boom"), w') /\
    call Demo.body 1 (VMethod MGet 0) [] w' = Some (Return (VNum 9), w') /\
    future (cell_of 0 w') = VNum 9 /\
    queued (cell_of 0 w') = false /\
    subscribers (cell_of 0 w') = [Some (VFun 0); Some (VFun 1); Some (VFun 2)] /\
    trace w' = [Notified 0 (VFun 0) (VNum 9) (VNum 5);
                Notified 0 (VFun 1) (VNum 9) (VNum 5)].
Proof.
  apply (immediate_set_throws_after_committing Demo.body 3 0
           [VNum 9; VBool true] (VNum 9) (VNum 9) None
           (Demo.one_cell [Some (VFun 0); Some (VFun 1); Some (VFun 2)])
           [VFun 0] (VFun 1) [VFun 2] (VStr "boom")).
  - simpl; lia.
  - reflexivity.
  - reflexivity.
  - apply resolves_value. reflexivity.
  - reflexivity.
  - reflexivity.
  - intros t [<-|[]]. exists VUndef. apply DemoFacts.returns_0.
  - apply DemoFacts.throws_1.
  - simpl; lia.
Defined.

(** ** Subscribing and unsubscribing *)

Lemma live_app l1 l2 : live (l1 ++ l2) = live l1 ++ live l2.
Proof. apply omap_app. Qed.

Lemma live_set_add s l :
  live (set_add s l) = if existsb (is_entry s) l then live l else live l ++ [s].
Proof.
  unfold set_add. destruct (existsb (is_entry s) l); [reflexivity|].
  apply live_app.
Qed.

Lemma set_add_present s l : existsb (is_entry s) (set_add s l) = true.
Proof.
  unfold set_add. destruct (existsb (is_entry s) l) eqn:E; [exact E|].
  rewrite existsb_app. simpl. rewrite same_value_zero_refl. apply orb_true_r.
Qed.

Lemma set_add_idem s l : set_add s (set_add s l) = set_add s l.
Proof. unfold set_add at 1. rewrite set_add_present. reflexivity. Qed.

Lemma set_delete_absent s l : absent s l -> set_delete s l = l.
Proof.
  unfold absent, set_delete. induction l as [|e l IH]; simpl; [reflexivity|].
  intros H. apply orb_false_iff in H as [He Hl]. rewrite He, (IH Hl). reflexivity.
Qed.

Lemma set_delete_app s l1 l2 :
  set_delete s (l1 ++ l2) = set_delete s l1 ++ set_delete s l2.
Proof. apply map_app. Qed.

Lemma live_delete_added s l :
  absent s l -> live (set_delete s (set_add s l)) = live l.
Proof.
  intros Ha. unfold set_add. rewrite Ha, set_delete_app, live_app.
  rewrite (set_delete_absent s l Ha). simpl. rewrite same_value_zero_refl. simpl.
  apply app_nil_r.
Qed.

Lemma upd_same c f w : f (cell_of c w) = cell_of c w -> upd c f w = w.
Proof.
  intros Hf. destruct w as [cs ts nh nr co tr]. unfold upd, with_cells. simpl.
  f_equal. apply list_eq. intros i. unfold cell_of in Hf. simpl in Hf.
  destruct (decide (i = c)) as [->|Hne].
  - rewrite list_lookup_alter_eq. destruct (cs !! c) as [st|]; [|reflexivity].
    simpl in *. rewrite Hf. reflexivity.
  - apply list_lookup_alter_ne. auto.
Qed.

Lemma with_subscribers_same st : with_subscribers (subscribers st) st = st.
Proof. destruct st; reflexivity. Qed.

Section Registry.

Variable body : nat -> list value -> prog.

Lemma call_subscribe n c args w :
  c < length (cells w) ->
  call body (S n) (VMethod MSubscribe c) args w =
  Some (Return (VUnsub (next_ref w) c (arg 0 args)),
        snd (fresh_ref
               (upd c (fun st => with_subscribers
                                   (set_add (arg 0 args) (subscribers st)) st)
                    (record (Subscribed c (arg 0 args)) w)))).
Proof.
  intros Hc. rewrite call_S. unfold invoke. rewrite decide_True by assumption.
  reflexivity.
Qed.

Lemma call_unsubscribe n c args w :
  c < length (cells w) ->
  call body (S n) (VMethod MUnsubscribe c) args w =
  Some (Return VUndef,
        upd c (fun st => with_subscribers
                           (set_delete (arg 0 args) (subscribers st)) st) w).
Proof.
  intros Hc. rewrite call_S. unfold invoke. rewrite decide_True by assumption.
  reflexivity.
Qed.

Lemma call_unsub n k c s args w :
  c < length (cells w) ->
  call body (S n) (VUnsub k c s) args w =
  Some (Return VUndef,
        upd c (fun st => with_subscribers (set_delete s (subscribers st)) st) w).
Proof.
  intros Hc. rewrite call_S. unfold invoke. rewrite decide_True by assumption.
  reflexivity.
Qed.

Lemma call_clear n c args w :
  c < length (cells w) ->
  call body (S n) (VMethod MClear c) args w =
  Some (Return VUndef,
        upd c (fun st => with_subscribers (set_clear (subscribers st)) st) w).
Proof.
  intros Hc. rewrite call_S. unfold invoke. rewrite decide_True by assumption.
  reflexivity.
Qed.

Lemma cell_of_subscribed c s w :
  c < length (cells w) ->
  cell_of c (snd (fresh_ref
               (upd c (fun st => with_subscribers (set_add s (subscribers st)) st)
                    (record (Subscribed c s) w)))) =
  with_subscribers (set_add s (subscribers (cell_of c w))) (cell_of c w).
Proof.
  intros Hc.
  change (cell_of c (snd (fresh_ref ?x))) with (cell_of c x).
  rewrite cell_of_upd by exact Hc. reflexivity.
Qed.

End Registry.

(** X7.  [subscribe] is idempotent and keeps insertion order.  A second
    [subscribe(fn)] leaves the subscriber set exactly as the first one left
    it, so [fn] holds one place however often it is subscribed; that place is
    the end of the order if [fn] was not subscribed before, and its old place
    otherwise.  Neither call touches the value, the open batch or the
    scheduler.  Each call returns a closure of its own. *)
Theorem subscribe_is_idempotent body n c fn w :
  c < length (cells w) ->
  exists k1 k2 w1 w2,
    call body (S n) (VMethod MSubscribe c) [fn] w =
      Some (Return (VUnsub k1 c fn), w1) /\
    call body (S n) (VMethod MSubscribe c) [fn] w1 =
      Some (Return (VUnsub k2 c fn), w2) /\
    k1 <> k2 /\
    subscribers (cell_of c w2) = subscribers (cell_of c w1) /\
    live (subscribers (cell_of c w1)) =
      (if existsb (is_entry fn) (subscribers (cell_of c w))
       then live (subscribers (cell_of c w))
       else live (subscribers (cell_of c w)) ++ [fn]) /\
    (current (cell_of c w2) = current (cell_of c w) /\
     future (cell_of c w2) = future (cell_of c w) /\
     queued (cell_of c w2) = queued (cell_of c w) /\
     debounceId (cell_of c w2) = debounceId (cell_of c w) /\
     timers w2 = timers w).
Proof.
  intros Hc.
  set (w1 := snd (fresh_ref
               (upd c (fun st => with_subscribers (set_add fn (subscribers st)) st)
                    (record (Subscribed c fn) w)))).
  assert (Hc1 : c < length (cells w1))
    by (unfold w1; simpl; rewrite length_alter; exact Hc).
  set (w2 := snd (fresh_ref
               (upd c (fun st => with_subscribers (set_add fn (subscribers st)) st)
                    (record (Subscribed c fn) w1)))).
  assert (H1 : cell_of c w1 =
               with_subscribers (set_add fn (subscribers (cell_of c w))) (cell_of c w))
    by (apply cell_of_subscribed; exact Hc).
  assert (H2 : cell_of c w2 =
               with_subscribers (set_add fn (subscribers (cell_of c w1))) (cell_of c w1))
    by (apply cell_of_subscribed; exact Hc1).
  exists (next_ref w), (next_ref w1), w1, w2.
  split; [exact (call_subscribe body n c [fn] w Hc)|].
  split; [exact (call_subscribe body n c [fn] w1 Hc1)|].
  split; [unfold w1; simpl; lia|].
  rewrite H2, H1. simpl. rewrite set_add_idem, live_set_add.
  repeat split.
Qed.

Lemma subscribe_is_idempotent_witness :
  exists k1 k2 w1 w2,
    call Demo.body 1 (VMethod MSubscribe 0) [VFun 2] (Demo.one_cell [Some (VFun 0)]) =
      Some (Return (VUnsub k1 0 (VFun 2)), w1) /\
    call Demo.body 1 (VMethod MSubscribe 0) [VFun 2] w1 =
      Some (Return (VUnsub k2 0 (VFun 2)), w2) /\
    k1 <> k2 /\
    subscribers (cell_of 0 w2) = subscribers (cell_of 0 w1) /\
    live (subscribers (cell_of 0 w1)) = [VFun 0; VFun 2] /\
    (current (cell_of 0 w2) = VNum 5 /\
     future (cell_of 0 w2) = VNum 5 /\
     queued (cell_of 0 w2) = false /\
     debounceId (cell_of 0 w2) = 0 /\
     timers w2 = []).
Proof.
  apply (subscribe_is_idempotent Demo.body 0 0 (VFun 2)
           (Demo.one_cell [Some (VFun 0)])).
  simpl; lia.
Defined.

(** X8.  [unsubscribe] of a function that is not subscribed is a no-op:
    the call returns and leaves the whole state as it was, whether it is made
    through [unsubscribe(fn)] or through a closure that [subscribe(fn)] once
    returned.  So removing is idempotent: once [fn] has been removed, removing
    it again changes nothing. *)
Theorem unsubscribe_of_a_stranger_is_a_no_op body n k c fn w :
  c < length (cells w) ->
  (absent fn (subscribers (cell_of c w)) ->
   call body (S n) (VMethod MUnsubscribe c) [fn] w = Some (Return VUndef, w) /\
   call body (S n) (VUnsub k c fn) [] w = Some (Return VUndef, w)) /\
  (forall w1,
     call body (S n) (VMethod MUnsubscribe c) [fn] w = Some (Return VUndef, w1) ->
     call body (S n) (VMethod MUnsubscribe c) [fn] w1 = Some (Return VUndef, w1) /\
     call body (S n) (VUnsub k c fn) [] w1 = Some (Return VUndef, w1)).
Proof.
  intros Hc.
  assert (Hnop : forall w0, c < length (cells w0) ->
            absent fn (subscribers (cell_of c w0)) ->
            upd c (fun st => with_subscribers (set_delete fn (subscribers st)) st) w0
            = w0).
  { intros w0 Hc0 Ha. apply upd_same.
    rewrite (set_delete_absent fn _ Ha). apply with_subscribers_same. }
  split.
  - intros Ha. rewrite call_unsubscribe, call_unsub by exact Hc. change (arg 0 [fn]) with fn.
    rewrite (Hnop w Hc Ha). split; reflexivity.
  - intros w1. rewrite call_unsubscribe by exact Hc. change (arg 0 [fn]) with fn. intros [= <-].
    set (w1 := upd c _ w).
    assert (Hc1 : c < length (cells w1))
      by (unfold w1; rewrite length_cells_upd; exact Hc).
    rewrite call_unsubscribe, call_unsub by exact Hc1. change (arg 0 [fn]) with fn.
    rewrite (Hnop w1 Hc1); [split; reflexivity|].
    unfold w1. rewrite cell_of_upd by exact Hc. simpl. apply absent_after_delete.
Qed.

Lemma unsubscribe_of_a_stranger_is_a_no_op_witness :
  (absent (VFun 2) (subscribers (cell_of 0 (Demo.open_batch [Some (VFun 0); None]))) ->
   call Demo.body 1 (VMethod MUnsubscribe 0) [VFun 2]
        (Demo.open_batch [Some (VFun 0); None]) =
     Some (Return VUndef, Demo.open_batch [Some (VFun 0); None]) /\
   call Demo.body 1 (VUnsub 7 0 (VFun 2)) []
        (Demo.open_batch [Some (VFun 0); None]) =
     Some (Return VUndef, Demo.open_batch [Some (VFun 0); None])) /\
  (forall w1,
     call Demo.body 1 (VMethod MUnsubscribe 0) [VFun 2]
          (Demo.open_batch [Some (VFun 0); None]) = Some (Return VUndef, w1) ->
     call Demo.body 1 (VMethod MUnsubscribe 0) [VFun 2] w1 = Some (Return VUndef, w1) /\
     call Demo.body 1 (VUnsub 7 0 (VFun 2)) [] w1 = Some (Return VUndef, w1)).
Proof.
  apply (unsubscribe_of_a_stranger_is_a_no_op Demo.body 0 7 0 (VFun 2)
           (Demo.open_batch [Some (VFun 0); None])).
  simpl; lia.
Defined.

(** X9.  Round trip through the closure that [subscribe] returns.  If [fn]
    is not subscribed, then [const off = subscribe(fn); off()] leaves [fn]
    not subscribed and the subscribers that [emit] will walk exactly those
    there were before, in the same order; the value, the open batch and the
    scheduler are untouched. *)
Theorem subscribe_then_call_the_closure body n c fn w :
  c < length (cells w) ->
  absent fn (subscribers (cell_of c w)) ->
  exists off w1 w2,
    call body (S n) (VMethod MSubscribe c) [fn] w = Some (Return off, w1) /\
    In fn (live (subscribers (cell_of c w1))) /\
    call body (S n) off [] w1 = Some (Return VUndef, w2) /\
    absent fn (subscribers (cell_of c w2)) /\
    live (subscribers (cell_of c w2)) = live (subscribers (cell_of c w)) /\
    (current (cell_of c w2) = current (cell_of c w) /\
     future (cell_of c w2) = future (cell_of c w) /\
     queued (cell_of c w2) = queued (cell_of c w) /\
     debounceId (cell_of c w2) = debounceId (cell_of c w) /\
     timers w2 = timers w).
Proof.
  intros Hc Ha.
  set (w1 := snd (fresh_ref
               (upd c (fun st => with_subscribers (set_add fn (subscribers st)) st)
                    (record (Subscribed c fn) w)))).
  assert (Hc1 : c < length (cells w1))
    by (unfold w1; simpl; rewrite length_alter; exact Hc).
  assert (H1 : cell_of c w1 =
               with_subscribers (set_add fn (subscribers (cell_of c w))) (cell_of c w))
    by (apply cell_of_subscribed; exact Hc).
  set (w2 := upd c (fun st => with_subscribers (set_delete fn (subscribers st)) st) w1).
  assert (H2 : cell_of c w2 =
               with_subscribers (set_delete fn (subscribers (cell_of c w1))) (cell_of c w1))
    by (unfold w2; rewrite cell_of_upd by exact Hc1; reflexivity).
  exists (VUnsub (next_ref w) c fn), w1, w2.
  split; [exact (call_subscribe body n c [fn] w Hc)|].
  split.
  { rewrite H1. simpl. rewrite live_set_add, Ha. apply in_or_app. right. left.
    reflexivity. }
  split; [exact (call_unsub body n (next_ref w) c fn [] w1 Hc1)|].
  rewrite H2, H1. simpl. split; [apply absent_after_delete|].
  split; [apply live_delete_added, Ha|]. repeat split.
Qed.

Lemma subscribe_then_call_the_closure_witness :
  exists off w1 w2,
    call Demo.body 1 (VMethod MSubscribe 0) [VFun 2]
         (Demo.open_batch [Some (VFun 0)]) = Some (Return off, w1) /\
    In (VFun 2) (live (subscribers (cell_of 0 w1))) /\
    call Demo.body 1 off [] w1 = Some (Return VUndef, w2) /\
    absent (VFun 2) (subscribers (cell_of 0 w2)) /\
    live (subscribers (cell_of 0 w2)) = [VFun 0] /\
    (current (cell_of 0 w2) = VNum 5 /\
     future (cell_of 0 w2) = VNum 6 /\
     queued (cell_of 0 w2) = true /\
     debounceId (cell_of 0 w2) = 1 /\
     timers w2 = [(1, 0)]).
Proof.
  apply (subscribe_then_call_the_closure Demo.body 0 0 (VFun 2)
           (Demo.open_batch [Some (VFun 0)])).
  - simpl; lia.
  - reflexivity.
Defined.

(** X10.  The subscriber set stays usable after [clear()]: [clear()]
    followed by [subscribe(fn)] leaves [fn] as the one and only subscriber,
    whoever was subscribed before, [fn] included. *)
Theorem clear_then_subscribe body n c fn w :
  c < length (cells w) ->
  exists off w1 w2,
    call body (S n) (VMethod MClear c) [] w = Some (Return VUndef, w1) /\
    call body (S n) (VMethod MSubscribe c) [fn] w1 = Some (Return off, w2) /\
    live (subscribers (cell_of c w2)) = [fn].
Proof.
  intros Hc.
  set (w1 := upd c (fun st => with_subscribers (set_clear (subscribers st)) st) w).
  assert (Hc1 : c < length (cells w1))
    by (unfold w1; rewrite length_cells_upd; exact Hc).
  eexists _, w1, _.
  split; [exact (call_clear body n c [] w Hc)|].
  split; [exact (call_subscribe body n c [fn] w1 Hc1)|].
  change (arg 0 [fn]) with fn. rewrite cell_of_subscribed by exact Hc1. simpl.
  unfold w1. rewrite cell_of_upd by exact Hc. simpl.
  rewrite live_set_add. rewrite (absent_set_clear fn). rewrite live_set_clear.
  reflexivity.
Qed.

Lemma clear_then_subscribe_witness :
  exists off w1 w2,
    call Demo.body 1 (VMethod MClear 0) []
         (Demo.one_cell [Some (VFun 0); None; Some (VFun 2)]) =
      Some (Return VUndef, w1) /\
    call Demo.body 1 (VMethod MSubscribe 0) [VFun 2] w1 = Some (Return off, w2) /\
    live (subscribers (cell_of 0 w2)) = [VFun 2].
Proof.
  apply (clear_then_subscribe Demo.body 0 0 (VFun 2)
           (Demo.one_cell [Some (VFun 0); None; Some (VFun 2)])).
  simpl; lia.
Defined.

Lemma set_like_alone before fn after :
  set_like (before ++ Some fn :: after) -> absent fn before /\ absent fn after.
Proof.
  intros Hl.
  assert (Hat : (before ++ Some fn :: after) !! length before = Some (Some fn)).
  { rewrite lookup_app_r by lia. rewrite Nat.sub_diag. reflexivity. }
  split; unfold absent; destruct (existsb (is_entry fn) _) eqn:E; try reflexivity;
    exfalso; apply existsb_exists in E as ([t|] & Hin & Ht); try discriminate;
    simpl in Ht; apply list_elem_of_In, list_elem_of_lookup in Hin as [i Hi].
  - pose proof (lookup_lt_Some _ _ _ Hi) as Hlt.
    assert (i = length before); [|lia].
    apply (Hl i (length before) t fn); [|exact Hat|exact Ht].
    rewrite lookup_app_l by exact Hlt. exact Hi.
  - assert (length before + S i = length before); [|lia].
    apply (Hl (length before + S i) (length before) t fn); [|exact Hat|exact Ht].
    rewrite lookup_app_r by lia.
    replace (length before + S i - length before) with (S i) by lia. exact Hi.
Qed.

(** X20.  The notification order is the order of subscription, and
    subscribing again after unsubscribing counts as new: if [fn] is
    subscribed, with the subscribers [before] ahead of it and [after] behind
    it, then [unsubscribe(fn); subscribe(fn)] moves [fn] to the end of the
    order and keeps the others in their order. *)
Theorem resubscribing_moves_to_the_end body n c fn w before after :
  c < length (cells w) ->
  set_like (subscribers (cell_of c w)) ->
  subscribers (cell_of c w) = before ++ Some fn :: after ->
  exists off w1 w2,
    call body (S n) (VMethod MUnsubscribe c) [fn] w = Some (Return VUndef, w1) /\
    live (subscribers (cell_of c w1)) = live before ++ live after /\
    call body (S n) (VMethod MSubscribe c) [fn] w1 = Some (Return off, w2) /\
    live (subscribers (cell_of c w2)) = live before ++ live after ++ [fn].
Proof.
  intros Hc Hl Hsubs. rewrite Hsubs in Hl.
  destruct (set_like_alone before fn after Hl) as [Hb Ha].
  set (w1 := upd c (fun st => with_subscribers (set_delete fn (subscribers st)) st) w).
  assert (Hc1 : c < length (cells w1))
    by (unfold w1; rewrite length_cells_upd; exact Hc).
  assert (H1 : subscribers (cell_of c w1) = before ++ None :: after).
  { unfold w1. rewrite cell_of_upd by exact Hc. simpl.
    rewrite Hsubs, set_delete_app. simpl. rewrite same_value_zero_refl.
    rewrite (set_delete_absent fn before Hb), (set_delete_absent fn after Ha).
    reflexivity. }
  eexists _, w1, _.
  split; [exact (call_unsubscribe body n c [fn] w Hc)|].
  split; [rewrite H1, live_app; reflexivity|].
  split; [exact (call_subscribe body n c [fn] w1 Hc1)|].
  change (arg 0 [fn]) with fn. rewrite cell_of_subscribed by exact Hc1. simpl.
  rewrite H1, live_set_add.
  assert (Hab : existsb (is_entry fn) (before ++ None :: after) = false).
  { rewrite existsb_app. simpl. unfold absent in Hb, Ha. rewrite Hb, Ha. reflexivity. }
  rewrite Hab, live_app. simpl. rewrite <- app_assoc. reflexivity.
Qed.

Lemma resubscribing_moves_to_the_end_witness :
  exists off w1 w2,
    call Demo.body 1 (VMethod MUnsubscribe 0) [VFun 0]
         (Demo.one_cell [Some (VFun 0); None; Some (VFun 2)]) =
      Some (Return VUndef, w1) /\
    live (subscribers (cell_of 0 w1)) = [] ++ [VFun 2] /\
    call Demo.body 1 (VMethod MSubscribe 0) [VFun 0] w1 = Some (Return off, w2) /\
    live (subscribers (cell_of 0 w2)) = [] ++ [VFun 2] ++ [VFun 0].
Proof.
  apply (resubscribing_moves_to_the_end Demo.body 0 0 (VFun 0)
           (Demo.one_cell [Some (VFun 0); None; Some (VFun 2)])
           [] [None; Some (VFun 2)]).
  - simpl; lia.
  - intros [|[|[|i]]] [|[|[|j]]] s t Hi Hj Hst; simpl in *;
      try discriminate; try reflexivity;
      injection Hi as <-; injection Hj as <-; discriminate.
  - reflexivity.
Defined.

(** X11.  [subscribe] does not check its argument.  A value that is not a
    function is added to the set like any other, and the call returns a
    closure as usual; the failure comes later: the next immediate write
    that changes the value throws a [TypeError] out of [set] when [emit]
    reaches that entry, after the value has been committed.  (The
    subscribers that were there before return without calling back.) *)
Theorem non_callable_subscriber_fails_at_commit body n c s x w :
  c < length (cells w) ->
  is_function s = false ->
  absent s (subscribers (cell_of c w)) ->
  is_function x = false ->
  strict_eq (current (cell_of c w)) x = false ->
  quiet body c x (current (cell_of c w)) w ->
  length (subscribers (cell_of c w)) < n ->
  exists off w1 w2,
    call body 1 (VMethod MSubscribe c) [s] w = Some (Return off, w1) /\
    is_function off = true /\
    call body (S (S n)) (VMethod MSet c) [x; VBool true] w1 =
      Some (Throw type_error, w2) /\
    call body 1 (VMethod MGet c) [] w2 = Some (Return x, w2) /\
    queued (cell_of c w2) = false.
Proof.
  intros Hc Hs Ha Hx Hne Hq Hn.
  set (w1 := snd (fresh_ref
               (upd c (fun st => with_subscribers (set_add s (subscribers st)) st)
                    (record (Subscribed c s) w)))).
  assert (Hc1 : c < length (cells w1))
    by (unfold w1; simpl; rewrite length_alter; exact Hc).
  assert (H1 : cell_of c w1 =
               with_subscribers (subscribers (cell_of c w) ++ [Some s]) (cell_of c w)).
  { unfold w1. rewrite cell_of_subscribed by exact Hc. unfold set_add.
    rewrite Ha. reflexivity. }
  exists (VUnsub (next_ref w) c s), w1,
    (interrupted c (live (subscribers (cell_of c w)) ++ [s])
                 (forced c x (logged None w1))).
  destruct (interrupted_forced_fields c x None
              (live (subscribers (cell_of c w)) ++ [s]) w1 Hc1) as (Hst & Hlen & _).
  split; [exact (call_subscribe body 0 c [s] w Hc)|]. split; [reflexivity|].
  split; [|split].
  - apply (set_immediate_stops body n c [x; VBool true] x x None w1
             (live (subscribers (cell_of c w))) s []); rewrite ?H1; simpl;
      try reflexivity; try assumption.
    + apply resolves_value, Hx.
    + rewrite live_app. reflexivity.
    + apply not_callable, Hs.
    + rewrite length_app. simpl. lia.
  - rewrite call_S. unfold invoke.
    rewrite decide_True by (rewrite Hlen; exact Hc1). unfold call_method, get.
    rewrite Hst. reflexivity.
  - rewrite Hst. reflexivity.
Qed.

Lemma non_callable_subscriber_fails_at_commit_witness :
  exists off w1 w2,
    call Demo.body 1 (VMethod MSubscribe 0) [VNum 3]
         (Demo.one_cell [Some (VFun 0)]) = Some (Return off, w1) /\
    is_function off = true /\
    call Demo.body 4 (VMethod MSet 0) [VNum 9; VBool true] w1 =
      Some (Throw type_error, w2) /\
    call Demo.body 1 (VMethod MGet 0) [] w2 = Some (Return (VNum 9), w2) /\
    queued (cell_of 0 w2) = false.
Proof.
  apply (non_callable_subscriber_fails_at_commit Demo.body 2 0 (VNum 3) (VNum 9)
           (Demo.one_cell [Some (VFun 0)])).
  - simpl; lia.
  - reflexivity.
  - reflexivity.
  - reflexivity.
  - reflexivity.
  - intros t [<-|[]]. exists VUndef. apply DemoFacts.returns_0.
  - simpl; lia.
Defined.

(** ** One cell does not disturb another *)

Lemma filter_all {A} (P : A -> Prop) `{forall x, Decision (P x)} (l : list A) :
  (forall x, In x l -> P x) -> filter P l = l.
Proof.
  induction l as [|x l IH]; intros Hl; [reflexivity|].
  rewrite filter_cons, decide_True by (apply Hl; left; reflexivity).
  f_equal. apply IH. intros y Hy. apply Hl. right. exact Hy.
Qed.

Lemma cell_of_written_ne c d v w :
  c ≠ d -> cell_of d (written c v w) = cell_of d w.
Proof.
  intros Hne. unfold written. destruct (queued (cell_of c w)).
  - apply cell_of_upd_ne, Hne.
  - rewrite cell_of_upd_ne by exact Hne.
    change (cell_of d (snd (enqueue c ?x))) with (cell_of d x).
    rewrite !cell_of_upd_ne by exact Hne. reflexivity.
Qed.

Lemma pending_written_ne c d v w :
  c ≠ d -> pending d (written c v w) = pending d w.
Proof.
  intros Hne. unfold written. destruct (queued (cell_of c w)); [reflexivity|].
  change (pending d (with_timers (timers w ++ [(next_handle w, c)]) w) = pending d w).
  rewrite pending_app, decide_False by exact Hne. apply app_nil_r.
Qed.

Lemma cell_of_forced_ne c d v w :
  c ≠ d -> cell_of d (forced c v w) = cell_of d w.
Proof.
  intros Hne. unfold forced. rewrite cell_of_upd_ne by exact Hne.
  change (cell_of d (dequeue ?h ?x)) with (cell_of d x).
  apply cell_of_upd_ne, Hne.
Qed.

Lemma cell_of_committed_ne c d w :
  c ≠ d -> cell_of d (committed c w) = cell_of d w.
Proof.
  intros Hne. unfold committed.
  destruct (strict_eq (current (cell_of c w)) (future (cell_of c w)));
    rewrite ?cell_of_add_trace, !cell_of_upd_ne by exact Hne; reflexivity.
Qed.

(** Where the bookkeeping is in order, the handle a cell holds is not the
    handle of another cell's pending callback. *)
Lemma foreign_handle c d h w :
  wf w -> c < length (cells w) -> c ≠ d ->
  In h (pending d w) -> h ≠ debounceId (cell_of c w).
Proof.
  intros (_ & _ & H3 & _ & H5) Hc Hne Hin Heq.
  apply pending_In in Hin. destruct (H3 _ _ Hin) as (Hpos & _ & Hd & _ & Hid).
  assert (debounceId (cell_of c w) = 0); [|lia].
  apply (H5 c d Hc Hd Hne). congruence.
Qed.

Lemma pending_forced_ne c d v w :
  wf w -> c < length (cells w) -> c ≠ d ->
  pending d (forced c v w) = pending d w.
Proof.
  intros Hw Hc Hne. unfold forced.
  change (pending d (dequeue (debounceId (cell_of c w)) (upd c (with_future v) w))
          = pending d w).
  rewrite pending_dequeue. apply filter_all.
  intros h Hin. exact (foreign_handle c d h w Hw Hc Hne Hin).
Qed.

(** X12.  Cells are independent.  Where the scheduler's bookkeeping is in
    order (as it is in every reachable world), a write to cell [c] --
    immediate or not, with a plain value or a setter that does not call
    back, and subscribers that return without calling back -- leaves every
    other cell as it was: its values, its subscribers, and the callback the
    host has pending for it.  In particular the [dequeue(debounceId)] of an
    immediate write never cancels another cell's scheduled commit, not even
    when [debounceId] is stale. *)
Theorem a_write_leaves_other_cells_alone body n c d args a v lg w :
  wf w ->
  c < length (cells w) ->
  d <> c ->
  arg 0 args = a ->
  resolves body a (current (cell_of c w)) v lg ->
  (truthy (arg 1 args) = true ->
   strict_eq (current (cell_of c w)) v = false ->
   quiet body c v (current (cell_of c w)) w /\
   length (subscribers (cell_of c w)) <= n) ->
  exists w',
    call body (S (S n)) (VMethod MSet c) args w = Some (Return VUndef, w') /\
    cell_of d w' = cell_of d w /\
    pending d w' = pending d w.
Proof.
  intros Hw Hc Hne Ha Hr Hq.
  assert (Hcd : c ≠ d) by (intros E; apply Hne; symmetry; exact E).
  destruct (truthy (arg 1 args)) eqn:Hi.
  - exists (committed c (forced c v (logged lg w))).
    split; [apply (set_immediate body n c args a); auto|].
    rewrite cell_of_committed_ne, cell_of_forced_ne, cell_of_logged by exact Hcd.
    split; [reflexivity|].
    unfold pending at 1. rewrite timers_committed. fold (pending d (forced c v (logged lg w))).
    assert (H : pending d (forced c v (logged lg w)) = pending d (forced c v w))
      by (destruct lg; reflexivity).
    rewrite H. apply pending_forced_ne; assumption.
  - exists (written c v (logged lg w)).
    split; [apply (set_later body n c args a); auto|].
    rewrite cell_of_written_ne, pending_written_ne, cell_of_logged, pending_logged
      by exact Hcd.
    split; reflexivity.
Qed.

Lemma a_write_leaves_other_cells_alone_witness :
  exists w',
    call Demo.body 3 (VMethod MSet 0) [VNum 9; VBool true]
         (World [Cell (VNum 5) (VNum 5) false 1 [Some (VFun 0)];
                 Cell (VNum 0) (VNum 1) true 2 []]
                [(2, 1)] 3 0 [] []) = Some (Return VUndef, w') /\
    cell_of 1 w' = Cell (VNum 0) (VNum 1) true 2 [] /\
    pending 1 w' = [2].
Proof.
  apply (a_write_leaves_other_cells_alone Demo.body 1 0 1
           [VNum 9; VBool true] (VNum 9) (VNum 9) None
           (World [Cell (VNum 5) (VNum 5) false 1 [Some (VFun 0)];
                   Cell (VNum 0) (VNum 1) true 2 []]
                  [(2, 1)] 3 0 [] [])).
  - unfold wf. simpl. split; [repeat constructor; rewrite elem_of_nil; tauto|].
    split; [lia|]. split; [|split].
    + intros h d [[= <- <-]|[]]. simpl. repeat split; lia.
    + intros [|[|d]] Hd; simpl in *; try lia; split; try lia; try discriminate.
      intros _. left. reflexivity.
    + intros [|[|a]] [|[|b]] Ha Hb Hne; simpl in *; try lia; discriminate.
  - simpl; lia.
  - lia.
  - reflexivity.
  - apply resolves_value. reflexivity.
  - intros _ _. split; [|simpl; lia].
    intros t [<-|[]]. exists VUndef. apply DemoFacts.returns_0.
Defined.

(** ** The edges of [createStore] *)

Section Stores.

Variable body : nat -> list value -> prog.

Lemma createObservable_resolves n initialValue v lg w :
  resolves body initialValue VUndef v lg ->
  createObservable body (S n) initialValue w =
  Some (Return (VObj (next_ref w) (observable_fields (length (cells w)))),
        snd (fresh_ref (with_cells (cells w ++ [Cell v v false 0 []]) (logged lg w)))).
Proof.
  intros Hr. unfold createObservable.
  rewrite (readValue_resolves body initialValue VUndef v lg n w Hr).
  destruct lg; reflexivity.
Qed.

Lemma cell_of_new_cell d v lg w :
  cell_of d (snd (fresh_ref (with_cells (cells w ++ [Cell v v false 0 []])
                                        (logged lg w)))) =
  if decide (d = length (cells w)) then Cell v v false 0 [] else cell_of d w.
Proof.
  unfold cell_of. simpl. destruct (decide (d = length (cells w))) as [->|Hne].
  - rewrite lookup_app_r by lia. rewrite Nat.sub_diag. reflexivity.
  - destruct (decide (d < length (cells w))) as [Hd|Hd].
    + rewrite lookup_app_l by exact Hd. reflexivity.
    + rewrite lookup_app_r by lia. rewrite (lookup_ge_None_2 (cells w)) by lia.
      destruct (d - length (cells w)) as [|[|k]] eqn:E; [lia|reflexivity|reflexivity].
Qed.

End Stores.

(** X13.  [createStore] with something that is not a function in the place
    of the actions factory throws a [TypeError] -- but only after the
    observable has been created: the initial value has been read (a function
    initialiser has run, and its failure has been logged) and the cell
    exists, holding that value, with no subscriber and nothing scheduled.
    The cells that existed before are untouched. *)
Theorem createStore_without_a_factory body n store actions v lg w :
  is_function actions = false ->
  resolves body store VUndef v lg ->
  exists w1,
    createStore body (S n) store actions w = Some (Throw type_error, w1) /\
    length (cells w1) = S (length (cells w)) /\
    cell_of (length (cells w)) w1 = Cell v v false 0 [] /\
    (forall d, d < length (cells w) -> cell_of d w1 = cell_of d w) /\
    timers w1 = timers w /\
    console w1 = console (logged lg w).
Proof.
  intros Ha Hr. eexists. unfold createStore.
  rewrite (createObservable_resolves body n store v lg w Hr).
  rewrite (not_callable body actions _ Ha n). split; [reflexivity|].
  split; [|split; [|split; [|split]]].
  - simpl. rewrite length_app. simpl. lia.
  - rewrite cell_of_new_cell, decide_True by reflexivity. reflexivity.
  - intros d Hd. rewrite cell_of_new_cell, decide_False by lia. reflexivity.
  - destruct lg; reflexivity.
  - destruct lg; reflexivity.
Qed.

Lemma createStore_without_a_factory_witness :
  exists w1,
    createStore Demo.body 1 (VFun 1) (VNum 7) (Demo.one_cell []) =
      Some (Throw type_error, w1) /\
    length (cells w1) = 2 /\
    cell_of 1 w1 = Cell VUndef VUndef false 0 [] /\
    (forall d, d < 1 -> cell_of d w1 = cell_of d (Demo.one_cell [])) /\
    timers w1 = [] /\
    console w1 = [LogEntry (VFun 1) VUndef (VStr "boom")].
Proof.
  apply (createStore_without_a_factory Demo.body 0 (VFun 1) (VNum 7) VUndef
           (Some (LogEntry (VFun 1) VUndef (VStr "boom"))) (Demo.one_cell [])).
  - reflexivity.
  - apply resolves_throw; [reflexivity|apply DemoFacts.throws_1].
Defined.

(** X14.  A factory with nothing to add.  If the actions factory returns
    [undefined], a boolean, a number or a function -- a value without own
    enumerable properties -- the store that [createStore] returns has the
    five members of the observable and nothing else, in the order [get],
    [set], [clear], [subscribe], [unsubscribe], all of them closures of the
    cell just created.  (Initialiser and factory do not call back into the
    library.) *)
Theorem createStore_with_nothing_to_add body n store actions v lg a w :
  resolves body store VUndef v lg ->
  (forall state, finishes body actions [state] (Return a)) ->
  match a with VStr _ | VObj _ _ => False | _ => True end ->
  exists r w1,
    createStore body (S n) store actions w =
      Some (Return (VObj r (observable_fields (length (cells w)))), w1) /\
    cell_of (length (cells w)) w1 = Cell v v false 0 [] /\
    exists g, lookup_field "get" (observable_fields (length (cells w))) = Some g /\
              call body 1 g [] w1 = Some (Return v, w1).
Proof.
  intros Hr Hf Ha. eexists _, _. unfold createStore.
  rewrite (createObservable_resolves body n store v lg w Hr).
  rewrite (Hf _ n). cbn [fresh_ref fst snd own_fields].
  assert (Hnone : own_fields a = []) by (destruct a; try reflexivity; destruct Ha).
  rewrite Hnone. split; [reflexivity|].
  set (w1 := World _ _ _ _ _ _).
  assert (Hcell : cell_of (length (cells w)) w1 = Cell v v false 0 []).
  { pose proof (cell_of_new_cell (length (cells w)) v lg w) as H.
    rewrite decide_True in H by reflexivity. exact H. }
  split; [exact Hcell|].
  exists (VMethod MGet (length (cells w))). split; [reflexivity|].
  rewrite call_S. unfold invoke. rewrite decide_True.
  - unfold call_method, get. rewrite Hcell. reflexivity.
  - unfold w1. simpl. destruct lg; simpl; rewrite length_app; simpl; lia.
Qed.

Lemma createStore_with_nothing_to_add_witness :
  exists r w1,
    createStore Demo.body 1 (VNum 3) (VFun 0) host0 =
      Some (Return (VObj r (observable_fields 0)), w1) /\
    cell_of 0 w1 = Cell (VNum 3) (VNum 3) false 0 [] /\
    exists g, lookup_field "get" (observable_fields 0) = Some g /\
              call Demo.body 1 g [] w1 = Some (Return (VNum 3), w1).
Proof.
  apply (createStore_with_nothing_to_add Demo.body 0 (VNum 3) (VFun 0) (VNum 3)
           None VUndef host0).
  - apply resolves_value. reflexivity.
  - intros state. apply DemoFacts.returns_0.
  - exact I.
Defined.

(** X19.  The counterpart for the scheduled commit.  Where the scheduler's
    bookkeeping is in order, the host running the callback of cell [d]
    (subscribers returning without calling back) closes the batch of [d] and
    leaves every other cell as it was, with its own callback still
    pending. *)
Theorem a_commit_leaves_other_cells_alone body n c d h w :
  wf w ->
  d < length (cells w) ->
  c <> d ->
  queued (cell_of d w) = true ->
  h = debounceId (cell_of d w) ->
  (strict_eq (current (cell_of d w)) (future (cell_of d w)) = false ->
   quiet body d (future (cell_of d w)) (current (cell_of d w)) w /\
   length (subscribers (cell_of d w)) <= n) ->
  exists w',
    fire body (S n) h w = Some (Return VUndef, w') /\
    queued (cell_of d w') = false /\
    cell_of c w' = cell_of c w /\
    pending c w' = pending c w.
Proof.
  intros Hw Hd Hne Hq Hh Hs.
  assert (Hdc : d ≠ c) by (intros E; apply Hne; symmetry; exact E).
  exists (committed d (dequeue h w)).
  split; [apply fire_pending; auto using wf_sched_ok|]. split; [|split].
  - rewrite cell_of_committed by exact Hd. reflexivity.
  - rewrite cell_of_committed_ne by exact Hdc. reflexivity.
  - unfold pending at 1. rewrite timers_committed. fold (pending c (dequeue h w)).
    rewrite pending_dequeue. apply filter_all. intros k Hk. subst h.
    exact (foreign_handle d c k w Hw Hd Hdc Hk).
Qed.

Lemma a_commit_leaves_other_cells_alone_witness :
  exists w',
    fire Demo.body 2 2
         (World [Cell (VNum 5) (VNum 7) true 1 [Some (VFun 0)];
                 Cell (VNum 0) (VNum 1) true 2 [Some (VFun 0)]]
                [(1, 0); (2, 1)] 3 0 [] []) = Some (Return VUndef, w') /\
    queued (cell_of 1 w') = false /\
    cell_of 0 w' = Cell (VNum 5) (VNum 7) true 1 [Some (VFun 0)] /\
    pending 0 w' = [1].
Proof.
  apply (a_commit_leaves_other_cells_alone Demo.body 1 0 1 2
           (World [Cell (VNum 5) (VNum 7) true 1 [Some (VFun 0)];
                   Cell (VNum 0) (VNum 1) true 2 [Some (VFun 0)]]
                  [(1, 0); (2, 1)] 3 0 [] [])).
  - unfold wf. simpl. split.
    { repeat constructor; rewrite ?elem_of_cons, ?elem_of_nil; intuition lia. }
    split; [lia|]. split; [|split].
    + intros h d [[= <- <-]|[[= <- <-]|[]]]; simpl; repeat split; lia.
    + intros [|[|d]] Hd; simpl in *; try lia; split; try lia; intros _; auto.
    + intros [|[|a]] [|[|b]] Ha Hb Hne; simpl in *; try lia; discriminate.
  - simpl; lia.
  - lia.
  - reflexivity.
  - reflexivity.
  - intros _. split; [|simpl; lia].
    intros t [<-|[]]. exists VUndef. apply DemoFacts.returns_0.
Defined.

(** ** Changing the subscriber set while it is being walked *)

Section LiveSet.

Variable body : nat -> list value -> prog.

(** The first [k] entries from [i] on, when their functions return. *)
Lemma emit_from_skip m c nv ov : forall k n i w,
  i + k <= length (subscribers (cell_of c w)) ->
  (forall s, In s (live (take k (drop i (subscribers (cell_of c w))))) ->
             exists r, finishes body s [nv; ov] (Return r)) ->
  emit_from (call body (S m)) (k + n) c i nv ov w =
  emit_from (call body (S m)) n c (i + k) nv ov
    (add_trace (pass c nv ov (live (take k (drop i (subscribers (cell_of c w)))))) w).
Proof.
  induction k as [|k IH]; intros n i w Hk Hq.
  - rewrite Nat.add_0_r. reflexivity.
  - destruct (lookup_lt_is_Some_2 (subscribers (cell_of c w)) i) as [en E]; [lia|].
    change (S k + n) with (S (k + n)). cbn [emit_from]. rewrite E.
    rewrite (drop_S _ _ _ E) in Hq |- *. cbn [take] in Hq |- *.
    replace (i + S k) with (S i + k) by lia.
    destruct en as [s|].
    + rewrite live_cons_Some in Hq |- *.
      destruct (Hq s (or_introl eq_refl)) as [r Hr]. rewrite Hr.
      rewrite (IH n (S i) (record (Notified c s nv ov) w)).
      * reflexivity.
      * change (cell_of c (record (Notified c s nv ov) w)) with (cell_of c w). lia.
      * intros t Ht. apply Hq. right. exact Ht.
    + rewrite live_cons_None in Hq |- *. apply IH; [lia|exact Hq].
Qed.

(** A pass in which one subscriber changes the set and all others return:
    the entries before it, the subscriber itself, and then whatever the set
    holds after its place once it has run. *)
Lemma emit_from_changing m n N c nv ov w before s after w1 :
  N = length before + S n ->
  c < length (cells w) ->
  subscribers (cell_of c w) = before ++ Some s :: after ->
  (forall t, In t (live before) -> exists r, finishes body t [nv; ov] (Return r)) ->
  (forall w0, c < length (cells w0) -> cell_of c w0 = cell_of c w ->
     call body (S m) s [nv; ov] (record (Notified c s nv ov) w0) =
     Some (Return VUndef, w1 w0)) ->
  (forall w0, c < length (cells w0) -> cell_of c w0 = cell_of c w ->
     (forall t, In t (live (drop (S (length before)) (subscribers (cell_of c (w1 w0))))) ->
        exists r, finishes body t [nv; ov] (Return r)) /\
     length (subscribers (cell_of c (w1 w0))) - S (length before) < n) ->
  let wa := add_trace (pass c nv ov (live before)) w in
  emit_from (call body (S m)) N c 0 nv ov w =
  Some (Return VUndef,
        add_trace (pass c nv ov
                     (live (drop (S (length before)) (subscribers (cell_of c (w1 wa))))))
                  (w1 wa)).
Proof.
  intros -> Hc Hsubs Hbefore Hs Hafter wa.
  assert (Htake : take (length before) (drop 0 (subscribers (cell_of c w))) = before).
  { rewrite drop_0, Hsubs. apply take_app_length. }
  rewrite (emit_from_skip m c nv ov (length before) (S n) 0 w).
  - rewrite Htake. fold wa. simpl Nat.add. cbn [emit_from].
    assert (Hwa : cell_of c wa = cell_of c w) by apply cell_of_add_trace.
    assert (Hca : c < length (cells wa))
      by (unfold wa; rewrite cells_add_trace; exact Hc).
    rewrite Hwa, Hsubs.
    rewrite (lookup_app_r before) by lia. rewrite Nat.sub_diag. simpl lookup.
    cbv beta iota. rewrite (Hs wa Hca Hwa).
    destruct (Hafter wa Hca Hwa) as [Hq Hn].
    apply (emit_from_quiet body m n c nv ov (S (length before)) (w1 wa) Hq Hn).
  - rewrite Hsubs, length_app. simpl. lia.
  - rewrite Htake. exact Hbefore.
Qed.

Lemma drop_set_delete t before e after :
  drop (S (length before)) (set_delete t (before ++ e :: after)) = set_delete t after.
Proof.
  induction before as [|b before IH]; [reflexivity|exact IH].
Qed.

Lemma pass_app c nv ov l1 l2 :
  pass c nv ov (l1 ++ l2) = pass c nv ov l1 ++ pass c nv ov l2.
Proof. apply map_app. Qed.

(** The commit of an open batch with a change pending comes down to the
    pass over the subscribers. *)
Lemma fire_changed n h c w :
  c < length (cells w) ->
  sched_ok c w ->
  queued (cell_of c w) = true ->
  h = debounceId (cell_of c w) ->
  strict_eq (current (cell_of c w)) (future (cell_of c w)) = false ->
  fire body n h w =
  emit_from (call body n) n c 0 (future (cell_of c w)) (current (cell_of c w))
    (upd c (with_current (future (cell_of c w)))
         (upd c (with_queued false) (dequeue h w))).
Proof.
  intros Hc (Hnd & _ & Hp) Hq -> Hne. rewrite Hq in Hp. unfold fire.
  rewrite (find_handle _ (debounceId (cell_of c w)) c Hnd)
    by (apply pending_In; rewrite Hp; left; reflexivity).
  simpl snd.
  assert (H0 : cell_of c (dequeue (debounceId (cell_of c w)) w) = cell_of c w)
    by reflexivity.
  assert (Hc0 : c < length (cells (dequeue (debounceId (cell_of c w)) w)))
    by exact Hc.
  revert H0 Hc0. generalize (dequeue (debounceId (cell_of c w)) w). intros w0 H0 Hc0.
  unfold trigger. rewrite H0, Hq. simpl negb. cbv iota.
  rewrite !cell_of_upd by (rewrite ?length_cells_upd; exact Hc0).
  rewrite H0. simpl current; simpl future. rewrite Hne. reflexivity.
Qed.

End LiveSet.

(** X15.  Unsubscribing during a notification pass takes effect at once.
    A scheduled commit with a change pending walks the subscribers; one of
    them, [s], calls [unsubscribe(t)]; all the others return without
    calling back.  Then the pass invokes, in insertion order, the
    subscribers placed before [s], then [s], then those placed after [s]
    except [t]: a subscriber removed before its turn is not notified of this
    change.  The pass runs to its end ([s] removing itself does not disturb
    it), and afterwards the set is the old one without [t]. *)
Theorem unsubscribing_during_a_pass body n c h w before s t after :
  c < length (cells w) ->
  sched_ok c w ->
  queued (cell_of c w) = true ->
  h = debounceId (cell_of c w) ->
  strict_eq (current (cell_of c w)) (future (cell_of c w)) = false ->
  subscribers (cell_of c w) = before ++ Some s :: after ->
  (forall x, In x (live before) ->
     exists r, finishes body x [future (cell_of c w); current (cell_of c w)] (Return r)) ->
  unsubscribes body c s t [future (cell_of c w); current (cell_of c w)] ->
  (forall x, In x (live (set_delete t after)) ->
     exists r, finishes body x [future (cell_of c w); current (cell_of c w)] (Return r)) ->
  length (subscribers (cell_of c w)) <= n ->
  exists w',
    fire body (S (S n)) h w = Some (Return VUndef, w') /\
    trace w' =
      trace w ++ pass c (future (cell_of c w)) (current (cell_of c w))
                   (live before ++ s :: live (set_delete t after)) /\
    subscribers (cell_of c w') = set_delete t (subscribers (cell_of c w)) /\
    current (cell_of c w') = future (cell_of c w) /\
    queued (cell_of c w') = false.
Proof.
  intros Hc Hs Hq Hh Hne Hsubs Hbefore Hun Hafter Hn.
  rewrite (fire_changed body (S (S n)) h c w Hc Hs Hq Hh Hne).
  set (nv := future (cell_of c w)) in *. set (ov := current (cell_of c w)) in *.
  set (w2 := upd c (with_current nv) (upd c (with_queued false) (dequeue h w))).
  assert (Hc2 : c < length (cells w2)) by (unfold w2; rewrite !length_cells_upd; exact Hc).
  assert (H2 : cell_of c w2 = with_current nv (with_queued false (cell_of c w))).
  { unfold w2. rewrite !cell_of_upd by (rewrite ?length_cells_upd; exact Hc).
    reflexivity. }
  set (w1 := fun w0 =>
    upd c (fun st => with_subscribers (set_delete t (subscribers st)) st)
        (record (Notified c s nv ov) w0)).
  assert (H1 : forall w0, c < length (cells w0) -> cell_of c w0 = cell_of c w2 ->
            subscribers (cell_of c (w1 w0)) = set_delete t (before ++ Some s :: after)).
  { intros w0 Hc0 H0. unfold w1. rewrite cell_of_upd by exact Hc0. simpl.
    change (cell_of c (record ?e w0)) with (cell_of c w0).
    rewrite H0, H2. simpl. rewrite Hsubs. reflexivity. }
  rewrite (emit_from_changing body (S n) (S n - length before) (S (S n)) c nv ov w2
             before s after w1).
  - set (wa := add_trace (pass c nv ov (live before)) w2).
    assert (Hca : c < length (cells wa))
      by (unfold wa; rewrite cells_add_trace; exact Hc2).
    assert (Hwa : cell_of c wa = cell_of c w2) by apply cell_of_add_trace.
    eexists. split; [reflexivity|].
    rewrite trace_add_trace, cell_of_add_trace, (H1 wa Hca Hwa), drop_set_delete.
    split; [|split].
    + unfold w1. simpl. unfold wa. rewrite trace_add_trace. simpl.
      rewrite pass_app. simpl. rewrite <- !app_assoc. reflexivity.
    + rewrite Hsubs. reflexivity.
    + unfold w1. rewrite cell_of_upd by exact Hca. simpl.
      change (cell_of c (record ?e wa)) with (cell_of c wa). rewrite Hwa, H2.
      split; reflexivity.
  - rewrite Hsubs, length_app in Hn. simpl in Hn. lia.
  - exact Hc2.
  - rewrite H2. exact Hsubs.
  - exact Hbefore.
  - intros w0 Hc0 H0. apply (Hun n (record (Notified c s nv ov) w0)). exact Hc0.
  - intros w0 Hc0 H0. rewrite (H1 w0 Hc0 H0), drop_set_delete.
    split; [exact Hafter|].
    unfold set_delete. rewrite length_map.
    rewrite Hsubs, length_app in Hn. rewrite length_app. simpl in *. lia.
Qed.

(** A non-immediate [set] of a plain value needs no user code. *)
Lemma set_later_value body n c args a w :
  c < length (cells w) ->
  arg 0 args = a ->
  truthy (arg 1 args) = false ->
  is_function a = false ->
  call body (S n) (VMethod MSet c) args w = Some (Return VUndef, written c a w).
Proof.
  intros Hc Ha Hi Hf. rewrite call_S. unfold invoke.
  rewrite decide_True by assumption. cbn [call_method]. unfold set, readValue.
  rewrite Ha, Hi, Hf. unfold written. rewrite cell_of_upd by assumption.
  simpl queued. destruct (queued (cell_of c w)); reflexivity.
Qed.

Module HooksFacts.

Lemma returns args : forall f, f <> 1 -> f <> 3 -> f <> 5 -> f <> 7 ->
  finishes Hooks.body (VFun f) args (Return VUndef).
Proof.
  intros f H1 H3 H5 H7 n w.
  destruct f as [|[|[|[|[|[|[|[|f]]]]]]]]; try reflexivity; congruence.
Qed.

Lemma f7_writes_8 args : writes Hooks.body 0 (VFun 7) (VNum 8) args.
Proof.
  intros n w Hc. rewrite call_S. unfold invoke. cbn [run Hooks.body].
  rewrite (set_later_value Hooks.body n 0 [VNum 8] (VNum 8) w Hc eq_refl eq_refl eq_refl).
  reflexivity.
Qed.

Lemma f1_unsubscribes_f2 args : unsubscribes Hooks.body 0 (VFun 1) (VFun 2) args.
Proof.
  intros n w Hc. rewrite call_S. unfold invoke. cbn [run Hooks.body].
  rewrite (call_unsubscribe Hooks.body n 0 [VFun 2] w Hc). reflexivity.
Qed.

Lemma f5_unsubscribes_f5 args : unsubscribes Hooks.body 0 (VFun 5) (VFun 5) args.
Proof.
  intros n w Hc. rewrite call_S. unfold invoke. cbn [run Hooks.body].
  rewrite (call_unsubscribe Hooks.body n 0 [VFun 5] w Hc). reflexivity.
Qed.

Lemma f3_subscribes_f4 args : subscribes Hooks.body 0 (VFun 3) (VFun 4) args.
Proof.
  intros n w Hc. rewrite call_S. unfold invoke. cbn [run Hooks.body].
  rewrite (call_subscribe Hooks.body n 0 [VFun 4] w Hc). reflexivity.
Qed.

End HooksFacts.

Lemma unsubscribing_during_a_pass_witness :
  exists w',
    fire Hooks.body 6 1
         (Demo.open_batch [Some (VFun 0); Some (VFun 1); Some (VFun 2); Some (VFun 4)]) =
      Some (Return VUndef, w') /\
    trace w' = [Notified 0 (VFun 0) (VNum 6) (VNum 5);
                Notified 0 (VFun 1) (VNum 6) (VNum 5);
                Notified 0 (VFun 4) (VNum 6) (VNum 5)] /\
    subscribers (cell_of 0 w') = [Some (VFun 0); Some (VFun 1); None; Some (VFun 4)] /\
    current (cell_of 0 w') = VNum 6 /\
    queued (cell_of 0 w') = false.
Proof.
  apply (unsubscribing_during_a_pass Hooks.body 4 0 1
           (Demo.open_batch [Some (VFun 0); Some (VFun 1); Some (VFun 2); Some (VFun 4)])
           [Some (VFun 0)] (VFun 1) (VFun 2) [Some (VFun 2); Some (VFun 4)]).
  - simpl; lia.
  - apply DemoFacts.sched_ok_open_batch.
  - reflexivity.
  - reflexivity.
  - reflexivity.
  - reflexivity.
  - intros x [<-|[]]. exists VUndef. apply HooksFacts.returns; lia.
  - apply HooksFacts.f1_unsubscribes_f2.
  - intros x [<-|[]]. exists VUndef. apply HooksFacts.returns; lia.
  - simpl; lia.
Defined.

(** X16.  Subscribing during a notification pass takes effect at once,
    too.  A scheduled commit with a change pending walks the subscribers;
    one of them, [s], calls [subscribe(u)] for a function [u] that is not
    subscribed; all the others, and [u], return without calling back.  Then
    [u] is notified of this very change: the pass invokes the subscribers
    placed before [s], then [s], then those placed after [s], and finally
    [u], with the same two values. *)
Theorem subscribing_during_a_pass body n c h w before s u after :
  c < length (cells w) ->
  sched_ok c w ->
  queued (cell_of c w) = true ->
  h = debounceId (cell_of c w) ->
  strict_eq (current (cell_of c w)) (future (cell_of c w)) = false ->
  subscribers (cell_of c w) = before ++ Some s :: after ->
  absent u (subscribers (cell_of c w)) ->
  (forall x, In x (live before) ->
     exists r, finishes body x [future (cell_of c w); current (cell_of c w)] (Return r)) ->
  subscribes body c s u [future (cell_of c w); current (cell_of c w)] ->
  (forall x, In x (live after ++ [u]) ->
     exists r, finishes body x [future (cell_of c w); current (cell_of c w)] (Return r)) ->
  length (subscribers (cell_of c w)) <= n ->
  exists w',
    fire body (S (S n)) h w = Some (Return VUndef, w') /\
    trace w' =
      trace w ++
      pass c (future (cell_of c w)) (current (cell_of c w)) (live before ++ [s]) ++
      Subscribed c u ::
      pass c (future (cell_of c w)) (current (cell_of c w)) (live after ++ [u]) /\
    subscribers (cell_of c w') = subscribers (cell_of c w) ++ [Some u] /\
    current (cell_of c w') = future (cell_of c w) /\
    queued (cell_of c w') = false.
Proof.
  intros Hc Hs Hq Hh Hne Hsubs Hu Hbefore Hsub Hafter Hn.
  rewrite (fire_changed body (S (S n)) h c w Hc Hs Hq Hh Hne).
  set (nv := future (cell_of c w)) in *. set (ov := current (cell_of c w)) in *.
  set (w2 := upd c (with_current nv) (upd c (with_queued false) (dequeue h w))).
  assert (Hc2 : c < length (cells w2)) by (unfold w2; rewrite !length_cells_upd; exact Hc).
  assert (H2 : cell_of c w2 = with_current nv (with_queued false (cell_of c w))).
  { unfold w2. rewrite !cell_of_upd by (rewrite ?length_cells_upd; exact Hc).
    reflexivity. }
  set (w1 := fun w0 =>
    snd (fresh_ref
           (upd c (fun st => with_subscribers (set_add u (subscribers st)) st)
                (record (Subscribed c u) (record (Notified c s nv ov) w0))))).
  assert (H1 : forall w0, c < length (cells w0) -> cell_of c w0 = cell_of c w2 ->
            cell_of c (w1 w0) =
            with_subscribers ((before ++ Some s :: after) ++ [Some u]) (cell_of c w2)).
  { intros w0 Hc0 H0. unfold w1.
    rewrite (cell_of_subscribed c u (record (Notified c s nv ov) w0)) by exact Hc0.
    change (cell_of c (record ?e w0)) with (cell_of c w0).
    rewrite H0, H2. simpl. rewrite Hsubs. unfold set_add.
    rewrite Hsubs in Hu. rewrite Hu. reflexivity. }
  assert (Hdrop : drop (S (length before)) ((before ++ Some s :: after) ++ [Some u])
                  = after ++ [Some u]).
  { rewrite <- app_assoc. simpl.
    clear. induction before as [|b before IH]; [reflexivity|exact IH]. }
  rewrite (emit_from_changing body (S n) (S n - length before) (S (S n)) c nv ov w2
             before s after w1).
  - set (wa := add_trace (pass c nv ov (live before)) w2).
    assert (Hca : c < length (cells wa))
      by (unfold wa; rewrite cells_add_trace; exact Hc2).
    assert (Hwa : cell_of c wa = cell_of c w2) by apply cell_of_add_trace.
    eexists. split; [reflexivity|].
    rewrite trace_add_trace, cell_of_add_trace, (H1 wa Hca Hwa). simpl subscribers.
    rewrite Hdrop, live_app. simpl live.
    split; [|split].
    + unfold w1. simpl. unfold wa. rewrite trace_add_trace. simpl.
      rewrite !pass_app. simpl. rewrite <- !app_assoc. reflexivity.
    + rewrite Hsubs. reflexivity.
    + rewrite H2. split; reflexivity.
  - rewrite Hsubs, length_app in Hn. simpl in Hn. lia.
  - exact Hc2.
  - rewrite H2. exact Hsubs.
  - exact Hbefore.
  - intros w0 Hc0 H0. apply (Hsub n (record (Notified c s nv ov) w0)). exact Hc0.
  - intros w0 Hc0 H0. rewrite (H1 w0 Hc0 H0). simpl subscribers. rewrite Hdrop.
    split.
    + rewrite live_app. exact Hafter.
    + rewrite Hsubs, length_app in Hn. rewrite !length_app. simpl in *. lia.
Qed.

Lemma subscribing_during_a_pass_witness :
  exists w',
    fire Hooks.body 5 1 (Demo.open_batch [Some (VFun 3); None; Some (VFun 0)]) =
      Some (Return VUndef, w') /\
    trace w' = [Notified 0 (VFun 3) (VNum 6) (VNum 5);
                Subscribed 0 (VFun 4);
                Notified 0 (VFun 0) (VNum 6) (VNum 5);
                Notified 0 (VFun 4) (VNum 6) (VNum 5)] /\
    subscribers (cell_of 0 w') =
      [Some (VFun 3); None; Some (VFun 0); Some (VFun 4)] /\
    current (cell_of 0 w') = VNum 6 /\
    queued (cell_of 0 w') = false.
Proof.
  apply (subscribing_during_a_pass Hooks.body 3 0 1
           (Demo.open_batch [Some (VFun 3); None; Some (VFun 0)])
           [] (VFun 3) (VFun 4) [None; Some (VFun 0)]).
  - simpl; lia.
  - apply DemoFacts.sched_ok_open_batch.
  - reflexivity.
  - reflexivity.
  - reflexivity.
  - reflexivity.
  - reflexivity.
  - intros x [].
  - apply HooksFacts.f3_subscribes_f4.
  - intros x [<-|[<-|[]]]; exists VUndef; apply HooksFacts.returns; lia.
  - simpl; lia.
Defined.

(** X17.  A write made by a subscriber is neither lost nor merged into the
    commit that is running.  A scheduled commit with a change pending walks
    the subscribers; one of them, [s], calls [set(y)], not immediate; all the
    others return without calling back.  Since [trigger] closes the batch
    before it notifies, that write opens a new batch: every subscriber is
    still notified once of the change being committed, the committed value
    is the one of this commit, and when the tick is over [y] is pending with
    a fresh callback scheduled for it. *)
Theorem a_write_from_a_subscriber_opens_a_new_batch body n c h w before s y after :
  c < length (cells w) ->
  sched_ok c w ->
  queued (cell_of c w) = true ->
  h = debounceId (cell_of c w) ->
  strict_eq (current (cell_of c w)) (future (cell_of c w)) = false ->
  subscribers (cell_of c w) = before ++ Some s :: after ->
  (forall x, In x (live before ++ live after) ->
     exists r, finishes body x [future (cell_of c w); current (cell_of c w)] (Return r)) ->
  writes body c s y [future (cell_of c w); current (cell_of c w)] ->
  length (subscribers (cell_of c w)) <= n ->
  exists w',
    fire body (S (S n)) h w = Some (Return VUndef, w') /\
    trace w' =
      trace w ++ pass c (future (cell_of c w)) (current (cell_of c w))
                   (live (subscribers (cell_of c w))) /\
    current (cell_of c w') = future (cell_of c w) /\
    future (cell_of c w') = y /\
    queued (cell_of c w') = true /\
    debounceId (cell_of c w') = next_handle w /\
    pending c w' = [next_handle w].
Proof.
  intros Hc Hs Hq Hh Hne Hsubs Hquiet Hwr Hn.
  rewrite (fire_changed body (S (S n)) h c w Hc Hs Hq Hh Hne).
  set (nv := future (cell_of c w)) in *. set (ov := current (cell_of c w)) in *.
  set (w2 := upd c (with_current nv) (upd c (with_queued false) (dequeue h w))).
  assert (Hc2 : c < length (cells w2)) by (unfold w2; rewrite !length_cells_upd; exact Hc).
  assert (H2 : cell_of c w2 = with_current nv (with_queued false (cell_of c w))).
  { unfold w2. rewrite !cell_of_upd by (rewrite ?length_cells_upd; exact Hc).
    reflexivity. }
  assert (Hs2 : forall w0, timers w0 = timers w2 -> next_handle w0 = next_handle w2 ->
                  cell_of c w0 = cell_of c w2 -> sched_ok c w0).
  { intros w0 Ht Hnh H0. subst h.
    destruct (sched_ok_fired c w Hc Hs Hq) as [Hok _].
    apply (sched_ok_same_schedule c _ w0) in Hok; [exact Hok| | | |].
    - rewrite Ht, timers_committed. reflexivity.
    - rewrite Hnh, next_handle_committed. reflexivity.
    - rewrite H0, H2, cell_of_committed by exact Hc. reflexivity.
    - rewrite H0, H2, cell_of_committed by exact Hc.
      change (cell_of c (dequeue ?k ?x)) with (cell_of c x).
      destruct (strict_eq (current (cell_of c w)) (future (cell_of c w))); reflexivity. }
  set (w1 := fun w0 => written c y (record (Notified c s nv ov) w0)).
  assert (H1 : forall w0, c < length (cells w0) -> cell_of c w0 = cell_of c w2 ->
            cell_of c (w1 w0) =
            with_debounceId (next_handle w0)
              (with_queued true (with_future y (cell_of c w2)))).
  { intros w0 Hc0 H0. unfold w1. rewrite cell_of_written by exact Hc0.
    change (cell_of c (record ?e w0)) with (cell_of c w0).
    rewrite H0, H2. reflexivity. }
  assert (Hdrop : drop (S (length before)) (before ++ Some s :: after) = after).
  { clear. induction before as [|b before IH]; [reflexivity|exact IH]. }
  rewrite (emit_from_changing body (S n) (S n - length before) (S (S n)) c nv ov w2
             before s after w1).
  - set (wa := add_trace (pass c nv ov (live before)) w2).
    assert (Hca : c < length (cells wa))
      by (unfold wa; rewrite cells_add_trace; exact Hc2).
    assert (Hwa : cell_of c wa = cell_of c w2) by apply cell_of_add_trace.
    eexists. split; [reflexivity|].
    rewrite trace_add_trace, cell_of_add_trace, pending_add_trace, (H1 wa Hca Hwa).
    rewrite H2. simpl subscribers. rewrite Hsubs, Hdrop.
    split; [|repeat split].
    + unfold w1. rewrite trace_written. simpl. unfold wa. rewrite trace_add_trace.
      simpl. rewrite live_app, live_cons_Some, !pass_app. simpl.
      rewrite <- !app_assoc. reflexivity.
    + unfold wa. rewrite next_handle_add_trace. reflexivity.
    + assert (Hok : sched_ok c (record (Notified c s nv ov) wa)).
      { apply Hs2; [apply timers_add_trace|apply next_handle_add_trace|exact Hwa]. }
      destruct (written_open c y (record (Notified c s nv ov) wa) Hca Hok)
        as (_ & _ & _ & _ & Hp).
      fold (w1 wa) in Hp. rewrite Hp, (H1 wa Hca Hwa). simpl. unfold wa.
      rewrite next_handle_add_trace. reflexivity.
  - rewrite Hsubs, length_app in Hn. simpl in Hn. lia.
  - exact Hc2.
  - rewrite H2. exact Hsubs.
  - intros x Hx. apply Hquiet, in_or_app. left. exact Hx.
  - intros w0 Hc0 H0. apply (Hwr n (record (Notified c s nv ov) w0)). exact Hc0.
  - intros w0 Hc0 H0. rewrite (H1 w0 Hc0 H0), H2. simpl subscribers.
    rewrite Hsubs, Hdrop. split.
    + intros x Hx. apply Hquiet, in_or_app. right. exact Hx.
    + rewrite Hsubs, length_app in Hn. rewrite length_app. simpl in *. lia.
Qed.

Lemma a_write_from_a_subscriber_opens_a_new_batch_witness :
  exists w',
    fire Hooks.body 5 1 (Demo.open_batch [Some (VFun 0); Some (VFun 7); Some (VFun 2)]) =
      Some (Return VUndef, w') /\
    trace w' = [Notified 0 (VFun 0) (VNum 6) (VNum 5);
                Notified 0 (VFun 7) (VNum 6) (VNum 5);
                Notified 0 (VFun 2) (VNum 6) (VNum 5)] /\
    current (cell_of 0 w') = VNum 6 /\
    future (cell_of 0 w') = VNum 8 /\
    queued (cell_of 0 w') = true /\
    debounceId (cell_of 0 w') = 2 /\
    pending 0 w' = [2].
Proof.
  apply (a_write_from_a_subscriber_opens_a_new_batch Hooks.body 3 0 1
           (Demo.open_batch [Some (VFun 0); Some (VFun 7); Some (VFun 2)])
           [Some (VFun 0)] (VFun 7) (VNum 8) [Some (VFun 2)]).
  - simpl; lia.
  - apply DemoFacts.sched_ok_open_batch.
  - reflexivity.
  - reflexivity.
  - reflexivity.
  - reflexivity.
  - intros x [<-|[<-|[]]]; exists VUndef; apply HooksFacts.returns; lia.
  - apply HooksFacts.f7_writes_8.
  - simpl; lia.
Defined.

(** ** The calls that cannot fail *)

(** X18.  [get], [clear], [subscribe] and [unsubscribe] cannot fail and run
    no user code: on an existing observable each of them returns, whatever
    its arguments, and none throws.  [get] returns the committed value and
    changes nothing at all.  The other three change nothing but the
    subscriber set of their own cell: the values, the open batches and the
    [debounceId] of every cell, the callbacks pending with the host and the
    console stay as they were, and nobody is notified. *)
Theorem registry_calls_cannot_fail body n m c args w :
  c < length (cells w) ->
  m <> MSet ->
  exists r w',
    call body (S n) (VMethod m c) args w = Some (Return r, w') /\
    (m = MGet -> r = current (cell_of c w) /\ w' = w) /\
    (forall d, current (cell_of d w') = current (cell_of d w) /\
               future (cell_of d w') = future (cell_of d w) /\
               queued (cell_of d w') = queued (cell_of d w) /\
               debounceId (cell_of d w') = debounceId (cell_of d w) /\
               (d <> c -> subscribers (cell_of d w') = subscribers (cell_of d w))) /\
    timers w' = timers w /\
    console w' = console w /\
    (trace w' = trace w \/ trace w' = trace w ++ [Subscribed c (arg 0 args)]).
Proof.
  intros Hc Hm.
  assert (Hupd : forall g w0 d, c < length (cells w0) ->
            let st := cell_of d (upd c (fun st => with_subscribers (g (subscribers st)) st) w0) in
            current st = current (cell_of d w0) /\
            future st = future (cell_of d w0) /\
            queued st = queued (cell_of d w0) /\
            debounceId st = debounceId (cell_of d w0) /\
            (d <> c -> subscribers st = subscribers (cell_of d w0))).
  { intros g w0 d Hc0. simpl. rewrite cell_of_upd_decide by exact Hc0.
    destruct (decide (c = d)) as [<-|Hne]; simpl; repeat split; congruence. }
  destruct m; [| destruct (Hm eq_refl) | | |].
  - exists (current (cell_of c w)), w. rewrite call_S. unfold invoke.
    rewrite decide_True by exact Hc. split; [reflexivity|]. auto 10.
  - eexists _, _. split; [exact (call_clear body n c args w Hc)|].
    split; [discriminate|]. split; [intros d; apply (Hupd set_clear w d Hc)|]. auto.
  - eexists _, _. split; [exact (call_subscribe body n c args w Hc)|].
    split; [discriminate|]. split; [|auto].
    intros d. change (cell_of d (snd (fresh_ref ?x))) with (cell_of d x).
    apply (Hupd (set_add (arg 0 args)) (record (Subscribed c (arg 0 args)) w) d Hc).
  - eexists _, _. split; [exact (call_unsubscribe body n c args w Hc)|].
    split; [discriminate|].
    split; [intros d; apply (Hupd (set_delete (arg 0 args)) w d Hc)|]. auto.
Qed.

Lemma registry_calls_cannot_fail_witness :
  exists r w',
    call Demo.body 1 (VMethod MSubscribe 0) [] (Demo.open_batch [None]) =
      Some (Return r, w') /\
    (MSubscribe = MGet ->
     r = current (cell_of 0 (Demo.open_batch [None])) /\ w' = Demo.open_batch [None]) /\
    (forall d, current (cell_of d w') = current (cell_of d (Demo.open_batch [None])) /\
               future (cell_of d w') = future (cell_of d (Demo.open_batch [None])) /\
               queued (cell_of d w') = queued (cell_of d (Demo.open_batch [None])) /\
               debounceId (cell_of d w') = debounceId (cell_of d (Demo.open_batch [None])) /\
               (d <> 0 -> subscribers (cell_of d w') =
                          subscribers (cell_of d (Demo.open_batch [None])))) /\
    timers w' = [(1, 0)] /\
    console w' = [] /\
    (trace w' = [] \/ trace w' = [] ++ [Subscribed 0 (arg 0 [])]).
Proof.
  apply (registry_calls_cannot_fail Demo.body 0 MSubscribe 0 [] (Demo.open_batch [None])).
  - simpl; lia.
  - discriminate.
Defined.
